(** * BlueClaw: graduation watcher, scorer, filter and autopost schedulers

    A shallow embedding of
      - DexScreenerProvider, GraduationWatcher and the filter presets
        (dexscreener-provider.ts),
      - the holder count and the top holders of HeliusProvider
        (data-providers.ts),
      - the Discord AutopostService (autopost-service.ts),
      - the TelegramAutopostService (the Telegram bot's autopost service),
      - InMemoryTelegramStorage and getOrCreateChatConfig
        (telegram-storage.ts),
      - the admin commands and the selections of the Telegram webhook
        route, and
      - escapeHtml, the ticker keyboard (telegram-formatter.ts) and the
        parsing of callback data.

    JavaScript numbers are IEEE 754 binary64 values and are modelled by
    Rocq's primitive floats, so that NaN, the infinities, signed zeros and
    rounding behave as they do in the program.  A field reached through
    optional chaining ([pair.liquidity?.usd]) is an [option float], [None]
    standing for [undefined]. *)

From Stdlib Require Import Floats ZArith Ascii.
From stdpp Require Import base option list gmap strings pretty sorting.

Set Warnings "-inexact-float".

(* ===================================================================== *)
(** ** JavaScript numbers *)
(* ===================================================================== *)

Module JS.

Local Open Scope float_scope.

(** [x > y] and [x >= y]; like every comparison they are false as soon
    as one side is NaN. *)
Definition gt (x y : float) : bool := y <? x.
Definition ge (x y : float) : bool := y <=? x.

(** ToBoolean on a number: false for [+0], [-0] and [NaN]. *)
Definition truthy (x : float) : bool := negb (x =? 0) && (x =? x).

(** [x || d] where [x] is a possibly undefined number. *)
Definition or_else (x : option float) (d : float) : float :=
  match x with
  | Some v => if truthy v then v else d
  | None => d
  end.

(** ToNumber on a possibly undefined number: [undefined] becomes NaN. *)
Definition to_number (x : option float) : float :=
  match x with
  | Some v => v
  | None => nan
  end.

Definition is_neg_zero (x : float) : bool :=
  match classify x with
  | NZero => true
  | _ => false
  end.

(** [Math.min] and [Math.max] on two arguments: NaN is contagious and
    [-0] is smaller than [+0]. *)
Definition Math_min (a b : float) : float :=
  if is_nan a || is_nan b then nan
  else if a <? b then a
  else if b <? a then b
  else if is_neg_zero a then a else b.

Definition Math_max (a b : float) : float :=
  if is_nan a || is_nan b then nan
  else if b <? a then a
  else if a <? b then b
  else if is_neg_zero a then b else a.

(** An integer as a number (exact below 2^53 in absolute value), and the
    length of an array. *)
Definition of_Z (z : Z) : float :=
  if (z <? 0)%Z then - of_uint63 (Uint63.of_Z (- z))
  else of_uint63 (Uint63.of_Z z).

Definition of_nat (n : nat) : float := of_Z (Z.of_nat n).

End JS.

Infix "||?" := JS.or_else (at level 50, left associativity).

(* ===================================================================== *)
(** ** Data model (lib/clawcord/types.ts, as the code uses it) *)
(* ===================================================================== *)

(** Modelled from the spec: the type declarations (types.ts) are not
    among the sources.  The records of this section have the fields that
    the spec's data model lists and that the code reads or writes, under
    the names the code uses.

    The fields of a DexScreener pair that the provider, the watcher and
    the schedulers read. *)
Record DexScreenerPair := {
  chainId : string;
  dexId : string;
  url : string;
  pairAddress : string;
  baseToken_address : string;
  baseToken_symbol : string;
  baseToken_name : string;
  liquidity_usd : option float;      (* pair.liquidity?.usd *)
  marketCap : option float;
  volume_m5 : option float;          (* pair.volume?.m5 *)
  volume_h1 : option float;
  volume_h24 : option float;
  priceChange_m5 : option float;     (* pair.priceChange?.m5 *)
  priceChange_h24 : option float;
  txns_m5_buys : option float;       (* pair.txns?.m5?.buys *)
  txns_m5_sells : option float;
  pairCreatedAt : option float;      (* epoch milliseconds *)
  info_imageUrl : option string;     (* pair.info?.imageUrl *)
  info_socials : option (list string);
  info_websites : option (list string);
}.

(** TokenMetrics.  [price] is left out: it is [parseFloat(pair.priceUsd)]
    and is read by the message formatters only. *)
Record TokenMetrics := {
  mint : string;
  symbol : string;
  name : string;
  priceChange24h : float;
  volume24h : float;
  volumeChange : float;
  liquidity : float;
  liquidityChange : float;
  holders : float;
  holdersChange : float;
  topHolderConcentration : float;
  tokenAgeHours : float;
  mintAuthority : bool;
  freezeAuthority : bool;
  lpLocked : bool;
  lpAge : float;
  deployerAddress : string;
  deployerPriorTokens : float;
  deployerRugCount : float;
}.

Definition set_holders (h c : float) (m : TokenMetrics) : TokenMetrics :=
  {| mint := mint m; symbol := symbol m; name := name m;
     priceChange24h := priceChange24h m; volume24h := volume24h m;
     volumeChange := volumeChange m; liquidity := liquidity m;
     liquidityChange := liquidityChange m;
     holders := h;
     holdersChange := holdersChange m;
     topHolderConcentration := c;
     tokenAgeHours := tokenAgeHours m;
     mintAuthority := mintAuthority m; freezeAuthority := freezeAuthority m;
     lpLocked := lpLocked m; lpAge := lpAge m;
     deployerAddress := deployerAddress m;
     deployerPriorTokens := deployerPriorTokens m;
     deployerRugCount := deployerRugCount m |}.

Record GraduationFilter := {
  minLiquidity : float;
  minVolume5m : float;
  minHolders : float;
  maxAgeMinutes : float;
  excludeRuggedDeployers : bool;
  minLiquidityRatio : option float;
  minBuySellRatio : option float;
}.

Record PumpFunGraduation := {
  grad_mint : string;
  grad_symbol : string;
  grad_name : string;
  graduatedAt : float;               (* new Date(pair.pairCreatedAt) *)
  bondingCurveAddress : string;
  raydiumPairAddress : string;
  initialLiquidity : float;
  initialMarketCap : float;
  creatorAddress : string;
  imageUrl : option string;
}.

(** The strings pushed on [failures] and [warnings].  Every constructor is
    one template literal or string constant of the source; its arguments
    are the values the literal interpolates, before [toFixed] renders
    them. *)
Inductive message :=
| LiquidityBelow (liq : option float) (min : float)
    (* `Liquidity $.. < $..` *)
| Volume5mBelow (vol : option float) (min : float)
    (* `5m volume $.. < $..` *)
| AgeAbove (ageMinutes max : float)
    (* `Age ..m > ..m` *)
| HoldersBelow (holders min : float)
    (* `Holders .. < ..` *)
| TopHoldersOwn (concentration : float)
    (* `Top 10 holders own ..% (high concentration)` *)
| LiqMCapBelow (liqRatio min : float)
    (* `Liq/MCap ..% < ..% (scam risk)` *)
| BuySellBelow (ratio min : float)
    (* `Buy/Sell ratio .. < .. (dump in progress)` *)
| WashTrading (mcap : float)
    (* `MCap $..k with low volume - possible wash trading` *)
| WarnLiqDrained        (* "Liq drained (<5%)" *)
| WarnLowLiqRatio       (* "Low liq ratio (<8%)" *)
| WarnTop10Above60      (* "Top 10 hold >60%" *)
| WarnTop10Above40      (* "Top 10 hold >40%" *)
| WarnNoVolume          (* "No volume" *)
| WarnHeavySellPressure (* "Heavy sell pressure" *)
| WarnLowLiq            (* "Low liq (<$5K)" *)
| WarnNoSocials.        (* "No socials" *)

Record GraduationCandidate := {
  graduation : PumpFunGraduation;
  pair : DexScreenerPair;
  metrics : TokenMetrics;
  score : float;
  passesFilter : bool;
  filterFailures : list message;
}.

(** The three presets at the end of dexscreener-provider.ts. *)
Definition DEFAULT_GRADUATION_FILTER : GraduationFilter :=
  {| minLiquidity := 8000; minVolume5m := 200; minHolders := 75;
     maxAgeMinutes := 60; excludeRuggedDeployers := true;
     minLiquidityRatio := Some 8%float;
     minBuySellRatio := Some 0.3%float |}.

Definition AGGRESSIVE_GRADUATION_FILTER : GraduationFilter :=
  {| minLiquidity := 8000; minVolume5m := 500; minHolders := 75;
     maxAgeMinutes := 20; excludeRuggedDeployers := true;
     minLiquidityRatio := Some 8%float;
     minBuySellRatio := Some 0.3%float |}.

Definition CONSERVATIVE_GRADUATION_FILTER : GraduationFilter :=
  {| minLiquidity := 20000; minVolume5m := 2000; minHolders := 150;
     maxAgeMinutes := 120; excludeRuggedDeployers := true;
     minLiquidityRatio := Some 15%float;
     minBuySellRatio := Some 0.8%float |}.

(** [Array.prototype.sort] with a comparator: a stable insertion sort.
    [compareFn a b > 0] moves [a] behind [b]; zero and NaN keep the
    order. *)
Fixpoint sort_insert {A} (compareFn : A -> A -> float) (x : A) (l : list A)
  : list A :=
  match l with
  | [] => [x]
  | y :: l' =>
      if JS.gt (compareFn x y) 0
      then y :: sort_insert compareFn x l'
      else x :: y :: l'
  end.

Definition sort {A} (compareFn : A -> A -> float) (l : list A) : list A :=
  foldr (sort_insert compareFn) [] l.

(* ===================================================================== *)
(** ** GraduationWatcher: filter, scorer and warnings *)
(* ===================================================================== *)

Record FilterResult := {
  passes : bool;
  failures : list message;
}.

(** [arr.push(x)] *)
Definition push {A} (arr : list A) (x : A) : list A := arr ++ [x].

Section Watcher.

Local Open Scope float_scope.

(** [pairToMetrics]; [now] is the value of [Date.now()]. *)
Definition pairToMetrics (now : float) (pair : DexScreenerPair)
  : TokenMetrics :=
  let ageMs := now - JS.to_number (pairCreatedAt pair) in
  let ageHours := ageMs / (1000 * 60 * 60) in
  {| mint := baseToken_address pair;
     symbol := baseToken_symbol pair;
     name := baseToken_name pair;
     priceChange24h := priceChange_h24 pair ||? 0;
     volume24h := volume_h24 pair ||? 0;
     volumeChange :=
       match volume_h1 pair with
       | Some h1 =>
           if JS.truthy h1
           then ((h1 * 24) / (volume_h24 pair ||? 1) - 1) * 100
           else 0
       | None => 0
       end;
     liquidity := liquidity_usd pair ||? 0;
     liquidityChange := 0;
     holders := 0;
     holdersChange := 0;
     topHolderConcentration := 0;
     tokenAgeHours := ageHours;
     mintAuthority := false;
     freezeAuthority := false;
     lpLocked := false;
     lpAge := ageHours;
     deployerAddress := "";
     deployerPriorTokens := 0;
     deployerRugCount := 0 |}.

(** [applyFilter], one definition per commented block of the source; each
    takes the [failures] collected so far and gives them back, with its
    message pushed if the rule fails. *)

(* Check liquidity *)
Definition checkLiquidity (pair : DexScreenerPair) (filter : GraduationFilter)
    (failures : list message) : list message :=
  if (liquidity_usd pair ||? 0) <? minLiquidity filter
  then push failures
         (LiquidityBelow (liquidity_usd pair) (minLiquidity filter))
  else failures.

(* Check 5m volume *)
Definition checkVolume5m (pair : DexScreenerPair) (filter : GraduationFilter)
    (failures : list message) : list message :=
  if (volume_m5 pair ||? 0) <? minVolume5m filter
  then push failures (Volume5mBelow (volume_m5 pair) (minVolume5m filter))
  else failures.

(* Check age *)
Definition checkAge (ageMinutes : float) (filter : GraduationFilter)
    (failures : list message) : list message :=
  if JS.gt ageMinutes (maxAgeMinutes filter)
  then push failures (AgeAbove ageMinutes (maxAgeMinutes filter))
  else failures.

(* Check holder count (now available via Helius) *)
Definition checkHolders (metrics : TokenMetrics) (filter : GraduationFilter)
    (failures : list message) : list message :=
  if JS.gt (holders metrics) 0 && (holders metrics <? minHolders filter)
  then push failures (HoldersBelow (holders metrics) (minHolders filter))
  else failures.

(* Check top holder concentration (whale risk) *)
Definition checkConcentration (metrics : TokenMetrics)
    (failures : list message) : list message :=
  if JS.gt (topHolderConcentration metrics) 50
  then push failures (TopHoldersOwn (topHolderConcentration metrics))
  else failures.

(* Check liquidity/mcap ratio *)
Definition checkLiquidityRatio (pair : DexScreenerPair)
    (filter : GraduationFilter) (failures : list message) : list message :=
  let mcap := marketCap pair ||? 0 in
  let liq := liquidity_usd pair ||? 0 in
  let minLiqRatio := minLiquidityRatio filter ||? 8 in
  if JS.gt mcap 0 && JS.gt liq 0
  then
    let liqRatio := (liq / mcap) * 100 in
    if liqRatio <? minLiqRatio
    then push failures (LiqMCapBelow liqRatio minLiqRatio)
    else failures
  else failures.

(* Check buy/sell ratio *)
Definition checkBuySellRatio (pair : DexScreenerPair)
    (filter : GraduationFilter) (failures : list message) : list message :=
  let buys := txns_m5_buys pair ||? 0 in
  let sells := txns_m5_sells pair ||? 0 in
  let minBuySellRatio := minBuySellRatio filter ||? 0.3 in
  if JS.gt sells 0
  then
    let buySellRatio := buys / sells in
    if buySellRatio <? minBuySellRatio
    then push failures (BuySellBelow buySellRatio minBuySellRatio)
    else failures
  else failures.

(* Check for suspicious mcap vs age *)
Definition checkWashTrading (ageMinutes : float) (pair : DexScreenerPair)
    (failures : list message) : list message :=
  let mcap := marketCap pair ||? 0 in
  if JS.gt mcap 5000000 && (ageMinutes <? 15)
  then
    let vol1h := volume_h1 pair ||? 0 in
    if vol1h <? mcap * 0.1
    then push failures (WashTrading mcap)
    else failures
  else failures.

(** [now] is the value of [Date.now()]. *)
Definition applyFilter (now : float) (pair : DexScreenerPair)
    (metrics : TokenMetrics) (filter : GraduationFilter) : FilterResult :=
  let failures : list message := [] in
  let failures := checkLiquidity pair filter failures in
  let failures := checkVolume5m pair filter failures in
  let ageMinutes := (now - JS.to_number (pairCreatedAt pair)) / (1000 * 60) in
  let failures := checkAge ageMinutes filter failures in
  let failures := checkHolders metrics filter failures in
  let failures := checkConcentration metrics failures in
  let failures := checkLiquidityRatio pair filter failures in
  let failures := checkBuySellRatio pair filter failures in
  let failures := checkWashTrading ageMinutes pair failures in
  {| passes := Nat.eqb (length failures) 0;
     failures := failures |}.

(** [calculateScore], one definition per commented block of the source;
    each takes the running [score] and gives the updated one. *)

(* Volume momentum (5m vs 1h average) *)
Definition scoreVolumeMomentum (pair : DexScreenerPair) (score : float) : float :=
  let vol5m := volume_m5 pair ||? 0 in
  let vol1hAvg := (volume_h1 pair ||? 0) / 12 in
  if JS.gt vol5m (vol1hAvg * 2) then score + 1.5
  else if JS.gt vol5m (vol1hAvg * 1.5) then score + 1
  else if vol5m <? vol1hAvg * 0.5 then score - 1
  else score.

(* Liquidity health *)
Definition scoreLiquidityHealth (pair : DexScreenerPair) (score : float) : float :=
  let liq := liquidity_usd pair ||? 0 in
  if JS.gt liq 50000 then score + 1
  else if JS.gt liq 20000 then score + 0.5
  else if liq <? 5000 then score - 1
  else score.

(* Buy/sell ratio *)
Definition scoreBuySellRatio (pair : DexScreenerPair) (score : float) : float :=
  let buys := txns_m5_buys pair ||? 0 in
  let sells := txns_m5_sells pair ||? 0 in
  let ratio :=
    if JS.gt sells 0 then buys / sells
    else if JS.gt buys 0 then 2 else 1 in
  if JS.gt ratio 2 then score + 1
  else if JS.gt ratio 1.5 then score + 0.5
  else if ratio <? 0.5 then score - 1.5
  else score.

(* Price momentum *)
Definition scorePriceMomentum (pair : DexScreenerPair) (score : float) : float :=
  let priceChange5m := priceChange_m5 pair ||? 0 in
  if JS.gt priceChange5m 20 then score + 1
  else if JS.gt priceChange5m 10 then score + 0.5
  else if priceChange5m <? -20 then score - 1
  else score.

(* Market cap sanity *)
Definition scoreMarketCapSanity (pair : DexScreenerPair) (score : float) : float :=
  let mcap := marketCap pair ||? 0 in
  if JS.gt mcap 100000 && (mcap <? 5000000) then score + 0.5
  else if JS.gt mcap 10000000 then score - 0.5
  else score.

(* Liquidity to market cap ratio *)
Definition scoreLiquidityRatio (pair : DexScreenerPair) (score : float) : float :=
  let liq := liquidity_usd pair ||? 0 in
  let mcap := marketCap pair ||? 0 in
  if JS.gt mcap 0 && JS.gt liq 0
  then
    let liqRatio := (liq / mcap) * 100 in
    if JS.ge liqRatio 20 then score + 2
    else if JS.ge liqRatio 15 then score + 1.5
    else if JS.ge liqRatio 10 then score + 0.5
    else if liqRatio <? 5 then score - 3
    else if liqRatio <? 8 then score - 2
    else score
  else score.

(* Holder distribution (from Helius) *)
Definition scoreHolderDistribution (metrics : TokenMetrics) (score : float)
  : float :=
  let holders := holders metrics in
  if JS.gt holders 200 then score + 1
  else if JS.gt holders 100 then score + 0.5
  else if (holders <? 30) && JS.gt holders 0 then score - 0.5
  else score.

(* Top holder concentration (lower is better) *)
Definition scoreHolderConcentration (metrics : TokenMetrics) (score : float)
  : float :=
  let concentration := topHolderConcentration metrics in
  if JS.gt concentration 0
  then
    if concentration <? 20 then score + 1
    else if concentration <? 35 then score + 0.5
    else if JS.gt concentration 60 then score - 1
    else if JS.gt concentration 45 then score - 0.5
    else score
  else score.

Definition calculateScore (pair : DexScreenerPair) (metrics : TokenMetrics)
  : float :=
  let score := 5 in (* Base score *)
  let score := scoreVolumeMomentum pair score in
  let score := scoreLiquidityHealth pair score in
  let score := scoreBuySellRatio pair score in
  let score := scorePriceMomentum pair score in
  let score := scoreMarketCapSanity pair score in
  let score := scoreLiquidityRatio pair score in
  let score := scoreHolderDistribution metrics score in
  let score := scoreHolderConcentration metrics score in
  JS.Math_max 0 (JS.Math_min 10 score).

(** [generateWarnings]: advisory badges of the unfiltered scan. *)
Definition generateWarnings (pair : DexScreenerPair) (metrics : TokenMetrics)
  : list message :=
  let warnings : list message := [] in
  let mcap := marketCap pair ||? 0 in
  let liq := liquidity_usd pair ||? 0 in
  let liqRatio := if JS.gt mcap 0 then (liq / mcap) * 100 else 0 in
  let buys := txns_m5_buys pair ||? 0 in
  let sells := txns_m5_sells pair ||? 0 in
  (* Liquidity ratio warnings *)
  let warnings :=
    if JS.gt liqRatio 0 && (liqRatio <? 5) then push warnings WarnLiqDrained
    else if JS.gt liqRatio 0 && (liqRatio <? 8)
         then push warnings WarnLowLiqRatio
    else warnings in
  (* Holder concentration *)
  let warnings :=
    if JS.gt (topHolderConcentration metrics) 60
    then push warnings WarnTop10Above60
    else if JS.gt (topHolderConcentration metrics) 40
         then push warnings WarnTop10Above40
    else warnings in
  (* Volume check *)
  let warnings :=
    if ((volume_m5 pair ||? 0) =? 0) && ((volume_h1 pair ||? 0) =? 0)
    then push warnings WarnNoVolume
    else warnings in
  (* Sell pressure *)
  let warnings :=
    if JS.gt sells 0 && JS.gt buys 0 && (buys / sells <? 0.3)
    then push warnings WarnHeavySellPressure
    else warnings in
  (* Very low liquidity *)
  let warnings :=
    if JS.gt liq 0 && (liq <? 5000) then push warnings WarnLowLiq
    else warnings in
  (* No socials *)
  let hasSocials :=
    match info_socials pair with
    | Some l => Nat.ltb 0 (length l)
    | None => false
    end in
  let hasWebsite :=
    match info_websites pair with
    | Some l => Nat.ltb 0 (length l)
    | None => false
    end in
  let warnings :=
    if negb hasSocials && negb hasWebsite then push warnings WarnNoSocials
    else warnings in
  warnings.

End Watcher.

(* ===================================================================== *)
(** ** HeliusProvider (data-providers.ts): holder count and top holders *)
(* ===================================================================== *)

Module Helius.

Local Open Scope float_scope.

Record TopHolder := {
  owner : string;
  amount : float;
  percentage : float;
}.

(** An entry of [data.result.token_accounts]. *)
Record TokenAccount := {
  account_owner : string;
  account_amount : option float;
}.

(** [data.result] of an answer to [getTokenAccounts]. *)
Record RpcResult := {
  total : option float;
  token_accounts : option (list TokenAccount);
}.

(** What [fetch] followed by [response.json()] can give. *)
Inductive response :=
| FetchThrows
| NotOk
| Ok (result : option RpcResult).     (* data.result *)

Record CacheEntry (A : Type) := {
  data : A;
  timestamp : float;
}.

Arguments data {A} _.
Arguments timestamp {A} _.

(** [private apiKey] and [private cache: Map<string, { data: unknown;
    timestamp }>].  The map holds numbers under the keys
    [holders-${mint}] and holder lists under the keys
    [top-holders-${mint}-${limit}]; a key of one kind is never a key of
    the other ([cache_keys_apart]), so it is kept as one map per kind. *)
Record t := {
  apiKey : string;
  holderCounts : gmap string (CacheEntry float);
  topHolders : gmap string (CacheEntry (list TopHolder));
}.

Definition cacheTTL : float := 60000.

(** A provider with its key and nothing cached. *)
Definition start (apiKey : string) : t :=
  {| apiKey := apiKey; holderCounts := ∅; topHolders := ∅ |}.

(** [`holders-${mint}`] and [`top-holders-${mint}-${limit}`] *)
Definition holdersCacheKey (mint : string) : string := "holders-" +:+ mint.

Definition topHoldersCacheKey (mint : string) (limit : Z) : string :=
  "top-holders-" +:+ mint +:+ "-" +:+ pretty limit.

Section Provider.

(** [Date_now n] is what the [n]-th evaluation of [Date.now()] in a
    method of the provider returns; the methods thread the number of
    evaluations made so far. *)
Variable Date_now : nat → float.

(** [getCached(key)]: the clock is read only when there is an entry. *)
Definition getCached {A} (cache : gmap string (CacheEntry A)) (key : string)
    (n : nat) : option A * nat :=
  match cache !! key with
  | Some cached =>
      if Date_now n - timestamp cached <? cacheTTL
      then (Some (data cached), S n)
      else (None, S n)
  | None => (None, n)
  end.

(** [getTokenHolderCount(mint)]; [resp] is what the RPC endpoint answers.
    Returns the count, the provider and the number of clock readings. *)
Definition getTokenHolderCount (mint : string) (resp : response) (self : t)
    (n : nat) : float * t * nat :=
  if String.eqb (apiKey self) "" then (0, self, n)
  else
    let cacheKey := holdersCacheKey mint in
    match getCached (holderCounts self) cacheKey n with
    | (Some cached, n) => (cached, self, n)
    | (None, n) =>
        match resp with
        | FetchThrows => (0, self, n)
        | NotOk => (0, self, n)
        | Ok result =>
            let holderCount := (result ≫= total) ||? 0 in
            (holderCount,
             {| apiKey := apiKey self;
                holderCounts :=
                  <[cacheKey := {| data := holderCount;
                                   timestamp := Date_now n |}]>
                    (holderCounts self);
                topHolders := topHolders self |},
             S n)
        end
    end.

(** [getTopHolders(mint, limit = 10)] *)
Definition getTopHolders (mint : string) (limit : option Z) (resp : response)
    (self : t) (n : nat) : list TopHolder * t * nat :=
  let limit := default 10%Z limit in
  if String.eqb (apiKey self) "" then ([], self, n)
  else
    let cacheKey := topHoldersCacheKey mint limit in
    match getCached (topHolders self) cacheKey n with
    | (Some cached, n) => (cached, self, n)
    | (None, n) =>
        match resp with
        | FetchThrows => ([], self, n)
        | NotOk => ([], self, n)
        | Ok result =>
            let accounts := default [] (result ≫= token_accounts) in
            (* Calculate total supply from accounts *)
            let totalAmount :=
              foldl (λ sum acc, sum + (account_amount acc ||? 0)) 0
                    accounts in
            let holders :=
              (λ acc,
                 {| owner := account_owner acc;
                    amount := account_amount acc ||? 0;
                    percentage :=
                      if JS.gt totalAmount 0
                      then ((account_amount acc ||? 0) / totalAmount) * 100
                      else 0 |}) <$> accounts in
            (holders,
             {| apiKey := apiKey self;
                holderCounts := holderCounts self;
                topHolders :=
                  <[cacheKey := {| data := holders;
                                   timestamp := Date_now n |}]>
                    (topHolders self) |},
             S n)
        end
    end.

(** [getTopHolderConcentration(mint, topN = 10)] *)
Definition getTopHolderConcentration (mint : string) (topN : option Z)
    (resp : response) (self : t) (n : nat) : float * t * nat :=
  let topN := default 10%Z topN in
  let '(holders, self, n) := getTopHolders mint (Some topN) resp self n in
  (foldl (λ sum h, sum + percentage h) 0 holders, self, n).

End Provider.

(** An answer of the RPC endpoint with no negative holder total and no
    negative account amount. *)
Definition reply_not_negative (resp : response) : Prop :=
  ∀ result, resp = Ok (Some result) →
    (∀ v, total result = Some v → (v <? 0) = false)
    ∧ ∀ accounts, token_accounts result = Some accounts →
        Forall (λ acc, ∀ v, account_amount acc = Some v → (v <? 0) = false)
               accounts.

(** A cache with no negative holder count and no negative percentage:
    what the provider stores as long as the answers have none. *)
Definition cache_not_negative (self : t) : Prop :=
  (∀ key entry, holderCounts self !! key = Some entry →
                (data entry <? 0) = false)
  ∧ ∀ key entry, topHolders self !! key = Some entry →
                 Forall (λ h, (percentage h <? 0) = false) (data entry).

End Helius.

(* ===================================================================== *)
(** ** GraduationWatcher: the three scans *)
(* ===================================================================== *)

(** The provider as the scans use it: two methods, a call of which can
    resolve to a number, reject, or throw before a promise exists.  The
    scans are written over any such provider; [helius_answers] below
    says that it answers as the methods of [Helius] do. *)
Inductive outcome :=
| Resolves (v : float)
| Rejects
| Throws.

Record HeliusProvider := {
  getTokenHolderCount : string -> outcome;
  getTopHolderConcentration : string -> float -> outcome;
}.

(** The providers a run reaches while the RPC endpoint answers no
    negative number: the provider at its start, and what a call of
    [getTokenHolderCount] or of [getTopHolders] leaves. *)
Inductive reached : Helius.t → Prop :=
| reached_start apiKey : reached (Helius.start apiKey)
| reached_count Date_now mint resp self n :
    reached self → Helius.reply_not_negative resp →
    reached (Helius.getTokenHolderCount Date_now mint resp self n).1.2
| reached_holders Date_now mint limit resp self n :
    reached self → Helius.reply_not_negative resp →
    reached (Helius.getTopHolders Date_now mint limit resp self n).1.2.

(** The provider of a scan answers as the methods of [HeliusProvider]
    do while the RPC endpoint answers no negative number: each answer
    is what the method returns in a provider so reached, the clock and
    the answer of the endpoint being any. *)
Definition helius_answers (helius : HeliusProvider) : Prop :=
  ∀ mint,
    (∃ Date_now resp self n,
        reached self ∧ Helius.reply_not_negative resp
        ∧ getTokenHolderCount helius mint
          = Resolves (Helius.getTokenHolderCount Date_now mint resp self n).1.1)
    ∧ (∃ Date_now resp self n,
        reached self ∧ Helius.reply_not_negative resp
        ∧ getTopHolderConcentration helius mint 10
          = Resolves
              (Helius.getTopHolderConcentration Date_now mint (Some 10%Z)
                 resp self n).1.1).

Section Scans.

Local Open Scope float_scope.

Variable helius : HeliusProvider.

(** [Date_now n] is what the [n]-th evaluation of [Date.now()] in the
    watcher (the age tests, [pairToMetrics] and [applyFilter]) returns;
    the scans thread the number of evaluations made so far.  The
    readings of the provider's cache are counted apart. *)
Variable Date_now : nat -> float.

(** The enrichment block shared by the three scans:
    [try { const [h, c] = await Promise.all([getTokenHolderCount(mint)
    .catch(() => 0), getTopHolderConcentration(mint, 10).catch(() =>
    0)]); holders = h || dh; concentration = c || dc } catch { holders =
    dh; concentration = dc }], with the defaults [dh] and [dc] of the
    scan. *)
Definition caught (o : outcome) : option float :=
  match o with
  | Resolves v => Some v
  | Rejects => Some 0
  | Throws => None
  end.

Definition enrich (dh dc : float) (pair : DexScreenerPair)
    (metrics : TokenMetrics) : TokenMetrics :=
  match caught (getTokenHolderCount helius (baseToken_address pair)),
        caught (getTopHolderConcentration helius (baseToken_address pair) 10)
  with
  | Some holderCount, Some topHolderConcentration =>
      set_holders (Some holderCount ||? dh)
                  (Some topHolderConcentration ||? dc) metrics
  | _, _ => set_holders dh dc metrics
  end.

Definition mkGraduation (pair : DexScreenerPair) : PumpFunGraduation :=
  {| grad_mint := baseToken_address pair;
     grad_symbol := baseToken_symbol pair;
     grad_name := baseToken_name pair;
     graduatedAt := JS.to_number (pairCreatedAt pair);
     bondingCurveAddress := "";
     raydiumPairAddress := pairAddress pair;
     initialLiquidity := liquidity_usd pair ||? 0;
     initialMarketCap := marketCap pair ||? 0;
     creatorAddress := "";
     imageUrl := info_imageUrl pair |}.

(** The loop of [scanForGraduations] over the pairs the provider gave;
    [t] counts the clock readings made so far. *)
Fixpoint scanForGraduations_loop (filter : GraduationFilter)
    (pairs : list DexScreenerPair) (t : nat) : list GraduationCandidate :=
  match pairs with
  | [] => []
  | pair :: rest =>
      let metrics := pairToMetrics (Date_now t) pair in
      let metrics := enrich 100 25 pair metrics in
      let r := applyFilter (Date_now (S t)) pair metrics filter in
      let graduation := mkGraduation pair in
      let score := calculateScore pair metrics in
      {| graduation := graduation; pair := pair; metrics := metrics;
         score := score; passesFilter := passes r;
         filterFailures := failures r |}
      :: scanForGraduations_loop filter rest (S (S t))
  end.

(** [scanForGraduations(filter)]; [pairs] is the result of
    [getLatestPumpFunGraduations(100)], [seenMints] the watcher's set.
    Returns the sorted candidates and the new [seenMints]. *)
Definition scanForGraduations (filter : GraduationFilter)
    (pairs : list DexScreenerPair) (t : nat) (seenMints : gset string)
  : list GraduationCandidate * gset string :=
  let candidates := scanForGraduations_loop filter pairs t in
  (sort (fun a b => score b - score a) candidates,
   seenMints ∪ list_to_set (baseToken_address <$> pairs)).

(** The loop of [scanFreshGraduations]. *)
Fixpoint scanFreshGraduations_loop (filter : GraduationFilter)
    (pairs : list DexScreenerPair) (t : nat) : list GraduationCandidate :=
  match pairs with
  | [] => []
  | pair :: rest =>
      let ageMinutes :=
        (Date_now t - (pairCreatedAt pair ||? 0)) / (1000 * 60) in
      if JS.gt ageMinutes (maxAgeMinutes filter)
      then scanFreshGraduations_loop filter rest (S t)
      else
        let metrics := pairToMetrics (Date_now (S t)) pair in
        let metrics := enrich 100 25 pair metrics in
        let r := applyFilter (Date_now (S (S t))) pair metrics filter in
        let graduation := mkGraduation pair in
        let score := calculateScore pair metrics in
        if passes r
        then {| graduation := graduation; pair := pair; metrics := metrics;
                score := score; passesFilter := true;
                filterFailures := [] |}
             :: scanFreshGraduations_loop filter rest (S (S (S t)))
        else scanFreshGraduations_loop filter rest (S (S (S t)))
  end.

Definition byCreationTime (a b : GraduationCandidate) : float :=
  (pairCreatedAt (pair b) ||? 0) - (pairCreatedAt (pair a) ||? 0).

(** [scanFreshGraduations(filter)]; [pairs] is the result of
    [getLatestSolanaPairs(50)]. *)
Definition scanFreshGraduations (filter : GraduationFilter)
    (pairs : list DexScreenerPair) (t : nat) : list GraduationCandidate :=
  sort byCreationTime (scanFreshGraduations_loop filter pairs t).

(** The hard-reject condition of the unfiltered scan. *)
Definition isAbsoluteScam (pair : DexScreenerPair) (metrics : TokenMetrics)
  : bool :=
  let mcap := marketCap pair ||? 0 in
  let liq := liquidity_usd pair ||? 0 in
  let liqRatio := if JS.gt mcap 0 then (liq / mcap) * 100 else 0 in
  (JS.gt liqRatio 0 && (liqRatio <? 3))
  || JS.gt (topHolderConcentration metrics) 80.

(** The loop of [scanAllGraduations]. *)
Fixpoint scanAllGraduations_loop (maxAgeMinutes : float)
    (pairs : list DexScreenerPair) (t : nat) : list GraduationCandidate :=
  match pairs with
  | [] => []
  | pair :: rest =>
      let ageMinutes :=
        (Date_now t - (pairCreatedAt pair ||? 0)) / (1000 * 60) in
      if JS.gt ageMinutes maxAgeMinutes
      then scanAllGraduations_loop maxAgeMinutes rest (S t)
      else
        let metrics := pairToMetrics (Date_now (S t)) pair in
        let metrics := enrich 0 0 pair metrics in
        let warnings := generateWarnings pair metrics in
        let graduation := mkGraduation pair in
        let score := calculateScore pair metrics in
        {| graduation := graduation; pair := pair; metrics := metrics;
           score := score;
           passesFilter := negb (isAbsoluteScam pair metrics);
           filterFailures := warnings |}
        :: scanAllGraduations_loop maxAgeMinutes rest (S (S t))
  end.

(** The number of clock readings made when the loop of
    [scanAllGraduations], started after [t] readings, is through
    [pairs]: one for a pair beyond the age window, a second one (in
    [pairToMetrics]) for a pair it keeps. *)
Fixpoint scanAllGraduations_readings (maxAgeMinutes : float)
    (pairs : list DexScreenerPair) (t : nat) : nat :=
  match pairs with
  | [] => t
  | pair :: rest =>
      let ageMinutes :=
        (Date_now t - (pairCreatedAt pair ||? 0)) / (1000 * 60) in
      if JS.gt ageMinutes maxAgeMinutes
      then scanAllGraduations_readings maxAgeMinutes rest (S t)
      else scanAllGraduations_readings maxAgeMinutes rest (S (S t))
  end.

(** [scanAllGraduations(maxAgeMinutes = 120)]; [pairs] is the result of
    [getLatestSolanaPairs(50)]. *)
Definition scanAllGraduations (maxAgeMinutes : option float)
    (pairs : list DexScreenerPair) (t : nat) : list GraduationCandidate :=
  let maxAgeMinutes := default 120 maxAgeMinutes in
  sort byCreationTime (scanAllGraduations_loop maxAgeMinutes pairs t).

End Scans.

(* ===================================================================== *)
(** ** DexScreenerProvider: the latest-pairs fetch and its cache *)
(* ===================================================================== *)

Module DexScreenerProvider.

Local Open Scope float_scope.

Record CacheEntry := {
  data : list DexScreenerPair;
  timestamp : float;
}.

(** [private cache: Map<string, { data; timestamp }>] and
    [private cacheTTL = 30_000]. *)
Record t := {
  cache : gmap string CacheEntry;
}.

Definition cacheTTL : float := 30000.

Definition empty : t := {| cache := ∅ |}.

(** What [fetch] followed by [response.json()] can give. *)
Inductive response :=
| FetchThrows
| NotOk
| Ok (pairs : option (list DexScreenerPair)).   (* data.pairs *)

(** [arr.slice(0, end)] for an integer [end]: a negative [end] counts
    from the end of the array. *)
Definition slice0 {A} (arr : list A) (e : Z) : list A :=
  let len := Z.of_nat (length arr) in
  let final := if (e <? 0)%Z then Z.max (len + e) 0 else Z.min e len in
  take (Z.to_nat final) arr.

(** The filter callback with its [seenMints] set: Raydium pairs on
    Solana, first occurrence of every base token. *)
Fixpoint raydiumFilter (seenMints : gset string)
    (pairs : list DexScreenerPair) : list DexScreenerPair :=
  match pairs with
  | [] => []
  | pair :: rest =>
      if negb (String.eqb (dexId pair) "raydium")
         || negb (String.eqb (chainId pair) "solana")
      then raydiumFilter seenMints rest
      else if bool_decide (baseToken_address pair ∈ seenMints)
      then raydiumFilter seenMints rest
      else pair :: raydiumFilter ({[baseToken_address pair]} ∪ seenMints) rest
  end.

(** An entry of the token-boosts and of the token-profiles listings. *)
Record TokenRef := {
  token_chainId : string;
  tokenAddress : string;
}.

(** What fetching one of these listings can give. *)
Inductive listing :=
| ListingThrows
| ListingNotOk
| ListingOk (data : option (list TokenRef)).     (* boostsData || [] *)

(** [for (let i = 0; i < arr.length; i += 10) { arr.slice(i, i + 10) }]:
    the batches of ten; [fuel] bounds their number. *)
Fixpoint batches (fuel : nat) (arr : list string) : list (list string) :=
  match fuel, arr with
  | S fuel, _ :: _ => take 10 arr :: batches fuel (drop 10 arr)
  | _, _ => []
  end.

(** The loop over the batches of the boosts path: a fetch that throws
    ends the whole call ([None]). *)
Fixpoint fetchBatches (fetchPairs : list string → response)
    (bs : list (list string)) (allPairs : list DexScreenerPair)
  : option (list DexScreenerPair) :=
  match bs with
  | [] => Some allPairs
  | batch :: rest =>
      match fetchPairs batch with
      | FetchThrows => None
      | NotOk => fetchBatches fetchPairs rest allPairs
      | Ok pairs =>
          fetchBatches fetchPairs rest (allPairs ++ default [] pairs)
      end
  end.

(** The loop over the batches of the profiles path: a failed batch is
    skipped. *)
Fixpoint fetchBatchesSkipping (fetchPairs : list string → response)
    (bs : list (list string)) (allPairs : list DexScreenerPair)
  : list DexScreenerPair :=
  match bs with
  | [] => allPairs
  | batch :: rest =>
      match fetchPairs batch with
      | Ok pairs =>
          fetchBatchesSkipping fetchPairs rest (allPairs ++ default [] pairs)
      | _ => fetchBatchesSkipping fetchPairs rest allPairs
      end
  end.

Definition solanaAddresses (data : option (list TokenRef)) (e : Z)
  : list string :=
  tokenAddress
    <$> slice0 (filter (λ t, token_chainId t = "solana") (default [] data)) e.

Definition newestFirst (a b : DexScreenerPair) : float :=
  (pairCreatedAt b ||? 0) - (pairCreatedAt a ||? 0).

(** [`pumpfun-graduations-${limit}`] *)
Definition graduationsCacheKey (limit : Z) : string :=
  "pumpfun-graduations-" +:+ pretty limit.

(** The [try] block of [getLatestPumpFunGraduations], run when the cache
    has no fresh entry.  [boosts] and [profiles] are what the two
    listings answer, [fetchPairs] what the pairs endpoint answers for a
    batch of addresses; a throw outside the inner [try] returns []. *)
Definition fetchGraduations (Date_now : nat → float) (limit : Z)
    (boosts profiles : listing) (fetchPairs : list string → response)
    (self : t) (n : nat) : list DexScreenerPair * t * nat :=
  let afterBoosts :=
    match boosts with
    | ListingThrows => None
    | ListingNotOk => Some []
    | ListingOk boostsData =>
        let solanaTokens := solanaAddresses boostsData (Z.min limit 20) in
        fetchBatches fetchPairs
          (batches (length solanaTokens) solanaTokens) []
    end in
  match afterBoosts with
  | None => ([], self, n)
  | Some allPairs =>
      (* Also try the latest profiles endpoint as backup *)
      let afterProfiles :=
        if (Z.of_nat (length allPairs) <? limit)%Z
        then
          match profiles with
          | ListingThrows => None
          | ListingNotOk => Some allPairs
          | ListingOk profilesData =>
              let profileAddresses :=
                solanaAddresses profilesData
                  (limit - Z.of_nat (length allPairs)) in
              Some (fetchBatchesSkipping fetchPairs
                      (batches (length profileAddresses) profileAddresses)
                      allPairs)
          end
        else Some allPairs in
      match afterProfiles with
      | None => ([], self, n)
      | Some allPairs =>
          let raydiumPairs := raydiumFilter ∅ allPairs in
          let raydiumPairs := sort newestFirst raydiumPairs in
          (slice0 raydiumPairs limit,
           {| cache := <[graduationsCacheKey limit :=
                           {| data := slice0 raydiumPairs limit;
                              timestamp := Date_now n |}]>
                         (cache self) |},
           S n)
      end
  end.

(** [getLatestPumpFunGraduations(limit = 50)]; [Date_now] and [n] are the
    clock and the number of readings made so far.  Returns the pairs, the
    provider and the number of clock readings. *)
Definition getLatestPumpFunGraduations (Date_now : nat → float)
    (limit : option Z) (boosts profiles : listing)
    (fetchPairs : list string → response) (self : t) (n : nat)
  : list DexScreenerPair * t * nat :=
  let limit := default 50%Z limit in
  let cacheKey := graduationsCacheKey limit in
  match cache self !! cacheKey with
  | Some cached =>
      if Date_now n - timestamp cached <? cacheTTL
      then (data cached, self, S n)
      else fetchGraduations Date_now limit boosts profiles fetchPairs
             self (S n)
  | None => fetchGraduations Date_now limit boosts profiles fetchPairs self n
  end.

Definition latestCacheKey : string := "latest-solana-pairs".

(** The [try] block of [getLatestSolanaPairs], run when the cache has no
    fresh entry; [resp] is what the upstream answers. *)
Definition fetchLatest (Date_now : nat → float) (limit : Z)
    (resp : response) (self : t) (n : nat)
  : list DexScreenerPair * t * nat :=
  match resp with
  | FetchThrows => ([], self, n)
  | NotOk => ([], self, n)
  | Ok pairs =>
      let pairs := default [] pairs in
      let raydiumPairs := raydiumFilter ∅ pairs in
      let result := slice0 raydiumPairs limit in
      (result,
       {| cache := <[latestCacheKey := {| data := result;
                                          timestamp := Date_now n |}]>
                     (cache self) |},
       S n)
  end.

(** [getLatestSolanaPairs(limit = 50)]; [Date_now] and [n] are the clock
    and the number of readings made so far.  Returns the pairs, the
    provider and the number of clock readings. *)
Definition getLatestSolanaPairs (Date_now : nat → float)
    (limit : option Z) (resp : response) (self : t) (n : nat)
  : list DexScreenerPair * t * nat :=
  let limit := default 50%Z limit in
  let cacheKey := latestCacheKey in
  match cache self !! cacheKey with
  | Some cached =>
      if Date_now n - timestamp cached <? cacheTTL
      then (data cached, self, S n)
      else fetchLatest Date_now limit resp self (S n)
  | None => fetchLatest Date_now limit resp self n
  end.

End DexScreenerProvider.

(* ===================================================================== *)
(** ** What the two autopost services share *)
(* ===================================================================== *)

(** A [Date] is its time value, the milliseconds since the epoch. *)
Module Calendar.

Definition getUTCHours (d : Z) : Z := ((d / 3600000) mod 24)%Z.

(** [d.toDateString()] names the calendar day of [d] in the local time
    zone; two dates give the same string exactly when they fall on the
    same local day.  The string is modelled by the number of that day,
    [tz] being the offset of the local zone from UTC in milliseconds. *)
Definition toDateString (tz : Z) (d : Z) : Z := ((d + tz) / 86400000)%Z.

End Calendar.

(** Modelled from the spec: [Policy] is declared in types.ts, not among
    the sources; these are the fields that the services read. *)
Record Policy := {
  autopostEnabled : bool;
  maxCallsPerDay : float;
  quietHoursStart : option float;
  quietHoursEnd : option float;
  minConfidenceScore : float;        (* policy.thresholds.minConfidenceScore *)
}.

(** Modelled from the spec: [generateCallCard] (call-card.ts) is not among
    the sources.  A call log records the identity of the dispatched
    candidate; the Telegram service and the Supabase storage read it back
    as [callCard.token.mint], the mint of the metrics the card was
    generated from. *)
Record CallCard := {
  token_mint : string;
}.

Definition generateCallCard (metrics : TokenMetrics) (policy : Policy)
  : CallCard :=
  {| token_mint := mint metrics |}.

(** One call of [sendDiscordMessage] or [sendTelegramMessage]. *)
Record Dispatch := {
  recipient : string;                (* channelId or chatId *)
  dispatched : GraduationCandidate;
  delivered : bool;
}.

Record AutopostConfig := {
  enabled : bool;
  intervalMs : float;
  minScore : float;
}.

Definition DEFAULT_AUTOPOST_CONFIG : AutopostConfig :=
  {| enabled := false; intervalMs := 60000; minScore := 6.5 |}.

(** [hour >= start && hour < end], or its wrap-around form. *)
Definition inQuietHours (start stop hour : float) : bool :=
  if (start <? stop)%float
  then JS.ge hour start && (hour <? stop)%float
  else JS.ge hour start || (hour <? stop)%float.

(** A state monad for the services: [M W A] is a computation over the
    world [W]. *)
Definition M (W A : Type) : Type := W -> A * W.

#[global] Instance M_ret {W} : MRet (M W) := λ A a w, (a, w).
#[global] Instance M_bind {W} : MBind (M W) :=
  λ A B f m w, let '(a, w') := m w in f a w'.
#[global] Instance M_fmap {W} : FMap (M W) :=
  λ A B f m w, let '(a, w') := m w in (f a, w').

(* ===================================================================== *)
(** ** AutopostService (Discord) *)
(* ===================================================================== *)

Module Discord.

Record GuildConfig := {
  guildId : string;
  guildName : string;
  channelId : option string;
  policy : Policy;
}.

Record CallLog := {
  id : Z * string;                   (* `auto-${Date.now()}-${mint}` *)
  log_guildId : string;
  log_channelId : string;
  callCard : CallCard;
  triggeredBy : string;
  createdAt : Z;
}.

(** Modelled from the spec: the storage behind [getStorage()] (storage.ts)
    is not among the sources.  It is a key-value and log store:
    [getAllGuilds] lists the configurations, [getCallLogs(guildId)] gives
    the call log of a guild, [addCallLog] appends to it. *)
Record World := {
  guilds : list GuildConfig;
  callLogs : gmap string (list CallLog);
  clock : nat;                       (* readings of the clock so far *)
  outbox : list Dispatch;            (* every send, oldest first *)
}.

Section Service.

(** The instance's configuration, the clock, the local time zone and
    what the Discord API answers to a send. *)
Variable config : AutopostConfig.
Variable Date_at : nat -> Z.
Variable tz : Z.
Variable deliver : string -> GraduationCandidate -> bool.

(** [new Date()] and [Date.now()]. *)
Definition newDate : M World Z :=
  λ w, (Date_at (clock w),
        {| guilds := guilds w; callLogs := callLogs w;
           clock := S (clock w); outbox := outbox w |}).

Definition getAllGuilds : M World (list GuildConfig) :=
  λ w, (guilds w, w).

Definition getCallLogs (guildId : string) : M World (list CallLog) :=
  λ w, (default [] (callLogs w !! guildId), w).

Definition addCallLog (guildId : string) (log : CallLog) : M World unit :=
  λ w, (tt,
        {| guilds := guilds w;
           callLogs := <[guildId := default [] (callLogs w !! guildId) ++ [log]]>
                         (callLogs w);
           clock := clock w; outbox := outbox w |}).

Definition sendDiscordMessage (channelId : string)
    (candidate : GraduationCandidate) : M World bool :=
  λ w, let success := deliver channelId candidate in
       (success,
        {| guilds := guilds w; callLogs := callLogs w; clock := clock w;
           outbox := outbox w ++ [{| recipient := channelId;
                                     dispatched := candidate;
                                     delivered := success |}] |}).

Definition isQuietHours (guild : GuildConfig) : M World bool :=
  match quietHoursStart (policy guild), quietHoursEnd (policy guild) with
  | Some start, Some stop =>
      now ← newDate;
      let hour := JS.of_Z (Calendar.getUTCHours now) in
      mret (inQuietHours start stop hour)
  | _, _ => mret false
  end.

(** [for (const candidate of highPotential) { ... }] for one guild;
    [sent] is the running counter. *)
Fixpoint sendCalls (guild : GuildConfig) (channelId : string)
    (highPotential : list GraduationCandidate) (sent : nat) : M World nat :=
  match highPotential with
  | [] => mret sent
  | candidate :: rest =>
      success ← sendDiscordMessage channelId candidate;
      if success : bool
      then
        let callCard :=
          generateCallCard (metrics candidate) (policy guild) in
        now ← newDate;
        created ← newDate;
        addCallLog (guildId guild)
          {| id := (now, grad_mint (graduation candidate));
             log_guildId := guildId guild;
             log_channelId := channelId;
             callCard := callCard;
             triggeredBy := "auto";
             createdAt := created |};;
        sendCalls guild channelId rest (S sent)
      else sendCalls guild channelId rest sent
  end.

(** The body of [for (const guild of guilds) { ... }]. *)
Definition notifyGuild (highPotential : list GraduationCandidate)
    (guild : GuildConfig) (sent : nat) : M World nat :=
  if negb (autopostEnabled (policy guild)) then mret sent
  else
    match channelId guild with
    | None => mret sent
    | Some channel =>
        if String.eqb channel "" then mret sent
        else
          (* Check quiet hours *)
          quiet ← isQuietHours guild;
          if quiet : bool then mret sent
          else
            (* Check daily limit *)
            today ← Calendar.toDateString tz <$> newDate;
            allLogs ← getCallLogs (guildId guild);
            let callsToday :=
              length (filter (λ log,
                        Calendar.toDateString tz (createdAt log) = today)
                        allLogs) in
            if JS.ge (JS.of_nat callsToday) (maxCallsPerDay (policy guild))
            then mret sent
            else if Nat.eqb (length highPotential) 0 then mret sent
            else sendCalls guild channel highPotential sent
    end.

Fixpoint notifyGuilds (highPotential : list GraduationCandidate)
    (guilds : list GuildConfig) (sent : nat) : M World nat :=
  match guilds with
  | [] => mret sent
  | guild :: rest =>
      sent ← notifyGuild highPotential guild sent;
      notifyGuilds highPotential rest sent
  end.

(** [scanAndNotify()]; [candidates] is what
    [this.watcher.scanForGraduations(DEFAULT_GRADUATION_FILTER)] returned.
    The result is [{ sent, candidates: highPotential.length }]. *)
Definition scanAndNotify (candidates : list GraduationCandidate)
  : M World (nat * nat) :=
  _ ← newDate;                        (* scanStart *)
  guilds ← getAllGuilds;
  (* Filter to high-potential candidates *)
  let highPotential :=
    filter (λ c, passesFilter c && JS.ge (score c) (minScore config))
           candidates in
  sent ← notifyGuilds highPotential guilds 0;
  mret (sent, length highPotential).

End Service.

End Discord.

(* ===================================================================== *)
(** ** TelegramAutopostService and InMemoryTelegramStorage *)
(* ===================================================================== *)

Module Telegram.

Record DisplaySettings := {
  display_minScore : float;
}.

Record TelegramChatConfig := {
  chatId : string;
  chatTitle : string;
  policy : Policy;
  display : option DisplaySettings;
  callCount : float;
  lastCallAt : option Z;
  updatedAt : Z;
}.

Record TelegramCallLog := {
  id : Z * string;      (* `tg-auto-${Date.now()}-${mint.slice(0, 8)}` *)
  log_chatId : string;
  callCard : CallCard;
  triggeredBy : string;
  messageId : option float;
  createdAt : Z;
}.

(** The answer of [sendTelegramMessage]. *)
Record SendResult := {
  ok : bool;
  result_messageId : option float;
}.

(** The world of the service: the two maps of InMemoryTelegramStorage
    ([chats] in insertion order, as [Array.from(map.values())] lists
    them), the service's [seenTokens] set in insertion order, the clock
    and the sends. *)
Record World := {
  chats : list (string * TelegramChatConfig);
  callLogs : gmap string (list TelegramCallLog);
  seenTokens : list string;
  clock : nat;
  outbox : list Dispatch;
}.

Definition with_chats (f : list (string * TelegramChatConfig) ->
                           list (string * TelegramChatConfig))
    (w : World) : World :=
  {| chats := f (chats w); callLogs := callLogs w;
     seenTokens := seenTokens w; clock := clock w; outbox := outbox w |}.

Definition with_callLogs (f : gmap string (list TelegramCallLog) ->
                              gmap string (list TelegramCallLog))
    (w : World) : World :=
  {| chats := chats w; callLogs := f (callLogs w);
     seenTokens := seenTokens w; clock := clock w; outbox := outbox w |}.

Definition with_seenTokens (f : list string -> list string) (w : World)
  : World :=
  {| chats := chats w; callLogs := callLogs w;
     seenTokens := f (seenTokens w); clock := clock w; outbox := outbox w |}.

Definition with_clock (f : nat -> nat) (w : World) : World :=
  {| chats := chats w; callLogs := callLogs w;
     seenTokens := seenTokens w; clock := f (clock w); outbox := outbox w |}.

Definition with_outbox (f : list Dispatch -> list Dispatch) (w : World)
  : World :=
  {| chats := chats w; callLogs := callLogs w;
     seenTokens := seenTokens w; clock := clock w; outbox := f (outbox w) |}.

(** [map.set(key, value)] on a map kept in insertion order. *)
Fixpoint map_set {V} (key : string) (value : V) (m : list (string * V))
  : list (string * V) :=
  match m with
  | [] => [(key, value)]
  | (k, v) :: rest =>
      if String.eqb k key then (k, value) :: rest
      else (k, v) :: map_set key value rest
  end.

(** [set.add(x)] on a set kept in insertion order. *)
Definition set_add (x : string) (s : list string) : list string :=
  if bool_decide (x ∈ s) then s else s ++ [x].

(** The eviction loop: the iterator visits the [toRemove] oldest entries
    and deletes each of them unless it is the empty string ([if (val)]). *)
Definition evict (toRemove : nat) (s : list string) : list string :=
  filter (λ val, val = "") (take toRemove s) ++ drop toRemove s.

Section Service.

Variable config : AutopostConfig.
Variable Date_at : nat -> Z.
Variable tz : Z.
Variable deliver : string -> GraduationCandidate -> SendResult.

Definition newDate : M World Z :=
  λ w, (Date_at (clock w), with_clock S w).

(** InMemoryTelegramStorage *)

Definition chats_set (key : string) (value : TelegramChatConfig)
  : M World unit :=
  λ w, (tt, with_chats (map_set key value) w).

Definition saveChatConfig (config : TelegramChatConfig) : M World unit :=
  now ← newDate;
  chats_set (chatId config)
    {| chatId := chatId config; chatTitle := chatTitle config;
       policy := policy config; display := display config;
       callCount := callCount config; lastCallAt := lastCallAt config;
       updatedAt := now |}.

Definition addCallLog (chatId : string) (log : TelegramCallLog)
  : M World unit :=
  λ w, let logs := default [] (callLogs w !! chatId) in
       let logs := log :: logs in                        (* unshift *)
       let logs := if Nat.ltb 100 (length logs)
                   then removelast logs else logs in     (* pop *)
       (tt, with_callLogs <[chatId := logs]> w).

Definition getCallLogs (chatId : string) (limit : option nat)
  : M World (list TelegramCallLog) :=
  λ w, let logs := default [] (callLogs w !! chatId) in
       (take (default 20%nat limit) logs, w).

Definition getActiveChats : M World (list TelegramChatConfig) :=
  λ w, (filter (λ c, autopostEnabled (policy c) = true) (snd <$> chats w), w).

(** TelegramAutopostService *)

Definition sendTelegramMessage (chatId : string)
    (candidate : GraduationCandidate) : M World SendResult :=
  λ w, let result := deliver chatId candidate in
       (result,
        with_outbox (λ o, o ++ [{| recipient := chatId;
                                   dispatched := candidate;
                                   delivered := ok result |}]) w).

Definition isQuietHours (chat : TelegramChatConfig) : M World bool :=
  match quietHoursStart (policy chat), quietHoursEnd (policy chat) with
  | Some start, Some stop =>
      now ← newDate;
      let hour := JS.of_Z (Calendar.getUTCHours now) in
      mret (inQuietHours start stop hour)
  | _, _ => mret false
  end.

Definition getSeenTokens : M World (list string) :=
  λ w, (seenTokens w, w).

(** Marking the new high-potential tokens as seen, then limiting the
    seen-tokens cache to 500 entries. *)
Definition markSeen (highPotential : list GraduationCandidate)
  : M World unit :=
  λ w,
    if Nat.ltb 0 (length highPotential)
    then
      let seen :=
        foldl (λ s c, set_add (grad_mint (graduation c)) s)
              (seenTokens w) highPotential in
      let seen :=
        if Nat.ltb 500 (length seen)
        then evict (length seen - 500) seen
        else seen in
      (tt, with_seenTokens (λ _, seen) w)
    else (tt, w).

(** [for (const candidate of chatCandidates) { ... }] for one chat;
    [logs] was read before the loop, [chat] is the object the loop
    mutates, [sent] the running counter. *)
Fixpoint sendCalls (logs : list TelegramCallLog) (chat : TelegramChatConfig)
    (chatCandidates : list GraduationCandidate) (sent : nat) : M World nat :=
  match chatCandidates with
  | [] => mret sent
  | candidate :: rest =>
      (* Check if already posted to this chat *)
      let alreadyPosted :=
        existsb (λ log, String.eqb (token_mint (callCard log))
                                   (grad_mint (graduation candidate)))
                logs in
      if alreadyPosted then sendCalls logs chat rest sent
      else
        result ← sendTelegramMessage (chatId chat) candidate;
        if ok result
        then
          let callCard :=
            generateCallCard (metrics candidate) (policy chat) in
          now ← newDate;
          created ← newDate;
          addCallLog (chatId chat)
            {| id := (now, String.substring 0 8
                             (grad_mint (graduation candidate)));
               log_chatId := chatId chat;
               callCard := callCard;
               triggeredBy := "auto";
               messageId := result_messageId result;
               createdAt := created |};;
          (* Update chat call count *)
          lastCall ← newDate;
          let chat :=
            {| chatId := chatId chat; chatTitle := chatTitle chat;
               policy := policy chat; display := display chat;
               callCount := (callCount chat + 1)%float;
               lastCallAt := Some lastCall;
               updatedAt := updatedAt chat |} in
          saveChatConfig chat;;
          sendCalls logs chat rest (S sent)
        else sendCalls logs chat rest sent
  end.

(** The body of [for (const chat of chats) { ... }]. *)
Definition notifyChat (highPotential : list GraduationCandidate)
    (chat : TelegramChatConfig) (sent : nat) : M World nat :=
  (* Check quiet hours *)
  quiet ← isQuietHours chat;
  if quiet : bool then mret sent
  else
    (* Check daily limit *)
    today ← Calendar.toDateString tz <$> newDate;
    logs ← getCallLogs (chatId chat) (Some 100%nat);
    let callsToday :=
      length (filter (λ log,
                Calendar.toDateString tz (createdAt log) = today) logs) in
    if JS.ge (JS.of_nat callsToday) (maxCallsPerDay (policy chat))
    then mret sent
    else if Nat.eqb (length highPotential) 0 then mret sent
    else
      (* Get chat-specific min score *)
      let chatMinScore :=
        (display_minScore <$> display chat)
          ||? minConfidenceScore (policy chat) in
      let chatCandidates :=
        filter (λ c, JS.ge (score c) chatMinScore = true) highPotential in
      sendCalls logs chat chatCandidates sent.

Fixpoint notifyChats (highPotential : list GraduationCandidate)
    (chats : list TelegramChatConfig) (sent : nat) : M World nat :=
  match chats with
  | [] => mret sent
  | chat :: rest =>
      sent ← notifyChat highPotential chat sent;
      notifyChats highPotential rest sent
  end.

(** [scanAndNotify()]; [candidates] is what
    [this.watcher.scanForGraduations(DEFAULT_GRADUATION_FILTER)] returns.
    The result is [{ sent, candidates: highPotential.length }]. *)
Definition scanAndNotify (candidates : list GraduationCandidate)
  : M World (nat * nat) :=
  _ ← newDate;                        (* scanStart *)
  chats ← getActiveChats;
  if Nat.eqb (length chats) 0 then mret (0, 0)%nat
  else
    seen ← getSeenTokens;
    (* Filter to high-potential, unseen candidates *)
    let highPotential :=
      filter (λ c,
        let isNew := negb (bool_decide (grad_mint (graduation c) ∈ seen)) in
        let passesScore :=
          passesFilter c && JS.ge (score c) (minScore config) in
        isNew && passesScore = true) candidates in
    markSeen highPotential;;
    sent ← notifyChats highPotential chats 0;
    mret (sent, length highPotential).

End Service.

End Telegram.

(* ===================================================================== *)
(** ** Definitions used by the statements and proofs below *)
(* ===================================================================== *)

Section Reachable.

Local Open Scope float_scope.

(** The updates a block of [calculateScore] can make to the running
    score, one function per branch (the last is the fall-through). *)
Definition branches : Type := list (float -> float).

Definition scoreVolumeMomentum_branches : branches :=
  [λ s, s + 1.5; λ s, s + 1; λ s, s - 1; λ s, s].
Definition scoreLiquidityHealth_branches : branches :=
  [λ s, s + 1; λ s, s + 0.5; λ s, s - 1; λ s, s].
Definition scoreBuySellRatio_branches : branches :=
  [λ s, s + 1; λ s, s + 0.5; λ s, s - 1.5; λ s, s].
Definition scorePriceMomentum_branches : branches :=
  [λ s, s + 1; λ s, s + 0.5; λ s, s - 1; λ s, s].
Definition scoreMarketCapSanity_branches : branches :=
  [λ s, s + 0.5; λ s, s - 0.5; λ s, s].
Definition scoreLiquidityRatio_branches : branches :=
  [λ s, s + 2; λ s, s + 1.5; λ s, s + 0.5; λ s, s - 3; λ s, s - 2; λ s, s].
Definition scoreHolderDistribution_branches : branches :=
  [λ s, s + 1; λ s, s + 0.5; λ s, s - 0.5; λ s, s].
Definition scoreHolderConcentration_branches : branches :=
  [λ s, s + 1; λ s, s + 0.5; λ s, s - 1; λ s, s - 0.5; λ s, s].

Definition apply_branches (bs : branches) (scores : list float)
  : list float :=
  s ← scores; (λ f, f s) <$> bs.

(** Every value the running score can have before the final clamp. *)
Definition reachable_scores : list float :=
  apply_branches scoreHolderConcentration_branches
  (apply_branches scoreHolderDistribution_branches
  (apply_branches scoreLiquidityRatio_branches
  (apply_branches scoreMarketCapSanity_branches
  (apply_branches scorePriceMomentum_branches
  (apply_branches scoreBuySellRatio_branches
  (apply_branches scoreLiquidityHealth_branches
  (apply_branches scoreVolumeMomentum_branches [5]))))))).

Definition in_0_10 (s : float) : bool := (0 <=? s) && (s <=? 10).

End Reachable.

(** A pair with the given [liquidity.usd] and [marketCap], every other
    field as in [pair]. *)
Definition with_liquidity_marketCap (liq mcap : option float)
    (pair : DexScreenerPair) : DexScreenerPair :=
  {| chainId := chainId pair; dexId := dexId pair; url := url pair;
     pairAddress := pairAddress pair;
     baseToken_address := baseToken_address pair;
     baseToken_symbol := baseToken_symbol pair;
     baseToken_name := baseToken_name pair;
     liquidity_usd := liq;
     marketCap := mcap;
     volume_m5 := volume_m5 pair; volume_h1 := volume_h1 pair;
     volume_h24 := volume_h24 pair;
     priceChange_m5 := priceChange_m5 pair;
     priceChange_h24 := priceChange_h24 pair;
     txns_m5_buys := txns_m5_buys pair; txns_m5_sells := txns_m5_sells pair;
     pairCreatedAt := pairCreatedAt pair;
     info_imageUrl := info_imageUrl pair;
     info_socials := info_socials pair;
     info_websites := info_websites pair |}.

(** The inputs of the scoring example: every number is zero. *)
Definition zero_pair : DexScreenerPair :=
  {| chainId := "solana"; dexId := "raydium"; url := ""; pairAddress := "";
     baseToken_address := "mint0"; baseToken_symbol := "ZERO";
     baseToken_name := "Zero";
     liquidity_usd := Some 0%float; marketCap := Some 0%float;
     volume_m5 := Some 0%float; volume_h1 := Some 0%float;
     volume_h24 := Some 0%float;
     priceChange_m5 := Some 0%float; priceChange_h24 := Some 0%float;
     txns_m5_buys := Some 0%float; txns_m5_sells := Some 0%float;
     pairCreatedAt := Some 0%float;
     info_imageUrl := None; info_socials := None; info_websites := None |}.

Definition zero_metrics : TokenMetrics := pairToMetrics 0 zero_pair.

(** The messages of the holder-count rule and of the liquidity-ratio rule
    of [applyFilter]. *)
Definition is_holders_failure (m : message) : bool :=
  match m with
  | HoldersBelow _ _ => true
  | _ => false
  end.

Definition is_liq_ratio_failure (m : message) : bool :=
  match m with
  | LiqMCapBelow _ _ => true
  | _ => false
  end.

(** Example inputs: a clock that stands still during the scan, a Helius
    provider that knows one token, and two pairs created ten minutes
    before. *)
Definition example_clock (n : nat) : float := 1700000000000%float.

Definition example_helius : HeliusProvider :=
  {| getTokenHolderCount := λ mint,
       if String.eqb mint "HealthyMint" then Resolves 180 else Rejects;
     getTopHolderConcentration := λ mint topN,
       if String.eqb mint "HealthyMint" then Resolves 30 else Resolves 0 |}.

(** The provider as a scan calls it (with [topN = 10]): a key, nothing
    cached, and the RPC endpoint answering [resp] to every call. *)
Definition helius_of (rpc : string → Helius.response) : HeliusProvider :=
  {| getTokenHolderCount := λ mint,
       Resolves (Helius.getTokenHolderCount example_clock mint (rpc mint)
                   (Helius.start "key") 0).1.1;
     getTopHolderConcentration := λ mint _,
       Resolves (Helius.getTopHolderConcentration example_clock mint
                   (Some 10%Z) (rpc mint) (Helius.start "key") 0).1.1 |}.

(** An endpoint that knows 180 holders of the healthy token and no
    account of it, and 40 holders and two accounts of any other token;
    and one that answers a negative total. *)
Definition example_rpc (mint : string) : Helius.response :=
  if String.eqb mint "HealthyMint"
  then Helius.Ok (Some {| Helius.total := Some 180%float;
                          Helius.token_accounts := None |})
  else Helius.Ok
         (Some {| Helius.total := Some 40%float;
                  Helius.token_accounts :=
                    Some [ {| Helius.account_owner := "Owner1";
                              Helius.account_amount := Some 300%float |};
                           {| Helius.account_owner := "Owner2";
                              Helius.account_amount := Some 100%float |} ] |}).

Definition negative_rpc (mint : string) : Helius.response :=
  Helius.Ok (Some {| Helius.total := Some (-1)%float;
                     Helius.token_accounts := Some [] |}).

(** Graduated at the usual ratio (12000 / 69000 is about 17%), trading,
    with no socials and no website. *)
Definition healthy_pair : DexScreenerPair :=
  {| chainId := "solana"; dexId := "raydium";
     url := "https://dexscreener.com/solana/healthy";
     pairAddress := "HealthyPair";
     baseToken_address := "HealthyMint"; baseToken_symbol := "HLTH";
     baseToken_name := "Healthy";
     liquidity_usd := Some 12000%float; marketCap := Some 69000%float;
     volume_m5 := Some 1500%float; volume_h1 := Some 9000%float;
     volume_h24 := Some 9000%float;
     priceChange_m5 := Some 12%float; priceChange_h24 := Some 40%float;
     txns_m5_buys := Some 40%float; txns_m5_sells := Some 20%float;
     pairCreatedAt := Some 1699999400000%float;
     info_imageUrl := None; info_socials := None; info_websites := None |}.

(** Liquidity drained to 1% of the market cap: a hard reject. *)
Definition drained_pair : DexScreenerPair :=
  {| chainId := "solana"; dexId := "raydium";
     url := "https://dexscreener.com/solana/drained";
     pairAddress := "DrainedPair";
     baseToken_address := "DrainedMint"; baseToken_symbol := "DRN";
     baseToken_name := "Drained";
     liquidity_usd := Some 1000%float; marketCap := Some 100000%float;
     volume_m5 := Some 300%float; volume_h1 := Some 2000%float;
     volume_h24 := Some 2000%float;
     priceChange_m5 := Some (-30)%float; priceChange_h24 := Some (-60)%float;
     txns_m5_buys := Some 3%float; txns_m5_sells := Some 30%float;
     pairCreatedAt := Some 1699999400000%float;
     info_imageUrl := None;
     info_socials := Some ["https://x.com/drained"];
     info_websites := None |}.

Section Candidates.

Local Open Scope float_scope.

Variable helius : HeliusProvider.
Variable Date_now : nat → float.

(** What every candidate of the standard scan looks like. *)
Definition standard_candidate (filter : GraduationFilter)
    (c : GraduationCandidate) : Prop :=
  ∃ n n',
    metrics c = enrich helius 100 25 (pair c)
                  (pairToMetrics (Date_now n) (pair c))
    ∧ passesFilter c
      = passes (applyFilter (Date_now n') (pair c) (metrics c) filter)
    ∧ filterFailures c
      = failures (applyFilter (Date_now n') (pair c) (metrics c) filter)
    ∧ score c = calculateScore (pair c) (metrics c).

(** What every candidate of the fresh scan looks like. *)
Definition fresh_candidate (filter : GraduationFilter)
    (c : GraduationCandidate) : Prop :=
  ∃ n n',
    metrics c = enrich helius 100 25 (pair c)
                  (pairToMetrics (Date_now n) (pair c))
    ∧ passes (applyFilter (Date_now n') (pair c) (metrics c) filter) = true
    ∧ passesFilter c = true
    ∧ filterFailures c = []
    ∧ score c = calculateScore (pair c) (metrics c).

(** What every candidate of the unfiltered scan looks like. *)
Definition unfiltered_candidate (c : GraduationCandidate) : Prop :=
  (∃ n, metrics c = enrich helius 0 0 (pair c)
                      (pairToMetrics (Date_now n) (pair c)))
  ∧ passesFilter c = negb (isAbsoluteScam (pair c) (metrics c))
  ∧ filterFailures c = generateWarnings (pair c) (metrics c)
  ∧ score c = calculateScore (pair c) (metrics c).

(** The enrichment of [mint] failed or returned 0 (or NaN): the value the
    scan sees is falsy. *)
Definition failed_or_zero (o : outcome) : Prop :=
  match o with
  | Resolves v => JS.truthy v = false
  | Rejects | Throws => True
  end.

(** Holder data of a candidate of the standard and fresh scans: the
    defaults where the enrichment failed or gave 0. *)
Definition holder_data_defaulted (c : GraduationCandidate) : Prop :=
  (failed_or_zero (getTokenHolderCount helius (baseToken_address (pair c)))
   → holders (metrics c) = 100)
  ∧ (failed_or_zero
       (getTopHolderConcentration helius (baseToken_address (pair c)) 10)
     → topHolderConcentration (metrics c) = 25).

(** The tests [metrics.holders > 0] of the filter and
    [metrics.topHolderConcentration > 0] of the scorer hold. *)
Definition holder_data_positive (c : GraduationCandidate) : Prop :=
  JS.gt (holders (metrics c)) 0 = true
  ∧ JS.gt (topHolderConcentration (metrics c)) 0 = true.

End Candidates.

(** For every candidate the flag is set exactly when nothing is listed. *)
Definition flag_iff_empty (c : GraduationCandidate) : Prop :=
  passesFilter c = true ↔ filterFailures c = [].

(** A second healthy pair, unknown to the example Helius provider. *)
Definition second_pair : DexScreenerPair :=
  {| chainId := "solana"; dexId := "raydium";
     url := "https://dexscreener.com/solana/second";
     pairAddress := "SecondPair";
     baseToken_address := "SecondMint"; baseToken_symbol := "SCND";
     baseToken_name := "Second";
     liquidity_usd := Some 12000%float; marketCap := Some 69000%float;
     volume_m5 := Some 1500%float; volume_h1 := Some 9000%float;
     volume_h24 := Some 9000%float;
     priceChange_m5 := Some 12%float; priceChange_h24 := Some 40%float;
     txns_m5_buys := Some 40%float; txns_m5_sells := Some 20%float;
     pairCreatedAt := Some 1699999400000%float;
     info_imageUrl := None; info_socials := None; info_websites := None |}.

(** A clock that advances one second per reading, as a number and as a
    time value. *)
Definition ticking_clock (n : nat) : float :=
  (1700000000000 + 1000 * JS.of_nat n)%float.

Definition ticking_dates (n : nat) : Z :=
  (1700000000000 + 1000 * Z.of_nat n)%Z.

(** What a tick of the schedulers scans: the standard scan of one or two
    healthy pairs under the Default policy. *)
Definition one_candidate : list GraduationCandidate :=
  (scanForGraduations example_helius example_clock
     DEFAULT_GRADUATION_FILTER [healthy_pair] 0 ∅).1.

Definition two_candidates : list GraduationCandidate :=
  (scanForGraduations example_helius example_clock
     DEFAULT_GRADUATION_FILTER [healthy_pair; second_pair] 0 ∅).1.

(** What the outbox shows of a send: recipient, mint, delivered. *)
Definition sends (outbox : list Dispatch) : list (string * string * bool) :=
  (λ d, (recipient d, grad_mint (graduation (dispatched d)), delivered d))
    <$> outbox.

Definition example_policy (maxCalls : float) : Policy :=
  {| autopostEnabled := true; maxCallsPerDay := maxCalls;
     quietHoursStart := None; quietHoursEnd := None;
     minConfidenceScore := 6.5 |}.

Module DiscordExample.

Definition guild : Discord.GuildConfig :=
  {| Discord.guildId := "guild-1"; Discord.guildName := "Guild";
     Discord.channelId := Some "chan-1";
     Discord.policy := example_policy 50 |}.

Definition capped_guild : Discord.GuildConfig :=
  {| Discord.guildId := "guild-1"; Discord.guildName := "Guild";
     Discord.channelId := Some "chan-1";
     Discord.policy := example_policy 1 |}.

Definition start (g : Discord.GuildConfig) : Discord.World :=
  {| Discord.guilds := [g]; Discord.callLogs := ∅;
     Discord.clock := 0; Discord.outbox := [] |}.

(** One tick of the service: default configuration, UTC as the local
    zone, every send delivered. *)
Definition tick (candidates : list GraduationCandidate) (w : Discord.World)
  : Discord.World :=
  (Discord.scanAndNotify DEFAULT_AUTOPOST_CONFIG ticking_dates 0
     (λ _ _, true) candidates w).2.

(** The mints in the call log of the guild. *)
Definition logged (w : Discord.World) : list string :=
  (λ log, token_mint (Discord.callCard log))
    <$> default [] (Discord.callLogs w !! "guild-1").

End DiscordExample.

Module TelegramExample.

Definition chat (maxCalls : float) : Telegram.TelegramChatConfig :=
  {| Telegram.chatId := "chat-1"; Telegram.chatTitle := "Chat";
     Telegram.policy := example_policy maxCalls;
     Telegram.display := None; Telegram.callCount := 0;
     Telegram.lastCallAt := None; Telegram.updatedAt := 0 |}.

Definition start (maxCalls : float) : Telegram.World :=
  {| Telegram.chats := [("chat-1", chat maxCalls)];
     Telegram.callLogs := ∅; Telegram.seenTokens := [];
     Telegram.clock := 0; Telegram.outbox := [] |}.

Definition tick (candidates : list GraduationCandidate) (w : Telegram.World)
  : Telegram.World :=
  (Telegram.scanAndNotify DEFAULT_AUTOPOST_CONFIG ticking_dates 0
     (λ _ _, {| Telegram.ok := true; Telegram.result_messageId := None |})
     candidates w).2.

Definition logged (w : Telegram.World) : list string :=
  (λ log, token_mint (Telegram.callCard log))
    <$> default [] (Telegram.callLogs w !! "chat-1").

(** The service restarted: the storage is kept, [seenTokens] is empty
    again. *)
Definition restart (w : Telegram.World) : Telegram.World :=
  Telegram.with_seenTokens (λ _, []) w.

End TelegramExample.

(** [m] only adds sends that satisfy [P] to the outbox [out] of the
    world. *)
Definition sends_only {W A} (out : W → list Dispatch) (P : Dispatch → Prop)
    (m : M W A) : Prop :=
  ∀ w, ∃ new, out (m w).2 = out w ++ new ∧ Forall P new.

(** Every entry [getLatestPumpFunGraduations] keeps for a limit holds at
    most that many pairs. *)
Definition graduations_cache_bounded (self : DexScreenerProvider.t) : Prop :=
  ∀ (limit : Z) entry,
    DexScreenerProvider.cache self
      !! DexScreenerProvider.graduationsCacheKey limit = Some entry →
    (Z.of_nat (length (DexScreenerProvider.data entry)) ≤ limit)%Z.

(** The upstream of the provider examples: three distinct Raydium pairs on
    Solana, boosted. *)
Definition example_listing : list DexScreenerPair :=
  [healthy_pair; drained_pair; second_pair].

Definition example_boosts : DexScreenerProvider.listing :=
  DexScreenerProvider.ListingOk
    (Some ((λ p, {| DexScreenerProvider.token_chainId := chainId p;
                    DexScreenerProvider.tokenAddress := baseToken_address p |})
             <$> example_listing)).

(** The inputs of the second scoring example: [liquidity / marketCap] is
    12%, the volumes are zero. *)
Definition strong_pair : DexScreenerPair :=
  {| chainId := "solana"; dexId := "raydium"; url := ""; pairAddress := "";
     baseToken_address := "StrongMint"; baseToken_symbol := "STRG";
     baseToken_name := "Strong";
     liquidity_usd := Some 60000%float; marketCap := Some 500000%float;
     volume_m5 := Some 0%float; volume_h1 := Some 0%float;
     volume_h24 := Some 0%float;
     priceChange_m5 := Some 25%float; priceChange_h24 := Some 0%float;
     txns_m5_buys := Some 10%float; txns_m5_sells := Some 2%float;
     pairCreatedAt := Some 0%float;
     info_imageUrl := None; info_socials := None; info_websites := None |}.

Definition strong_metrics : TokenMetrics :=
  set_holders 250 15 (pairToMetrics 0 strong_pair).

(** A policy with quiet hours from 22 to 6 (UTC), and a clock that shows
    the given hour of 14 November 2023. *)
Definition night_policy : Policy :=
  {| autopostEnabled := true; maxCallsPerDay := 50;
     quietHoursStart := Some 22%float; quietHoursEnd := Some 6%float;
     minConfidenceScore := 6.5 |}.

Definition at_hour (h : Z) (n : nat) : Z :=
  (1699920000000 + h * 3600000 + Z.of_nat n)%Z.

Module QuietExample.

Definition chat : Telegram.TelegramChatConfig :=
  {| Telegram.chatId := "chat-1"; Telegram.chatTitle := "Chat";
     Telegram.policy := night_policy;
     Telegram.display := None; Telegram.callCount := 0;
     Telegram.lastCallAt := None; Telegram.updatedAt := 0 |}.

Definition start : Telegram.World :=
  {| Telegram.chats := [("chat-1", chat)];
     Telegram.callLogs := ∅; Telegram.seenTokens := [];
     Telegram.clock := 0; Telegram.outbox := [] |}.

(** The sends of one Telegram tick at the given UTC hour. *)
Definition telegram_sends_at (h : Z) : list (string * string * bool) :=
  sends (Telegram.outbox
    (Telegram.scanAndNotify DEFAULT_AUTOPOST_CONFIG (at_hour h) 0
       (λ _ _, {| Telegram.ok := true; Telegram.result_messageId := None |})
       one_candidate start).2).

Definition guild : Discord.GuildConfig :=
  {| Discord.guildId := "guild-1"; Discord.guildName := "Guild";
     Discord.channelId := Some "chan-1";
     Discord.policy := night_policy |}.

(** The sends of one Discord tick at the given UTC hour. *)
Definition discord_sends_at (h : Z) : list (string * string * bool) :=
  sends (Discord.outbox
    (Discord.scanAndNotify DEFAULT_AUTOPOST_CONFIG (at_hour h) 0
       (λ _ _, true) one_candidate (DiscordExample.start guild)).2).

End QuietExample.

(** A Telegram world whose chat, capped at one call per day, has one call
    logged on the day of the tick. *)
Definition capped_world : Telegram.World :=
  TelegramExample.restart
    (TelegramExample.tick one_candidate (TelegramExample.start 1)).

(** A pair whose top-10 holders own 70% of the supply, by Helius. *)
Definition whale_helius : HeliusProvider :=
  {| getTokenHolderCount := λ _, Resolves 180;
     getTopHolderConcentration := λ _ _, Resolves 70 |}.
(* ===================================================================== *)
(** ** Definitions of the further properties *)
(* ===================================================================== *)

(** A number that is finite or infinite, with the sign [s]. *)
Definition signed (s : bool) (x : spec_float) : Prop :=
  match x with
  | S754_finite s' _ _ | S754_infinity s' => s' = s
  | _ => False
  end.

(** Zero, a positive number or NaN. *)
Definition not_negative (x : spec_float) : Prop :=
  match x with
  | S754_infinity true | S754_finite true _ _ => False
  | _ => True
  end.

(** [strict] asks at least as much as [lax] on every threshold of the
    filter, the two optional ratios read with their fallbacks. *)
Definition stricter (strict lax : GraduationFilter) : bool :=
  (minLiquidity lax <=? minLiquidity strict)%float
  && (minVolume5m lax <=? minVolume5m strict)%float
  && (maxAgeMinutes strict <=? maxAgeMinutes lax)%float
  && (minHolders lax <=? minHolders strict)%float
  && ((minLiquidityRatio lax ||? 8) <=? (minLiquidityRatio strict ||? 8))%float
  && ((minBuySellRatio lax ||? 0.3) <=? (minBuySellRatio strict ||? 0.3))%float.

(** The values a score can take: the multiples of one half from 0 to
    10. *)
Definition score_grid : list float :=
  (λ k, (JS.of_nat k / 2)%float) <$> seq 0 21.

Definition on_score_grid (s : float) : bool :=
  existsb (PrimFloat.Leibniz.eqb s) score_grid.

(** [a] may stand before [b] in a list ordered by [key], highest
    first. *)
Definition descending {A} (key : A → float) (a b : A) : Prop :=
  (key b <=? key a)%float = true.

(** A filter with the given optional ratio thresholds. *)
Definition with_ratios (liqRatio buySell : option float)
    (f : GraduationFilter) : GraduationFilter :=
  {| minLiquidity := minLiquidity f; minVolume5m := minVolume5m f;
     minHolders := minHolders f; maxAgeMinutes := maxAgeMinutes f;
     excludeRuggedDeployers := excludeRuggedDeployers f;
     minLiquidityRatio := liqRatio; minBuySellRatio := buySell |}.

(** A threshold that [||] replaces by its fallback: left out, zero or
    NaN. *)
Definition falsy (x : option float) : Prop :=
  ∀ v, x = Some v → JS.truthy v = false.

(** The filter of the [/fresh] command (webhook route): the two ratio
    thresholds are left out. *)
Definition freshFilter : GraduationFilter :=
  {| minLiquidity := 5000; minVolume5m := 100; minHolders := 10;
     maxAgeMinutes := 60; excludeRuggedDeployers := false;
     minLiquidityRatio := None; minBuySellRatio := None |}.

(* ===================================================================== *)
(** ** DexScreenerProvider: the lookups *)
(* ===================================================================== *)

Module DexScreenerLookup.

Import DexScreenerProvider.

Local Open Scope float_scope.

Definition byLiquidity (a b : DexScreenerPair) : float :=
  (liquidity_usd b ||? 0) - (liquidity_usd a ||? 0).

(** [getPairByMint(mint)]; [resp] is what the tokens endpoint answers
    for [mint].  [None] is [null]. *)
Definition getPairByMint (resp : response) : option DexScreenerPair :=
  match resp with
  | FetchThrows => None
  | NotOk => None
  | Ok pairs =>
      let pairs := default [] pairs in
      (* Return the most liquid Raydium pair *)
      let raydiumPairs :=
        sort byLiquidity
          (filter (λ p, String.eqb (dexId p) "raydium"
                        && String.eqb (chainId p) "solana" = true) pairs) in
      head raydiumPairs
  end.

End DexScreenerLookup.

Definition raydiumOnSolana (p : DexScreenerPair) : Prop :=
  dexId p = "raydium" ∧ chainId p = "solana".

(** A listing as the provider hands it out: Raydium pairs on Solana, no
    base token twice. *)
Definition listing_ok (l : list DexScreenerPair) : Prop :=
  Forall raydiumOnSolana l ∧ NoDup (baseToken_address <$> l).

(** The pairs of an answer: none when the request failed or the answer
    has no [pairs]. *)
Definition pairs_of (resp : DexScreenerProvider.response)
  : list DexScreenerPair :=
  match resp with
  | DexScreenerProvider.Ok (Some pairs) => pairs
  | _ => []
  end.

Definition cache_ok (self : DexScreenerProvider.t) : Prop :=
  ∀ key entry,
    DexScreenerProvider.cache self !! key = Some entry →
    listing_ok (DexScreenerProvider.data entry).

(* ===================================================================== *)
(** ** What a tick of the services may send *)
(* ===================================================================== *)

(** The score a chat asks for:
    [chat.display?.minScore || chat.policy.thresholds.minConfidenceScore]. *)
Definition chatMinScore (chat : Telegram.TelegramChatConfig) : float :=
  (Telegram.display_minScore <$> Telegram.display chat)
    ||? minConfidenceScore (Telegram.policy chat).

(** A send of a Telegram tick that started in the world [w]: a candidate
    of the scan that passes the filter and reaches the service's and the
    chat's minimum score, whose mint the service had not seen, sent to a
    stored chat with autopost enabled. *)
Definition telegram_qualified (config : AutopostConfig)
    (candidates : list GraduationCandidate) (w : Telegram.World)
    (d : Dispatch) : Prop :=
  dispatched d ∈ candidates
  ∧ passesFilter (dispatched d) = true
  ∧ JS.ge (score (dispatched d)) (minScore config) = true
  ∧ (grad_mint (graduation (dispatched d)) ∉ Telegram.seenTokens w)
  ∧ ∃ chat,
      chat ∈ (snd <$> Telegram.chats w)
      ∧ autopostEnabled (Telegram.policy chat) = true
      ∧ recipient d = Telegram.chatId chat
      ∧ JS.ge (score (dispatched d)) (chatMinScore chat) = true.

(** A send of a Discord tick that started in the world [w]: a candidate
    of the scan that passes the filter and reaches the service's minimum
    score, sent to the channel of a guild with autopost enabled. *)
Definition discord_qualified (config : AutopostConfig)
    (candidates : list GraduationCandidate) (w : Discord.World)
    (d : Dispatch) : Prop :=
  dispatched d ∈ candidates
  ∧ passesFilter (dispatched d) = true
  ∧ JS.ge (score (dispatched d)) (minScore config) = true
  ∧ ∃ guild,
      guild ∈ Discord.guilds w
      ∧ autopostEnabled (Discord.policy guild) = true
      ∧ Discord.channelId guild = Some (recipient d)
      ∧ recipient d ≠ "".

(** [m] adds the sends [new] to the outbox and returns a value that [Q]
    relates to them. *)
Definition sends_post {W A} (out : W → list Dispatch)
    (Q : A → list Dispatch → Prop) (m : M W A) : Prop :=
  ∀ w, ∃ new, out (m w).2 = out w ++ new ∧ Q (m w).1 new.

(** The sends that were delivered. *)
Definition count_delivered (new : list Dispatch) : nat :=
  length (filter (λ d, delivered d = true) new).

(** The quiet-hours window on whole hours: from [start] up to, not
    including, [stop], past midnight when [start] is not before
    [stop]. *)
Definition in_window (start stop hour : Z) : bool :=
  if (start <? stop)%Z
  then (start <=? hour)%Z && (hour <? stop)%Z
  else (start <=? hour)%Z || (hour <? stop)%Z.

Definition hours : list Z := seqZ 0 24.

(** The call log of every chat holds at most 100 entries. *)
Definition logs_bounded (w : Telegram.World) : Prop :=
  ∀ chatId logs,
    Telegram.callLogs w !! chatId = Some logs → (length logs ≤ 100)%nat.

(** The seen-tokens cache as the service keeps it: a set, with at most
    500 mints other than the empty string. *)
Definition seen_bounded (w : Telegram.World) : Prop :=
  NoDup (Telegram.seenTokens w)
  ∧ (length (filter (λ mint, mint ≠ "") (Telegram.seenTokens w)) ≤ 500)%nat.

(** [m] keeps the invariant [I] of the world. *)
Definition preserves {W A} (I : W → Prop) (m : M W A) : Prop :=
  ∀ w, I w → I (m w).2.
(* ===================================================================== *)
(** ** The Telegram bot: chat configurations and admin commands *)
(* ===================================================================== *)

Module TelegramBot.

Import Telegram.

(** [map.get(key)] and [map.delete(key)] on a map kept in insertion
    order. *)
Fixpoint map_get {V} (key : string) (m : list (string * V)) : option V :=
  match m with
  | [] => None
  | (k, v) :: rest => if String.eqb k key then Some v else map_get key rest
  end.

Fixpoint map_delete {V} (key : string) (m : list (string * V))
  : list (string * V) :=
  match m with
  | [] => []
  | (k, v) :: rest =>
      if String.eqb k key then rest else (k, v) :: map_delete key rest
  end.

Definition with_policy (f : Policy → Policy) (c : TelegramChatConfig)
  : TelegramChatConfig :=
  {| chatId := chatId c; chatTitle := chatTitle c;
     policy := f (policy c); display := display c;
     callCount := callCount c; lastCallAt := lastCallAt c;
     updatedAt := updatedAt c |}.

Definition with_display (d : option DisplaySettings) (c : TelegramChatConfig)
  : TelegramChatConfig :=
  {| chatId := chatId c; chatTitle := chatTitle c;
     policy := policy c; display := d;
     callCount := callCount c; lastCallAt := lastCallAt c;
     updatedAt := updatedAt c |}.

Definition set_autopostEnabled (b : bool) (p : Policy) : Policy :=
  {| autopostEnabled := b; maxCallsPerDay := maxCallsPerDay p;
     quietHoursStart := quietHoursStart p; quietHoursEnd := quietHoursEnd p;
     minConfidenceScore := minConfidenceScore p |}.

Definition set_minConfidenceScore (s : float) (p : Policy) : Policy :=
  {| autopostEnabled := autopostEnabled p;
     maxCallsPerDay := maxCallsPerDay p;
     quietHoursStart := quietHoursStart p; quietHoursEnd := quietHoursEnd p;
     minConfidenceScore := s |}.

(** What a command answers to the chat. *)
Inductive reply :=
| AdminOnly              (* "Admin only." *)
| SetriskUsage           (* "Usage: `/setrisk <1-10>`" *)
| MinScoreSet (score : float)
| SignalsUnmuted         (* "Signals unmuted." *)
| SignalsMuted.          (* "Signals muted." *)

Section Bot.

Variable Date_at : nat -> Z.

(** [createPolicy(chatId, "momentum")] of policies.ts, which is not among
    the sources: any function from the chat to a policy. *)
Variable createPolicy : string -> Policy.

(** InMemoryTelegramStorage, the methods the autopost service does not
    call. *)
Definition getChatConfig (chatId : string)
  : M World (option TelegramChatConfig) :=
  λ w, (map_get chatId (chats w), w).

Definition deleteChatConfig (chatId : string) : M World unit :=
  λ w, (tt, with_callLogs (delete chatId) (with_chats (map_delete chatId) w)).

(** [getOrCreateChatConfig({ chatId, chatTitle })] *)
Definition getOrCreateChatConfig (chatId : string) (chatTitle : option string)
  : M World TelegramChatConfig :=
  existing ← getChatConfig chatId;
  match existing with
  | Some existing => mret existing
  | None =>
      _ ← newDate Date_at;            (* createdAt *)
      updated ← newDate Date_at;
      let config :=
        {| Telegram.chatId := chatId;
           Telegram.chatTitle :=
             match chatTitle with
             | Some title => if String.eqb title "" then "Telegram Chat"
                             else title
             | None => "Telegram Chat"
             end;
           policy := createPolicy chatId;
           display := Some {| display_minScore := 6.5 |};
           callCount := 0;
           lastCallAt := None;
           updatedAt := updated |} in
      saveChatConfig Date_at config;;
      mret config
  end.

(** The [mute] and [unmute] commands of the webhook route; [isAdmin] is
    what [isUserAdmin] answered for the sender. *)
Definition handleMute (isAdmin : bool) (chatId : string) (command : string)
  : M World reply :=
  if negb isAdmin then mret AdminOnly
  else
    config ← getOrCreateChatConfig chatId None;
    let config :=
      with_policy (set_autopostEnabled (String.eqb command "unmute"))
        config in
    saveChatConfig Date_at config;;
    mret (if String.eqb command "unmute" then SignalsUnmuted
          else SignalsMuted).

(** The [setrisk] command; [score] is what [parseInt(args[0], 10)]
    gave. *)
Definition handleSetRisk (isAdmin : bool) (chatId : string) (score : float)
  : M World reply :=
  if negb isAdmin then mret AdminOnly
  else if negb (score =? score)%float || (score <? 1)%float || JS.gt score 10
  then mret SetriskUsage
  else
    config ← getOrCreateChatConfig chatId None;
    let config :=
      match display config with
      | None => with_display (Some {| display_minScore := score |}) config
      | Some _ =>                        (* config.display.minScore = score *)
          with_display (Some {| display_minScore := score |}) config
      end in
    let config := with_policy (set_minConfidenceScore score) config in
    saveChatConfig Date_at config;;
    mret (MinScoreSet score).

End Bot.

(** The selection of the [alpha] command: the five best of the
    candidates that pass the filter and reach the chat's minimum
    score. *)
Definition alphaSelection (config : TelegramChatConfig)
    (candidates : list GraduationCandidate) : list GraduationCandidate :=
  let minScore := (display_minScore <$> display config) ||? 7 in
  let filtered :=
    sort (λ a b, (score b - score a)%float)
      (filter (λ c, passesFilter c && JS.ge (score c) minScore = true)
              candidates) in
  DexScreenerProvider.slice0 filtered 5.

End TelegramBot.

(** What [saveChatConfig] stores for [cfg] at the time [now]:
    [{ ...config, updatedAt: new Date() }]. *)
Definition saved (cfg : Telegram.TelegramChatConfig) (now : Z)
  : Telegram.TelegramChatConfig :=
  {| Telegram.chatId := Telegram.chatId cfg;
     Telegram.chatTitle := Telegram.chatTitle cfg;
     Telegram.policy := Telegram.policy cfg;
     Telegram.display := Telegram.display cfg;
     Telegram.callCount := Telegram.callCount cfg;
     Telegram.lastCallAt := Telegram.lastCallAt cfg;
     Telegram.updatedAt := now |}.

(** The chats of the storage as a map: no key twice, every configuration
    under its own [chatId]. *)
Definition storage_wf (w : Telegram.World) : Prop :=
  NoDup (fst <$> Telegram.chats w)
  ∧ Forall (λ kv, Telegram.chatId kv.2 = kv.1) (Telegram.chats w).
(* ===================================================================== *)
(** ** The message formatter and the callback data *)
(* ===================================================================== *)

(** Strings are sequences of bytes, a text in UTF-8: the characters the
    functions below look for are ASCII, and no byte of a longer sequence
    is. *)
Module TelegramFormatter.

(** [text.replace(/c/g, by)] for a single character [c]. *)
Fixpoint replaceAll (c : Ascii.ascii) (by_ : string) (text : string) : string :=
  match text with
  | EmptyString => EmptyString
  | String a rest =>
      if Ascii.eqb a c then by_ +:+ replaceAll c by_ rest
      else String a (replaceAll c by_ rest)
  end.

(** [escapeHtml] *)
Definition escapeHtml (text : string) : string :=
  replaceAll ">"%char "&gt;"
    (replaceAll "<"%char "&lt;" (replaceAll "&"%char "&amp;" text)).

Record InlineButton := {
  text : string;
  url : option string;
  callbackData : option string;
}.

(** The button pushed for [tokens[j]]. *)
Definition tickerButton (j : nat) (c : GraduationCandidate) : InlineButton :=
  {| text := pretty (j + 1)%nat +:+ ". $" +:+ grad_symbol (graduation c);
     url := None;
     callbackData := Some ("ticker:" +:+ grad_mint (graduation c)) |}.

(** [for (let j = i; j < Math.min(i + 2, tokens.length); j++)] *)
Definition tickerRow (tokens : list GraduationCandidate) (i : nat)
  : list InlineButton :=
  omap (λ j, tickerButton j <$> tokens !! j)
       (seq i (Nat.min (i + 2) (length tokens) - i)).

(** [for (let i = 0; i < tokens.length; i += 2)]; [fuel] bounds the
    number of rounds. *)
Fixpoint tickerRows (fuel : nat) (tokens : list GraduationCandidate)
    (i : nat) : list (list InlineButton) :=
  match fuel with
  | O => []
  | S fuel =>
      if Nat.ltb i (length tokens)
      then tickerRow tokens i :: tickerRows fuel tokens (i + 2)
      else []
  end.

(** [generateTickerKeyboard] *)
Definition generateTickerKeyboard (candidates : list GraduationCandidate)
  : list (list InlineButton) :=
  let tokens := DexScreenerProvider.slice0 candidates 5 in
  tickerRows (length tokens) tokens 0.

(** [s.split(sep)] for a single character [sep]. *)
Fixpoint split (sep : Ascii.ascii) (s : string) : list string :=
  match s with
  | EmptyString => [EmptyString]
  | String c rest =>
      if Ascii.eqb c sep then EmptyString :: split sep rest
      else match split sep rest with
           | seg :: segs => String c seg :: segs
           | [] => [String c EmptyString]
           end
  end.

(** [parts.join(sep)] *)
Fixpoint join (sep : string) (parts : list string) : string :=
  match parts with
  | [] => EmptyString
  | [part] => part
  | part :: rest => part +:+ sep +:+ join sep rest
  end.

(** The head of [handleCallbackQuery]:
    [const [action, ...payloadParts] = query.data.split(":");
     const payload = payloadParts.join(":")].  An [action] that is
    [undefined] cannot occur, [split] returning at least one part. *)
Definition parseCallbackData (data : string) : string * string :=
  match split ":"%char data with
  | action :: payloadParts => (action, join ":" payloadParts)
  | [] => (EmptyString, EmptyString)
  end.

End TelegramFormatter.

(** The characters of a string. *)
Fixpoint chars (s : string) : list Ascii.ascii :=
  match s with
  | EmptyString => []
  | String c rest => c :: chars rest
  end.

(** [escapeHtml] in one pass. *)
Definition escapeChar (c : Ascii.ascii) : string :=
  if Ascii.eqb c "&"%char then "&amp;"
  else if Ascii.eqb c "<"%char then "&lt;"
  else if Ascii.eqb c ">"%char then "&gt;"
  else String c EmptyString.

Fixpoint escapeChars (s : string) : string :=
  match s with
  | EmptyString => EmptyString
  | String c rest => escapeChar c +:+ escapeChars rest
  end.

(** The callback data of a keyboard, row by row. *)
Definition callbacks (keyboard : list (list TelegramFormatter.InlineButton))
  : list (option string) :=
  TelegramFormatter.callbackData <$> concat keyboard.
(* ===================================================================== *)
(** ** Example inputs of the further properties *)
(* ===================================================================== *)

(** The candidate the standard scan makes of the healthy pair. *)
Definition healthy_candidate : GraduationCandidate :=
  let metrics :=
    enrich example_helius 100 25 healthy_pair
      (pairToMetrics (example_clock 0) healthy_pair) in
  let r :=
    applyFilter (example_clock 1) healthy_pair metrics
      DEFAULT_GRADUATION_FILTER in
  {| graduation := mkGraduation healthy_pair; pair := healthy_pair;
     metrics := metrics; score := calculateScore healthy_pair metrics;
     passesFilter := passes r; filterFailures := failures r |}.

(** Quiet hours that start and end at nine. *)
Definition same_bounds_policy : Policy :=
  {| autopostEnabled := true; maxCallsPerDay := 50;
     quietHoursStart := Some 9%float; quietHoursEnd := Some 9%float;
     minConfidenceScore := 6.5 |}.

Definition same_bounds_chat : Telegram.TelegramChatConfig :=
  {| Telegram.chatId := "chat-1"; Telegram.chatTitle := "Chat";
     Telegram.policy := same_bounds_policy;
     Telegram.display := None; Telegram.callCount := 0;
     Telegram.lastCallAt := None; Telegram.updatedAt := 0 |}.

Definition same_bounds_guild : Discord.GuildConfig :=
  {| Discord.guildId := "guild-1"; Discord.guildName := "Guild";
     Discord.channelId := Some "chan-1";
     Discord.policy := same_bounds_policy |}.

(** Every send accepted by the Telegram API. *)
Definition accepted (chatId : string) (c : GraduationCandidate)
  : Telegram.SendResult :=
  {| Telegram.ok := true; Telegram.result_messageId := None |}.

(** A call log of the example chat. *)
Definition example_log : Telegram.TelegramCallLog :=
  {| Telegram.id := (1700000000000%Z, "HealthyM");
     Telegram.log_chatId := "chat-1";
     Telegram.callCard := {| token_mint := "HealthyMint" |};
     Telegram.triggeredBy := "auto";
     Telegram.messageId := None;
     Telegram.createdAt := 1700000000000%Z |}.

(* ===================================================================== *)
(** ** Facts about numbers *)
(* ===================================================================== *)

Section Numbers.

Local Open Scope float_scope.

Lemma Prim2SF_zero : Prim2SF 0 = S754_zero false.
Proof. reflexivity. Qed.

(** A number equal to zero ([+0] or [-0]) is not greater than zero. *)
Lemma eq_zero_not_gt (x : float) : (x =? 0) = true → JS.gt x 0 = false.
Proof.
  unfold JS.gt. rewrite FloatAxioms.eqb_spec, ltb_spec, Prim2SF_zero.
  destruct (Prim2SF x) as [s|s| |s m e]; simpl; try done.
  - by destruct s.
  - by destruct s.
Qed.

(** A truthy number that is not negative is positive. *)
Lemma truthy_not_neg_gt (x : float) :
  JS.truthy x = true → (x <? 0) = false → JS.gt x 0 = true.
Proof.
  unfold JS.truthy, JS.gt.
  rewrite !FloatAxioms.eqb_spec, !ltb_spec, Prim2SF_zero.
  destruct (Prim2SF x) as [s|s| |s m e]; simpl; try done.
  - by destruct s.
  - by destruct s.
Qed.

End Numbers.

(* ===================================================================== *)
(** ** The scorer *)
(* ===================================================================== *)

Section Scorer.

Local Open Scope float_scope.

Lemma apply_branches_intro bs scores f s v :
  f ∈ bs → v = f s → s ∈ scores → v ∈ apply_branches bs scores.
Proof.
  intros Hf -> Hs. unfold apply_branches.
  apply list_elem_of_bind. exists s. split; [|done].
  apply list_elem_of_fmap. by exists f.
Qed.

Ltac branch_cases :=
  repeat match goal with
  | |- context [if ?c then _ else _] => destruct c
  end.

Ltac find_branch :=
  apply list_elem_of_here + (apply list_elem_of_further; find_branch).

Ltac pick_branch := eexists; split; [find_branch|]; reflexivity.

Lemma scoreVolumeMomentum_branch pair s :
  ∃ f, f ∈ scoreVolumeMomentum_branches ∧ scoreVolumeMomentum pair s = f s.
Proof.
  unfold scoreVolumeMomentum, scoreVolumeMomentum_branches. cbv zeta.
  branch_cases; pick_branch.
Qed.

Lemma scoreLiquidityHealth_branch pair s :
  ∃ f, f ∈ scoreLiquidityHealth_branches ∧ scoreLiquidityHealth pair s = f s.
Proof.
  unfold scoreLiquidityHealth, scoreLiquidityHealth_branches. cbv zeta.
  branch_cases; pick_branch.
Qed.

Lemma scoreBuySellRatio_branch pair s :
  ∃ f, f ∈ scoreBuySellRatio_branches ∧ scoreBuySellRatio pair s = f s.
Proof.
  unfold scoreBuySellRatio, scoreBuySellRatio_branches. cbv zeta.
  set (ratio := if JS.gt _ 0 then _ else _). clearbody ratio.
  branch_cases; pick_branch.
Qed.

Lemma scorePriceMomentum_branch pair s :
  ∃ f, f ∈ scorePriceMomentum_branches ∧ scorePriceMomentum pair s = f s.
Proof.
  unfold scorePriceMomentum, scorePriceMomentum_branches. cbv zeta.
  branch_cases; pick_branch.
Qed.

Lemma scoreMarketCapSanity_branch pair s :
  ∃ f, f ∈ scoreMarketCapSanity_branches ∧ scoreMarketCapSanity pair s = f s.
Proof.
  unfold scoreMarketCapSanity, scoreMarketCapSanity_branches. cbv zeta.
  branch_cases; pick_branch.
Qed.

Lemma scoreLiquidityRatio_branch pair s :
  ∃ f, f ∈ scoreLiquidityRatio_branches ∧ scoreLiquidityRatio pair s = f s.
Proof.
  unfold scoreLiquidityRatio, scoreLiquidityRatio_branches. cbv zeta.
  branch_cases; pick_branch.
Qed.

Lemma scoreHolderDistribution_branch metrics s :
  ∃ f, f ∈ scoreHolderDistribution_branches
       ∧ scoreHolderDistribution metrics s = f s.
Proof.
  unfold scoreHolderDistribution, scoreHolderDistribution_branches. cbv zeta.
  branch_cases; pick_branch.
Qed.

Lemma scoreHolderConcentration_branch metrics s :
  ∃ f, f ∈ scoreHolderConcentration_branches
       ∧ scoreHolderConcentration metrics s = f s.
Proof.
  unfold scoreHolderConcentration, scoreHolderConcentration_branches.
  cbv zeta. branch_cases; pick_branch.
Qed.

Ltac step lem :=
  lazymatch goal with
  | |- @elem_of _ _ _ (?g ?x ?s) _ =>
      let f := fresh "f" in
      let Hf := fresh "Hf" in
      let E := fresh "E" in
      destruct (lem x s) as (f & Hf & E);
      apply (apply_branches_intro _ _ f s _ Hf E); clear f Hf E
  end.

(** The score before the clamp, as [calculateScore] accumulates it. *)
Lemma unclamped_reachable pair metrics :
  scoreHolderConcentration metrics
    (scoreHolderDistribution metrics
      (scoreLiquidityRatio pair
        (scoreMarketCapSanity pair
          (scorePriceMomentum pair
            (scoreBuySellRatio pair
              (scoreLiquidityHealth pair
                (scoreVolumeMomentum pair 5)))))))
  ∈ reachable_scores.
Proof.
  unfold reachable_scores.
  step scoreHolderConcentration_branch.
  step scoreHolderDistribution_branch.
  step scoreLiquidityRatio_branch.
  step scoreMarketCapSanity_branch.
  step scorePriceMomentum_branch.
  step scoreBuySellRatio_branch.
  step scoreLiquidityHealth_branch.
  step scoreVolumeMomentum_branch.
  apply list_elem_of_here.
Qed.

Lemma reachable_scores_clamped :
  forallb (λ s, in_0_10 (JS.Math_max 0 (JS.Math_min 10 s))) reachable_scores
  = true.
Proof. vm_compute. reflexivity. Qed.

(** C7. Whatever the pair and the metrics (NaN and the infinities
    included), the score [calculateScore] returns is a number between 0
    and 10, both included. *)
Theorem calculateScore_in_0_10 (pair : DexScreenerPair)
    (metrics : TokenMetrics) :
  (0 <=? calculateScore pair metrics) = true
  ∧ (calculateScore pair metrics <=? 10) = true.
Proof.
  pose proof reachable_scores_clamped as Hall.
  rewrite forallb_forall in Hall.
  specialize (Hall _ (proj1 (list_elem_of_In _ _)
                        (unclamped_reachable pair metrics))).
  unfold in_0_10 in Hall. apply andb_prop in Hall.
  exact Hall.
Qed.

End Scorer.

(** The scoring example with every input zero does not score 5. *)
Lemma calculateScore_zero_inputs_not_5 :
  (calculateScore zero_pair zero_metrics =? 5)%float = false.
Proof. vm_compute. reflexivity. Qed.

Section ScorerExample.

Local Open Scope float_scope.

(** C3 (amended). When every input of the scorer is zero the score is 4,
    not the base value 5: the liquidity block takes its [liq < 5000]
    branch and subtracts 1, and no other block changes the score. *)
Theorem calculateScore_zero_inputs (pair : DexScreenerPair)
    (metrics : TokenMetrics) :
  volume_m5 pair = Some 0 → volume_h1 pair = Some 0 →
  liquidity_usd pair = Some 0 →
  txns_m5_buys pair = Some 0 → txns_m5_sells pair = Some 0 →
  priceChange_m5 pair = Some 0 → marketCap pair = Some 0 →
  holders metrics = 0 → topHolderConcentration metrics = 0 →
  calculateScore pair metrics = 4
  ∧ (∀ s, scoreLiquidityHealth pair s = s - 1)
  ∧ (∀ s, scoreVolumeMomentum pair s = s)
  ∧ (∀ s, scoreBuySellRatio pair s = s)
  ∧ (∀ s, scorePriceMomentum pair s = s)
  ∧ (∀ s, scoreMarketCapSanity pair s = s)
  ∧ (∀ s, scoreLiquidityRatio pair s = s)
  ∧ (∀ s, scoreHolderDistribution metrics s = s)
  ∧ (∀ s, scoreHolderConcentration metrics s = s).
Proof.
  destruct pair, metrics.
  cbn [volume_m5 volume_h1 liquidity_usd txns_m5_buys txns_m5_sells
       priceChange_m5 marketCap holders topHolderConcentration].
  intros -> -> -> -> -> -> -> -> ->.
  repeat split; intros; vm_compute; reflexivity.
Qed.

Lemma calculateScore_zero_inputs_witness :
  calculateScore zero_pair zero_metrics = 4
  ∧ (∀ s, scoreLiquidityHealth zero_pair s = s - 1)
  ∧ (∀ s, scoreVolumeMomentum zero_pair s = s)
  ∧ (∀ s, scoreBuySellRatio zero_pair s = s)
  ∧ (∀ s, scorePriceMomentum zero_pair s = s)
  ∧ (∀ s, scoreMarketCapSanity zero_pair s = s)
  ∧ (∀ s, scoreLiquidityRatio zero_pair s = s)
  ∧ (∀ s, scoreHolderDistribution zero_metrics s = s)
  ∧ (∀ s, scoreHolderConcentration zero_metrics s = s).
Proof.
  apply (calculateScore_zero_inputs zero_pair zero_metrics); reflexivity.
Defined.

End ScorerExample.

(* ===================================================================== *)
(** ** The filter engine *)
(* ===================================================================== *)

Section Filter.

Local Open Scope float_scope.

Lemma elem_of_push {A} (x y : A) (l : list A) :
  x ∈ push l y ↔ x ∈ l ∨ x = y.
Proof. unfold push. rewrite elem_of_app, list_elem_of_singleton. done. Qed.

Lemma elem_of_if_push {A} (c : bool) (x y : A) (l : list A) :
  x ∈ (if c then push l y else l) ↔ x ∈ l ∨ (c = true ∧ x = y).
Proof. destruct c; rewrite ?elem_of_push; intuition congruence. Qed.

Lemma elem_of_if_if_push {A} (c d : bool) (x y : A) (l : list A) :
  x ∈ (if c then if d then push l y else l else l)
  ↔ x ∈ l ∨ (c = true ∧ d = true ∧ x = y).
Proof. destruct c, d; rewrite ?elem_of_push; intuition congruence. Qed.

Lemma elem_of_checkLiquidity pair filter l x :
  x ∈ checkLiquidity pair filter l
  ↔ x ∈ l ∨ (((liquidity_usd pair ||? 0) <? minLiquidity filter) = true
             ∧ x = LiquidityBelow (liquidity_usd pair) (minLiquidity filter)).
Proof. apply elem_of_if_push. Qed.

Lemma elem_of_checkVolume5m pair filter l x :
  x ∈ checkVolume5m pair filter l
  ↔ x ∈ l ∨ (((volume_m5 pair ||? 0) <? minVolume5m filter) = true
             ∧ x = Volume5mBelow (volume_m5 pair) (minVolume5m filter)).
Proof. apply elem_of_if_push. Qed.

Lemma elem_of_checkAge ageMinutes filter l x :
  x ∈ checkAge ageMinutes filter l
  ↔ x ∈ l ∨ (JS.gt ageMinutes (maxAgeMinutes filter) = true
             ∧ x = AgeAbove ageMinutes (maxAgeMinutes filter)).
Proof. apply elem_of_if_push. Qed.

Lemma elem_of_checkHolders metrics filter l x :
  x ∈ checkHolders metrics filter l
  ↔ x ∈ l ∨ (JS.gt (holders metrics) 0
               && (holders metrics <? minHolders filter) = true
             ∧ x = HoldersBelow (holders metrics) (minHolders filter)).
Proof. apply elem_of_if_push. Qed.

Lemma elem_of_checkConcentration metrics l x :
  x ∈ checkConcentration metrics l
  ↔ x ∈ l ∨ (JS.gt (topHolderConcentration metrics) 50 = true
             ∧ x = TopHoldersOwn (topHolderConcentration metrics)).
Proof. apply elem_of_if_push. Qed.

Lemma elem_of_checkLiquidityRatio pair filter l x :
  x ∈ checkLiquidityRatio pair filter l
  ↔ x ∈ l
    ∨ (JS.gt (marketCap pair ||? 0) 0 && JS.gt (liquidity_usd pair ||? 0) 0
       = true
       ∧ ((liquidity_usd pair ||? 0) / (marketCap pair ||? 0) * 100
            <? minLiquidityRatio filter ||? 8) = true
       ∧ x = LiqMCapBelow
               ((liquidity_usd pair ||? 0) / (marketCap pair ||? 0) * 100)
               (minLiquidityRatio filter ||? 8)).
Proof. apply elem_of_if_if_push. Qed.

Lemma elem_of_checkBuySellRatio pair filter l x :
  x ∈ checkBuySellRatio pair filter l
  ↔ x ∈ l
    ∨ (JS.gt (txns_m5_sells pair ||? 0) 0 = true
       ∧ ((txns_m5_buys pair ||? 0) / (txns_m5_sells pair ||? 0)
            <? minBuySellRatio filter ||? 0.3) = true
       ∧ x = BuySellBelow
               ((txns_m5_buys pair ||? 0) / (txns_m5_sells pair ||? 0))
               (minBuySellRatio filter ||? 0.3)).
Proof. apply elem_of_if_if_push. Qed.

Lemma elem_of_checkWashTrading ageMinutes pair l x :
  x ∈ checkWashTrading ageMinutes pair l
  ↔ x ∈ l
    ∨ (JS.gt (marketCap pair ||? 0) 5000000 && (ageMinutes <? 15) = true
       ∧ ((volume_h1 pair ||? 0) <? (marketCap pair ||? 0) * 0.1) = true
       ∧ x = WashTrading (marketCap pair ||? 0)).
Proof. apply elem_of_if_if_push. Qed.

(** Every message [applyFilter] records, with the rule that records it. *)
Lemma elem_of_applyFilter now pair metrics filter x :
  x ∈ failures (applyFilter now pair metrics filter)
  ↔ x ∈ checkLiquidity pair filter []
    ∨ x ∈ checkVolume5m pair filter []
    ∨ x ∈ checkAge ((now - JS.to_number (pairCreatedAt pair)) / (1000 * 60))
                   filter []
    ∨ x ∈ checkHolders metrics filter []
    ∨ x ∈ checkConcentration metrics []
    ∨ x ∈ checkLiquidityRatio pair filter []
    ∨ x ∈ checkBuySellRatio pair filter []
    ∨ x ∈ checkWashTrading
            ((now - JS.to_number (pairCreatedAt pair)) / (1000 * 60)) pair [].
Proof.
  unfold applyFilter. cbv zeta. cbn [failures].
  rewrite elem_of_checkWashTrading, elem_of_checkBuySellRatio,
    elem_of_checkLiquidityRatio, elem_of_checkConcentration,
    elem_of_checkHolders, elem_of_checkAge, elem_of_checkVolume5m.
  rewrite (elem_of_checkWashTrading _ _ []), (elem_of_checkBuySellRatio _ _ []),
    (elem_of_checkLiquidityRatio _ _ []), (elem_of_checkConcentration _ []),
    (elem_of_checkHolders _ _ []), (elem_of_checkAge _ _ []),
    (elem_of_checkVolume5m _ _ []).
  rewrite elem_of_nil. tauto.
Qed.

Ltac failure_cases H :=
  apply elem_of_applyFilter in H;
  rewrite elem_of_checkWashTrading, elem_of_checkBuySellRatio,
    elem_of_checkLiquidityRatio, elem_of_checkConcentration,
    elem_of_checkHolders, elem_of_checkAge, elem_of_checkVolume5m,
    elem_of_checkLiquidity, elem_of_nil in H;
  repeat destruct H as [H|H]; try (exfalso; exact H).

(** Without the liquidity-ratio rule failing, its message is not among
    the failures. *)
Lemma applyFilter_no_liq_ratio_failure now pair metrics filter :
  JS.gt (marketCap pair ||? 0) 0 && JS.gt (liquidity_usd pair ||? 0) 0
  && ((liquidity_usd pair ||? 0) / (marketCap pair ||? 0) * 100
        <? minLiquidityRatio filter ||? 8) = false →
  Forall (λ x, is_liq_ratio_failure x = false)
         (failures (applyFilter now pair metrics filter)).
Proof.
  intros Hrule. apply Forall_forall. intros x H. failure_cases H;
    try (destruct H as (_ & ->); reflexivity);
    try (destruct H as (_ & _ & ->); reflexivity).
  destruct H as (H1 & H2 & _). rewrite H1, H2 in Hrule. discriminate Hrule.
Qed.

(** With the liquidity-ratio rule failing, its message is among the
    failures. *)
Lemma applyFilter_liq_ratio_failure now pair metrics filter :
  JS.gt (marketCap pair ||? 0) 0 && JS.gt (liquidity_usd pair ||? 0) 0
  && ((liquidity_usd pair ||? 0) / (marketCap pair ||? 0) * 100
        <? minLiquidityRatio filter ||? 8) = true →
  LiqMCapBelow ((liquidity_usd pair ||? 0) / (marketCap pair ||? 0) * 100)
               (minLiquidityRatio filter ||? 8)
  ∈ failures (applyFilter now pair metrics filter).
Proof.
  intros Hrule. apply andb_prop in Hrule as (H1 & H2).
  apply elem_of_applyFilter. do 5 right. left.
  apply elem_of_checkLiquidityRatio. right. done.
Qed.

(** Without the holder-count rule failing, its message is not among the
    failures. *)
Lemma applyFilter_no_holders_failure now pair metrics filter :
  JS.gt (holders metrics) 0 && (holders metrics <? minHolders filter) = false →
  Forall (λ x, is_holders_failure x = false)
         (failures (applyFilter now pair metrics filter)).
Proof.
  intros Hrule. apply Forall_forall. intros x H. failure_cases H;
    try (destruct H as (_ & ->); reflexivity);
    try (destruct H as (_ & _ & ->); reflexivity).
  destruct H as (H & _). rewrite H in Hrule. discriminate Hrule.
Qed.

End Filter.

Section FilterClaims.

Local Open Scope float_scope.

(** At a ratio of exactly 8% the Default policy records no liquidity-ratio
    failure: the comparison is strict. *)
Lemma ratio_exactly_8_not_recorded :
  Forall (λ x, is_liq_ratio_failure x = false)
    (failures (applyFilter 0
                 (with_liquidity_marketCap (Some 8000) (Some 100000) zero_pair)
                 zero_metrics DEFAULT_GRADUATION_FILTER)).
Proof. apply applyFilter_no_liq_ratio_failure. vm_compute. reflexivity. Qed.

(** C2 (amended). Under the Default policy ([minLiquidityRatio = 8]) and
    for every pair with [marketCap = 100000], whatever its other fields,
    the metrics and the time: with [liquidity.usd = 8000] (ratio exactly
    8%) no liquidity-ratio failure is recorded, with 7990 (7.99%) it is
    recorded, and with 8010 (8.01%) it is not. *)
Theorem liquidity_ratio_boundary (now : float) (pair : DexScreenerPair)
    (metrics : TokenMetrics) :
  let failures_at liq :=
    failures (applyFilter now
                (with_liquidity_marketCap (Some liq) (Some 100000) pair)
                metrics DEFAULT_GRADUATION_FILTER) in
  Forall (λ x, is_liq_ratio_failure x = false) (failures_at 8000)
  ∧ Exists (λ x, is_liq_ratio_failure x = true) (failures_at 7990)
  ∧ LiqMCapBelow (7990 / 100000 * 100) 8 ∈ failures_at 7990
  ∧ Forall (λ x, is_liq_ratio_failure x = false) (failures_at 8010).
Proof.
  cbv zeta.
  assert (LiqMCapBelow (7990 / 100000 * 100) 8
          ∈ failures (applyFilter now
                        (with_liquidity_marketCap (Some 7990) (Some 100000)
                           pair) metrics DEFAULT_GRADUATION_FILTER)) as Hin.
  { apply (applyFilter_liq_ratio_failure now
             (with_liquidity_marketCap (Some 7990) (Some 100000) pair)
             metrics DEFAULT_GRADUATION_FILTER).
    vm_compute. reflexivity. }
  repeat split.
  - apply applyFilter_no_liq_ratio_failure. vm_compute. reflexivity.
  - apply Exists_exists. eexists. split; [exact Hin|reflexivity].
  - exact Hin.
  - apply applyFilter_no_liq_ratio_failure. vm_compute. reflexivity.
Qed.

(** C8. With [metrics.holders == 0] the filter records no holder-count
    failure, whatever the policy, the pair and the time. *)
Theorem holders_zero_no_failure (now : float) (pair : DexScreenerPair)
    (metrics : TokenMetrics) (filter : GraduationFilter) :
  (holders metrics =? 0) = true →
  Forall (λ x, is_holders_failure x = false)
         (failures (applyFilter now pair metrics filter)).
Proof.
  intros Hzero. apply applyFilter_no_holders_failure.
  by rewrite (eq_zero_not_gt _ Hzero).
Qed.

Lemma holders_zero_no_failure_witness :
  Forall (λ x, is_holders_failure x = false)
         (failures (applyFilter 0 zero_pair zero_metrics
                      CONSERVATIVE_GRADUATION_FILTER)).
Proof.
  apply (holders_zero_no_failure 0 zero_pair zero_metrics
           CONSERVATIVE_GRADUATION_FILTER).
  reflexivity.
Defined.

(** The holder-count rule fails only for a positive holder count. *)
Lemma holders_failure_only_positive now pair metrics filter :
  Exists (λ x, is_holders_failure x = true)
         (failures (applyFilter now pair metrics filter)) →
  JS.gt (holders metrics) 0 = true.
Proof.
  intros H. destruct (JS.gt (holders metrics) 0) eqn:Hgt; [done|].
  pose proof (applyFilter_no_holders_failure now pair metrics filter) as Hno.
  rewrite Hgt in Hno. specialize (Hno eq_refl).
  apply Exists_exists in H as (x & Hx & Hf).
  rewrite Forall_forall in Hno. rewrite (Hno x Hx) in Hf. discriminate Hf.
Qed.

(** [passes] is [failures.length === 0]. *)
Lemma applyFilter_passes now pair metrics filter :
  passes (applyFilter now pair metrics filter) = true
  ↔ failures (applyFilter now pair metrics filter) = [].
Proof.
  unfold applyFilter. cbv zeta. cbn [passes failures].
  rewrite Nat.eqb_eq. apply length_zero_iff_nil.
Qed.

End FilterClaims.

(* ===================================================================== *)
(** ** The three scans *)
(* ===================================================================== *)

Section SortFacts.

Context {A : Type} (compareFn : A → A → float).

Lemma sort_insert_perm (x : A) (l : list A) :
  sort_insert compareFn x l ≡ₚ x :: l.
Proof.
  induction l as [|y l IH]; simpl; [done|].
  destruct (JS.gt _ _); [|done].
  rewrite IH. apply Permutation_swap.
Qed.

Lemma sort_perm (l : list A) : sort compareFn l ≡ₚ l.
Proof.
  induction l as [|x l IH]; simpl; [done|].
  fold (sort compareFn l). by rewrite sort_insert_perm, IH.
Qed.

End SortFacts.

Section ScanFacts.

Local Open Scope float_scope.

Variable helius : HeliusProvider.
Variable Date_now : nat → float.

Lemma scanForGraduations_loop_spec filter pairs t :
  Forall (standard_candidate helius Date_now filter)
         (scanForGraduations_loop helius Date_now filter pairs t).
Proof.
  revert t. induction pairs as [|p pairs IH]; intros t;
    cbn [scanForGraduations_loop]; [done|].
  constructor; [|apply IH].
  exists t, (S t). done.
Qed.

Lemma scanFreshGraduations_loop_spec filter pairs t :
  Forall (fresh_candidate helius Date_now filter)
         (scanFreshGraduations_loop helius Date_now filter pairs t).
Proof.
  revert t. induction pairs as [|p pairs IH]; intros t;
    cbn [scanFreshGraduations_loop]; [done|]. cbv zeta.
  destruct (JS.gt _ _); [apply IH|].
  destruct (passes _) eqn:Hpasses; [|apply IH].
  constructor; [|apply IH].
  exists (S t), (S (S t)). done.
Qed.

Lemma scanAllGraduations_loop_spec maxAge pairs t :
  Forall (unfiltered_candidate helius Date_now)
         (scanAllGraduations_loop helius Date_now maxAge pairs t).
Proof.
  revert t. induction pairs as [|p pairs IH]; intros t;
    cbn [scanAllGraduations_loop]; [done|]. cbv zeta.
  destruct (JS.gt _ _); [apply IH|].
  constructor; [|apply IH].
  split; [by exists (S t)|done].
Qed.

(** The loop over a listing in two parts: the second part starts at the
    reading the first part ends with. *)
Lemma scanAllGraduations_loop_app maxAge before rest t :
  scanAllGraduations_loop helius Date_now maxAge (before ++ rest) t
  = scanAllGraduations_loop helius Date_now maxAge before t
    ++ scanAllGraduations_loop helius Date_now maxAge rest
         (scanAllGraduations_readings Date_now maxAge before t).
Proof.
  revert t. induction before as [|q before IH]; intros t; [done|].
  cbn [app scanAllGraduations_loop scanAllGraduations_readings]. cbv zeta.
  destruct (JS.gt _ _); [apply IH|].
  rewrite IH. done.
Qed.

End ScanFacts.
(* ===================================================================== *)
(** ** Numbers that are not negative *)
(* ===================================================================== *)

Section Signs.

Lemma SFltb_zero_not_negative (x : spec_float) :
  SFltb x (S754_zero false) = false ↔ not_negative x.
Proof. destruct x as [s|s| |s m e]; simpl; try destruct s; simpl; done. Qed.

Lemma SFltb_zero_positive (x : spec_float) :
  SFltb (S754_zero false) x = true →
  x = S754_infinity false ∨ ∃ m e, x = S754_finite false m e.
Proof.
  destruct x as [s|s| |s m e]; simpl; try destruct s; simpl; try done.
  - by left.
  - right. by exists m, e.
Qed.

Lemma binary_round_aux_not_negative (m e : Z) (l : location) :
  not_negative (binary_round_aux prec emax false m e l).
Proof.
  unfold binary_round_aux.
  destruct (shr_fexp prec emax m e l) as [mrs' e'].
  destruct (shr_fexp prec emax _ e' loc_Exact) as [mrs'' e''].
  destruct (shr_m mrs'') as [|p|p]; [done| |done].
  by destruct (e'' <=? emax - prec)%Z.
Qed.

Lemma binary_round_not_negative (m : positive) (e : Z) :
  not_negative (binary_round prec emax false m e).
Proof.
  unfold binary_round. destruct (shl_align m e _) as [mz ez].
  apply binary_round_aux_not_negative.
Qed.

Lemma SFadd_not_negative (x y : spec_float) :
  not_negative x → not_negative y → not_negative (SFadd prec emax x y).
Proof.
  destruct x as [sx|sx| |sx mx ex], y as [sy|sy| |sy my ey];
    try destruct sx; try destruct sy; try done.
  intros _ _. cbn [SFadd cond_Zopp]. cbv zeta. unfold binary_normalize.
  match goal with
  | |- context [match ?d with Z0 => _ | Zpos _ => _ | Zneg _ => _ end] =>
      destruct d as [|p|p] eqn:Hd
  end; [done|apply binary_round_not_negative|lia].
Qed.

Lemma SFmul_not_negative (x y : spec_float) :
  not_negative x → not_negative y → not_negative (SFmul prec emax x y).
Proof.
  destruct x as [sx|sx| |sx mx ex], y as [sy|sy| |sy my ey];
    try destruct sx; try destruct sy; simpl; try done.
  intros _ _. apply binary_round_aux_not_negative.
Qed.

Lemma SFdiv_not_negative (x y : spec_float) :
  not_negative x → SFltb (S754_zero false) y = true →
  not_negative (SFdiv prec emax x y).
Proof.
  intros Hx Hy.
  destruct (SFltb_zero_positive y Hy) as [->|(my & ey & ->)];
    destruct x as [sx|sx| |sx mx ex]; try destruct sx; simpl; try done.
  destruct (SFdiv_core_binary _ _ _ _ _ _) as [[mz ez] lz].
  apply binary_round_aux_not_negative.
Qed.

End Signs.

Section SignsFloat.

Local Open Scope float_scope.

(** Sums, products and quotients by a positive number of numbers that
    are not negative (zero, positive or NaN) are not negative. *)
Lemma add_not_lt_0 (x y : float) :
  (x <? 0) = false → (y <? 0) = false → (x + y <? 0) = false.
Proof.
  rewrite !ltb_spec, add_spec, Prim2SF_zero, !SFltb_zero_not_negative.
  apply SFadd_not_negative.
Qed.

Lemma mul_not_lt_0 (x y : float) :
  (x <? 0) = false → (y <? 0) = false → (x * y <? 0) = false.
Proof.
  rewrite !ltb_spec, mul_spec, Prim2SF_zero, !SFltb_zero_not_negative.
  apply SFmul_not_negative.
Qed.

Lemma div_not_lt_0 (x y : float) :
  (x <? 0) = false → (0 <? y) = true → (x / y <? 0) = false.
Proof.
  rewrite !ltb_spec, div_spec, Prim2SF_zero, !SFltb_zero_not_negative.
  apply SFdiv_not_negative.
Qed.

Lemma or_else_not_lt_0 (x : option float) (d : float) :
  (∀ v, x = Some v → (v <? 0) = false) → (d <? 0) = false →
  (x ||? d <? 0) = false.
Proof.
  intros Hx Hd. destruct x as [v|]; simpl; [|done].
  destruct (JS.truthy v); [by apply Hx|done].
Qed.

End SignsFloat.

(* ===================================================================== *)
(** ** HeliusProvider: no negative answer without a negative reply *)
(* ===================================================================== *)

(** The keys of the holder counts and of the holder lists differ in
    their first character. *)
Lemma cache_keys_apart (mint mint' : string) (limit : Z) :
  Helius.holdersCacheKey mint ≠ Helius.topHoldersCacheKey mint' limit.
Proof.
  unfold Helius.holdersCacheKey, Helius.topHoldersCacheKey.
  intros H. vm_compute in H. discriminate H.
Qed.

Section HeliusFacts.

Import Helius.

Local Open Scope float_scope.

Variable Date_now : nat → float.

Lemma getCached_Some {A} (cache : gmap string (CacheEntry A)) key n v n' :
  getCached Date_now cache key n = (Some v, n') →
  ∃ entry, cache !! key = Some entry ∧ v = data entry.
Proof.
  unfold getCached. destruct (cache !! key) as [entry|]; [|done].
  destruct (_ <? _); [|done]. intros [= <- <-]. by exists entry.
Qed.

(** The holder count is not negative when the answer carries no negative
    total, and the cache stays without negative numbers. *)
Lemma getTokenHolderCount_not_negative mint resp self n :
  cache_not_negative self → reply_not_negative resp →
  let r := getTokenHolderCount Date_now mint resp self n in
  (r.1.1 <? 0) = false ∧ cache_not_negative r.1.2.
Proof.
  intros Hcache Hresp. cbv zeta. unfold getTokenHolderCount.
  destruct (String.eqb (apiKey self) ""); [done|]. cbv zeta.
  destruct (getCached _ _ _ _) as [[cached|] n'] eqn:Hcached.
  - apply getCached_Some in Hcached as (entry & Hentry & ->).
    split; [|done]. destruct Hcache as (Hcounts & _). by eapply Hcounts.
  - destruct resp as [| |result]; [done|done|]. cbn [fst snd].
    assert (((result ≫= total) ||? 0 <? 0) = false) as Hcount.
    { apply or_else_not_lt_0; [|done]. intros v Hv.
      destruct result as [result|]; [|done].
      destruct (Hresp result eq_refl) as (Htotal & _). by apply Htotal. }
    split; [done|]. destruct Hcache as (Hcounts & Htop).
    split; [|done]. cbn [holderCounts]. intros key entry Hentry.
    apply lookup_insert_Some in Hentry as [(_ & <-)|(_ & Hentry)]; [done|].
    by eapply Hcounts.
Qed.

Lemma sum_not_negative {A} (f : A → float) (l : list A) (start : float) :
  (start <? 0) = false → Forall (λ a, (f a <? 0) = false) l →
  (foldl (λ sum a, sum + f a) start l <? 0) = false.
Proof.
  intros Hstart Hall. revert start Hstart.
  induction Hall as [|a l Ha _ IH]; intros start Hstart; [done|].
  cbn [foldl]. apply IH. by apply add_not_lt_0.
Qed.

(** The percentages are not negative when the answer carries no negative
    amount. *)
Lemma getTopHolders_not_negative mint limit resp self n :
  cache_not_negative self → reply_not_negative resp →
  let r := getTopHolders Date_now mint limit resp self n in
  Forall (λ h, (percentage h <? 0) = false) r.1.1
  ∧ cache_not_negative r.1.2.
Proof.
  intros Hcache Hresp. cbv zeta. unfold getTopHolders. cbv zeta.
  destruct (String.eqb (apiKey self) ""); [done|].
  destruct (getCached _ _ _ _) as [[cached|] n'] eqn:Hcached.
  - apply getCached_Some in Hcached as (entry & Hentry & ->).
    split; [|done]. destruct Hcache as (_ & Htop). by eapply Htop.
  - destruct resp as [| |result]; [done|done|]. cbn [fst snd].
    match goal with
    | |- Forall _ ?hs ∧ _ => assert (Forall (λ h, (percentage h <? 0) = false) hs)
                               as Hholders
    end.
    { apply Forall_fmap, Forall_forall. intros acc Hacc.
      cbn [percentage compose].
      destruct (JS.gt _ 0) eqn:Htotal; [|done].
      apply mul_not_lt_0; [|done]. apply div_not_lt_0; [|exact Htotal].
      apply or_else_not_lt_0; [|done]. intros v Hv.
      destruct result as [result|]; [|by apply elem_of_nil in Hacc].
      destruct (Hresp result eq_refl) as (_ & Haccounts).
      cbn [mbind option_bind] in Hacc.
      destruct (token_accounts result) as [accounts|] eqn:Haccs;
        [|by apply elem_of_nil in Hacc].
      specialize (Haccounts accounts eq_refl).
      rewrite Forall_forall in Haccounts. by eapply Haccounts. }
    split; [done|]. destruct Hcache as (Hcounts & Htop).
    split; [done|]. cbn [topHolders]. intros key entry Hentry.
    apply lookup_insert_Some in Hentry as [(_ & <-)|(_ & Hentry)]; [done|].
    by eapply Htop.
Qed.

Lemma getTopHolderConcentration_not_negative mint topN resp self n :
  cache_not_negative self → reply_not_negative resp →
  let r := getTopHolderConcentration Date_now mint topN resp self n in
  (r.1.1 <? 0) = false ∧ cache_not_negative r.1.2.
Proof.
  intros Hcache Hresp. cbv zeta. unfold getTopHolderConcentration. cbv zeta.
  destruct (getTopHolders_not_negative mint (Some (default 10%Z topN)) resp
              self n Hcache Hresp) as (Hholders & Hcache').
  destruct (getTopHolders _ _ _ _ _ _) as [[holders self'] n'].
  cbn [fst snd] in *. split; [|done]. by apply sum_not_negative.
Qed.

End HeliusFacts.

Lemma cache_not_negative_start apiKey :
  Helius.cache_not_negative (Helius.start apiKey).
Proof.
  split; intros key entry Hkey; cbn [Helius.start Helius.holderCounts
    Helius.topHolders] in Hkey; by rewrite lookup_empty in Hkey.
Qed.

Section HeliusAnswers.

Local Open Scope float_scope.

Lemma reached_not_negative self : reached self → Helius.cache_not_negative self.
Proof.
  induction 1 as [apiKey|Date_now mint resp self n _ IH Hresp
                 |Date_now mint limit resp self n _ IH Hresp].
  - apply cache_not_negative_start.
  - by apply getTokenHolderCount_not_negative.
  - by apply getTopHolders_not_negative.
Qed.

Lemma helius_answers_not_negative (helius : HeliusProvider) (mint : string) :
  helius_answers helius →
  (∀ v, getTokenHolderCount helius mint = Resolves v → (v <? 0) = false)
  ∧ (∀ v, getTopHolderConcentration helius mint 10 = Resolves v →
          (v <? 0) = false).
Proof.
  intros Hanswers. destruct (Hanswers mint) as (Hcount & Hconc). split.
  - destruct Hcount as (Date_now & resp & self & n & Hself & Hresp & ->).
    intros v [= <-].
    by apply getTokenHolderCount_not_negative; [apply reached_not_negative|].
  - destruct Hconc as (Date_now & resp & self & n & Hself & Hresp & ->).
    intros v [= <-].
    by apply getTopHolderConcentration_not_negative;
      [apply reached_not_negative|].
Qed.

End HeliusAnswers.

Section ScanClaims.

Local Open Scope float_scope.

(** The unfiltered scan returns the healthy pair with [passesFilter] set
    and a warning in [filterFailures]. *)
Lemma unfiltered_scan_flag_with_warning :
  Exists (λ c, passesFilter c = true ∧ filterFailures c = [WarnNoSocials])
    (scanAllGraduations example_helius example_clock None [healthy_pair] 0).
Proof. vm_compute. apply Exists_cons_hd. done. Qed.

(** C1 (amended). Every candidate of [scanForGraduations] and of
    [scanFreshGraduations] has [passesFilter] true exactly when its
    [filterFailures] is empty.  A candidate of [scanAllGraduations] has
    [passesFilter] false exactly when it meets the hard-reject condition,
    and its [filterFailures] holds the warning badges, whatever the
    flag. *)
Theorem passesFilter_iff_no_failures (helius : HeliusProvider)
    (Date_now : nat → float) (filter : GraduationFilter)
    (maxAge : option float) (pairs : list DexScreenerPair) (t : nat)
    (seenMints : gset string) :
  Forall flag_iff_empty
    (scanForGraduations helius Date_now filter pairs t seenMints).1
  ∧ Forall flag_iff_empty
      (scanFreshGraduations helius Date_now filter pairs t)
  ∧ Forall (λ c, passesFilter c = negb (isAbsoluteScam (pair c) (metrics c))
                 ∧ filterFailures c = generateWarnings (pair c) (metrics c))
      (scanAllGraduations helius Date_now maxAge pairs t).
Proof.
  unfold scanForGraduations, scanFreshGraduations, scanAllGraduations.
  cbv zeta. cbn [fst]. rewrite !sort_perm. repeat split.
  - eapply Forall_impl; [apply scanForGraduations_loop_spec|].
    intros c (n & n' & _ & Hp & Hf & _). unfold flag_iff_empty.
    rewrite Hp, Hf. apply applyFilter_passes.
  - eapply Forall_impl; [apply scanFreshGraduations_loop_spec|].
    intros c (n & n' & _ & _ & Hp & Hf & _). unfold flag_iff_empty.
    by rewrite Hp, Hf.
  - eapply Forall_impl; [apply scanAllGraduations_loop_spec|].
    intros c (_ & Hp & Hf & _). done.
Qed.

(** The unfiltered scan returns the drained pair, which meets the
    hard-reject condition, with [passesFilter] false. *)
Lemma hard_reject_is_returned :
  ∃ c, c ∈ scanAllGraduations example_helius example_clock None
             [drained_pair; healthy_pair] 0
       ∧ pair c = drained_pair
       ∧ isAbsoluteScam (pair c) (metrics c) = true
       ∧ passesFilter c = false.
Proof.
  eexists. split; [vm_compute; apply list_elem_of_here|].
  vm_compute. done.
Qed.

(** C4 (amended). The unfiltered scan excludes no pair that is inside the
    age window when the scan comes to it: a pair whose age, at the clock
    reading the loop tests it with, is not above [maxAgeMinutes] has a
    candidate in the returned list, with the metrics of that moment, with
    [passesFilter] false if it meets the hard-reject condition [(0 <
    liqRatio < 3) || topHolderConcentration > 80] and true otherwise, and
    with the warning badges as its [filterFailures]. *)
Theorem scanAllGraduations_surfaces (helius : HeliusProvider)
    (Date_now : nat → float) (maxAge : option float)
    (before after : list DexScreenerPair) (t : nat) (p : DexScreenerPair) :
  let n := scanAllGraduations_readings Date_now (default 120 maxAge)
             before t in
  JS.gt ((Date_now n - (pairCreatedAt p ||? 0)) / (1000 * 60))
        (default 120 maxAge) = false →
  ∃ c, c ∈ scanAllGraduations helius Date_now maxAge (before ++ p :: after) t
       ∧ pair c = p
       ∧ metrics c = enrich helius 0 0 p (pairToMetrics (Date_now (S n)) p)
       ∧ passesFilter c = negb (isAbsoluteScam p (metrics c))
       ∧ filterFailures c = generateWarnings p (metrics c).
Proof.
  intros n Hage. unfold scanAllGraduations. cbv zeta.
  rewrite scanAllGraduations_loop_app. fold n.
  cbn [scanAllGraduations_loop]. cbv zeta. rewrite Hage.
  eexists. split.
  - rewrite sort_perm. apply elem_of_app. right. apply list_elem_of_here.
  - done.
Qed.

Lemma scanAllGraduations_surfaces_witness :
  ∃ c, c ∈ scanAllGraduations example_helius ticking_clock None
             ([healthy_pair] ++ drained_pair :: [second_pair]) 0
       ∧ pair c = drained_pair
       ∧ metrics c = enrich example_helius 0 0 drained_pair
                       (pairToMetrics (ticking_clock 3) drained_pair)
       ∧ passesFilter c = negb (isAbsoluteScam drained_pair (metrics c))
       ∧ filterFailures c = generateWarnings drained_pair (metrics c).
Proof.
  apply (scanAllGraduations_surfaces example_helius ticking_clock None
           [healthy_pair] [second_pair] 0 drained_pair).
  vm_compute. reflexivity.
Defined.

(** Every returned candidate of the unfiltered scan comes from a pair of
    the listing. *)
Lemma scanAllGraduations_loop_sound helius Date_now maxAge pairs t :
  Forall (λ c, pair c ∈ pairs)
         (scanAllGraduations_loop helius Date_now maxAge pairs t).
Proof.
  revert t. induction pairs as [|p pairs IH]; intros t;
    cbn [scanAllGraduations_loop]; [done|]. cbv zeta.
  assert (∀ t, Forall (λ c, pair c ∈ p :: pairs)
                 (scanAllGraduations_loop helius Date_now maxAge pairs t))
    as IH'.
  { intros t'. eapply Forall_impl; [apply IH|].
    intros c Hc. by apply list_elem_of_further. }
  destruct (JS.gt _ _); [apply IH'|].
  constructor; [apply list_elem_of_here|apply IH'].
Qed.

(** The holder data [enrich] leaves with the defaults 100 and 25. *)
Lemma enrich_defaults (helius : HeliusProvider) (p : DexScreenerPair)
    (m : TokenMetrics) :
  let m' := enrich helius 100 25 p m in
  (failed_or_zero (getTokenHolderCount helius (baseToken_address p))
   → holders m' = 100)
  ∧ (failed_or_zero (getTopHolderConcentration helius (baseToken_address p) 10)
     → topHolderConcentration m' = 25).
Proof.
  cbv zeta. unfold enrich.
  destruct (getTokenHolderCount helius (baseToken_address p)) as [h| |];
    destruct (getTopHolderConcentration helius (baseToken_address p) 10)
      as [k| |];
    cbn [caught set_holders holders topHolderConcentration failed_or_zero
         JS.or_else];
    try (destruct (JS.truthy h) eqn:Hh); try (destruct (JS.truthy k) eqn:Hk);
    split; done.
Qed.

Lemma enrich_positive (helius : HeliusProvider) (p : DexScreenerPair)
    (m : TokenMetrics) :
  (∀ v, getTokenHolderCount helius (baseToken_address p) = Resolves v →
        (v <? 0) = false) →
  (∀ v, getTopHolderConcentration helius (baseToken_address p) 10
        = Resolves v → (v <? 0) = false) →
  let m' := enrich helius 100 25 p m in
  JS.gt (holders m') 0 = true ∧ JS.gt (topHolderConcentration m') 0 = true.
Proof.
  intros Hcount Hconc. cbv zeta. unfold enrich.
  destruct (getTokenHolderCount helius (baseToken_address p)) as [h| |];
    destruct (getTopHolderConcentration helius (baseToken_address p) 10)
      as [k| |];
    cbn [caught set_holders holders topHolderConcentration JS.or_else];
    try specialize (Hcount _ eq_refl); try specialize (Hconc _ eq_refl);
    try (destruct (JS.truthy h) eqn:Hh); try (destruct (JS.truthy k) eqn:Hk);
    split; try done; by apply truthy_not_neg_gt.
Qed.

(** The standard scan served by a provider whose endpoint answers the
    total -1: the candidate has -1 holders, the filter's holder test is
    skipped and the candidate passes. *)
Lemma negative_holder_count_is_emitted :
  Exists (λ c, holders (metrics c) = (-1)
               ∧ JS.gt (holders (metrics c)) 0 = false
               ∧ passesFilter c = true ∧ filterFailures c = [])
    (scanForGraduations (helius_of negative_rpc) example_clock
       DEFAULT_GRADUATION_FILTER [healthy_pair] 0 ∅).1.
Proof. apply Exists_cons_hd. vm_compute. done. Qed.

(** C10 (amended). In the standard and the fresh scan an enrichment that
    fails or returns 0 leaves [holders = 100] and [topHolderConcentration
    = 25]; and when the provider answers as [HeliusProvider] does while
    the RPC endpoint answers no negative holder total and no negative
    account amount, every candidate of these two scans has [holders > 0]
    and [topHolderConcentration > 0], so that neither the filter's
    [holders == 0] exemption nor the scorer's [concentration == 0] skip
    is taken. *)
Theorem standard_and_fresh_holder_data (helius : HeliusProvider)
    (Date_now : nat → float) (filter : GraduationFilter)
    (pairs : list DexScreenerPair) (t : nat) (seenMints : gset string) :
  let standard :=
    (scanForGraduations helius Date_now filter pairs t seenMints).1 in
  let fresh := scanFreshGraduations helius Date_now filter pairs t in
  (Forall (holder_data_defaulted helius) standard
   ∧ Forall (holder_data_defaulted helius) fresh)
  ∧ (helius_answers helius →
     Forall holder_data_positive standard
     ∧ Forall holder_data_positive fresh).
Proof.
  cbv zeta. unfold scanForGraduations, scanFreshGraduations.
  cbv zeta. cbn [fst]. rewrite !sort_perm.
  pose proof (scanForGraduations_loop_spec helius Date_now filter pairs t)
    as Hstandard.
  pose proof (scanFreshGraduations_loop_spec helius Date_now filter pairs t)
    as Hfresh.
  split; [split|intros Hanswers; split].
  - eapply Forall_impl; [exact Hstandard|].
    intros c (n & _ & Hm & _). unfold holder_data_defaulted. rewrite Hm.
    apply enrich_defaults.
  - eapply Forall_impl; [exact Hfresh|].
    intros c (n & _ & Hm & _). unfold holder_data_defaulted. rewrite Hm.
    apply enrich_defaults.
  - eapply Forall_impl; [exact Hstandard|].
    intros c (n & _ & Hm & _). unfold holder_data_positive. rewrite Hm.
    apply enrich_positive;
      by apply (helius_answers_not_negative helius (baseToken_address (pair c))).
  - eapply Forall_impl; [exact Hfresh|].
    intros c (n & _ & Hm & _). unfold holder_data_positive. rewrite Hm.
    apply enrich_positive;
      by apply (helius_answers_not_negative helius (baseToken_address (pair c))).
Qed.

Lemma reply_not_negative_example mint :
  Helius.reply_not_negative (example_rpc mint).
Proof.
  unfold example_rpc. destruct (String.eqb mint "HealthyMint");
    intros result [= <-]; (split; [intros v [= <-]; reflexivity|]);
    intros accounts [= <-].
  repeat constructor; intros v [= <-]; reflexivity.
Qed.

Lemma helius_answers_example : helius_answers (helius_of example_rpc).
Proof.
  intros mint.
  split; exists example_clock, (example_rpc mint), (Helius.start "key"), 0%nat;
    (split; [apply reached_start|]);
    (split; [apply reply_not_negative_example|]); reflexivity.
Qed.

Lemma standard_and_fresh_holder_data_witness :
  let helius := helius_of example_rpc in
  let standard :=
    (scanForGraduations helius ticking_clock DEFAULT_GRADUATION_FILTER
       [healthy_pair; drained_pair] 0 ∅).1 in
  let fresh :=
    scanFreshGraduations helius ticking_clock DEFAULT_GRADUATION_FILTER
      [healthy_pair; drained_pair] 0 in
  (Forall (holder_data_defaulted helius) standard
   ∧ Forall (holder_data_defaulted helius) fresh)
  ∧ Forall holder_data_positive standard
  ∧ Forall holder_data_positive fresh.
Proof.
  destruct (standard_and_fresh_holder_data (helius_of example_rpc)
              ticking_clock DEFAULT_GRADUATION_FILTER
              [healthy_pair; drained_pair] 0 ∅) as [Hdefaults Hpositive].
  split; [exact Hdefaults|]. apply Hpositive. apply helius_answers_example.
Defined.

End ScanClaims.

(* ===================================================================== *)
(** ** The latest-pairs cache *)
(* ===================================================================== *)

Section ProviderClaims.

Import DexScreenerProvider.

Lemma length_slice0 {A} (arr : list A) (e : Z) :
  (0 ≤ e)%Z → (Z.of_nat (length (slice0 arr e)) ≤ e)%Z.
Proof.
  intros He. unfold slice0. rewrite length_take.
  destruct (Z.ltb_spec e 0); lia.
Qed.

(** A call that is not served from the cache returns at most [limit]
    pairs. *)
Lemma fetchLatest_at_most_limit Date_now limit resp self n :
  (0 ≤ limit)%Z →
  (Z.of_nat (length (fetchLatest Date_now limit resp self n).1.1) ≤ limit)%Z.
Proof.
  intros Hlimit. unfold fetchLatest.
  destruct resp as [| |pairs]; cbn [fst]; [simpl; lia..|].
  by apply length_slice0.
Qed.

Lemma getLatestSolanaPairs_uncached Date_now limit resp self n :
  cache self !! latestCacheKey = None →
  (0 ≤ default 50 limit)%Z →
  (Z.of_nat (length (getLatestSolanaPairs Date_now limit resp self n).1.1)
   ≤ default 50 limit)%Z.
Proof.
  intros Hmiss Hlimit. unfold getLatestSolanaPairs. cbv zeta.
  rewrite Hmiss. by apply fetchLatest_at_most_limit.
Qed.

(** A call served from the cache returns the cached pairs, whatever the
    [limit] it was given. *)
Lemma getLatestSolanaPairs_cached Date_now limit resp self n entry :
  cache self !! latestCacheKey = Some entry →
  (Date_now n - timestamp entry <? cacheTTL)%float = true →
  (getLatestSolanaPairs Date_now limit resp self n).1.1 = data entry.
Proof.
  intros Hhit Hfresh. unfold getLatestSolanaPairs. cbv zeta.
  by rewrite Hhit, Hfresh.
Qed.

(** C9. A call with [limit = 2] fills the cache; one second later a call
    with [limit = 1] is served from it and returns two pairs. *)
Theorem getLatestSolanaPairs_cache_ignores_limit :
  let upstream := Ok (Some example_listing) in
  let '(first, provider, n) :=
    getLatestSolanaPairs ticking_clock (Some 2%Z) upstream empty 0 in
  let '(second, _, _) :=
    getLatestSolanaPairs ticking_clock (Some 1%Z) upstream provider n in
  first = [healthy_pair; drained_pair]
  ∧ second = [healthy_pair; drained_pair]
  ∧ (1 < length second)%nat.
Proof. vm_compute. repeat split; lia. Qed.

(** The same two calls on the sibling, whose cache key includes the
    limit: the second call is not served the entry of the first and
    returns one pair. *)
Lemma getLatestPumpFunGraduations_example :
  let fetchPairs := λ _, Ok (Some example_listing) in
  let '(first, provider, n) :=
    getLatestPumpFunGraduations ticking_clock (Some 2%Z) example_boosts
      ListingNotOk fetchPairs empty 0 in
  let '(second, _, _) :=
    getLatestPumpFunGraduations ticking_clock (Some 1%Z) example_boosts
      ListingNotOk fetchPairs provider n in
  first = [healthy_pair; drained_pair] ∧ second = [healthy_pair].
Proof. vm_compute. done. Qed.

Lemma graduationsCacheKey_inj : Inj (=) (=) graduationsCacheKey.
Proof.
  intros l1 l2 H. unfold graduationsCacheKey in H.
  apply (inj (String.append _)) in H. by apply (inj pretty).
Qed.

Lemma graduationsCacheKey_latest limit :
  graduationsCacheKey limit ≠ latestCacheKey.
Proof. unfold graduationsCacheKey, latestCacheKey. simpl. discriminate. Qed.

Lemma graduations_cache_bounded_insert self limit entry :
  graduations_cache_bounded self →
  (Z.of_nat (length (data entry)) ≤ limit)%Z →
  graduations_cache_bounded
    {| cache := <[graduationsCacheKey limit := entry]> (cache self) |}.
Proof.
  intros Hself Hentry l e. cbn [cache].
  destruct (decide (l = limit)) as [->|Hne].
  - rewrite lookup_insert_eq. by intros [= <-].
  - rewrite lookup_insert_ne.
    + apply Hself.
    + intros Heq. by apply graduationsCacheKey_inj in Heq.
Qed.

Lemma fetchGraduations_at_most_limit Date_now limit boosts profiles
    fetchPairs self n :
  graduations_cache_bounded self →
  (0 ≤ limit)%Z →
  let r := fetchGraduations Date_now limit boosts profiles fetchPairs self n in
  (Z.of_nat (length r.1.1) ≤ limit)%Z ∧ graduations_cache_bounded r.1.2.
Proof.
  intros Hself Hlimit. cbv zeta. unfold fetchGraduations. cbv zeta.
  destruct (match boosts with
            | ListingThrows => None
            | ListingNotOk => Some []
            | ListingOk _ => _
            end) as [allPairs|]; [|by simpl].
  destruct (if (_ <? _)%Z then _ else _) as [allPairs0|]; [|by simpl].
  cbn [fst snd]. split.
  - by apply length_slice0.
  - apply graduations_cache_bounded_insert; [done|].
    cbn [data]. by apply length_slice0.
Qed.

(** X8. The sibling returns at most [limit] pairs on every call, served from
    the cache or not, and keeps its cache entries within their limits. *)
Lemma getLatestPumpFunGraduations_at_most_limit Date_now limit boosts
    profiles fetchPairs self n :
  graduations_cache_bounded self →
  (0 ≤ default 50 limit)%Z →
  let r := getLatestPumpFunGraduations Date_now limit boosts profiles
             fetchPairs self n in
  (Z.of_nat (length r.1.1) ≤ default 50 limit)%Z
  ∧ graduations_cache_bounded r.1.2.
Proof.
  intros Hself Hlimit. cbv zeta. unfold getLatestPumpFunGraduations.
  cbv zeta.
  destruct (cache self !! graduationsCacheKey (default 50%Z limit))
    as [entry|] eqn:Hcached;
    [|by apply fetchGraduations_at_most_limit].
  destruct (_ <? cacheTTL)%float;
    [|by apply fetchGraduations_at_most_limit].
  cbn [fst snd]. split; [|done]. by apply (Hself _ _ Hcached).
Qed.

(** [getLatestSolanaPairs] writes under another key of the shared cache
    and leaves the entries of the sibling alone. *)
Lemma getLatestSolanaPairs_keeps_bounded Date_now limit resp self n :
  graduations_cache_bounded self →
  graduations_cache_bounded
    (getLatestSolanaPairs Date_now limit resp self n).1.2.
Proof.
  intros Hself. unfold getLatestSolanaPairs. cbv zeta.
  assert (∀ m, graduations_cache_bounded
                 (fetchLatest Date_now (default 50%Z limit) resp self m).1.2)
    as Hfetch.
  { intros m. unfold fetchLatest.
    destruct resp as [| |pairs]; cbn [fst snd]; [done..|].
    intros l e. cbn [cache].
    rewrite lookup_insert_ne; [apply Hself|].
    intros Heq. by apply (graduationsCacheKey_latest l). }
  destruct (cache self !! latestCacheKey) as [entry|]; [|apply Hfetch].
  destruct (_ <? cacheTTL)%float; [done|apply Hfetch].
Qed.

End ProviderClaims.


Section SendsOnly.

Context {W : Type} (out : W → list Dispatch).

Lemma sends_only_ret {A} P (a : A) : sends_only out P (mret a).
Proof. intros w. exists []. by rewrite app_nil_r. Qed.

Lemma sends_only_bind {A B} P (m : M W A) (f : A → M W B) :
  sends_only out P m → (∀ a, sends_only out P (f a)) →
  sends_only out P (m ≫= f).
Proof.
  intros Hm Hf w. unfold mbind, M_bind.
  destruct (Hm w) as (new1 & E1 & H1).
  destruct (m w) as [a w1]. cbn [snd] in E1.
  destruct (Hf a w1) as (new2 & E2 & H2).
  exists (new1 ++ new2). split.
  - by rewrite E2, E1, app_assoc.
  - by apply Forall_app.
Qed.

Lemma sends_only_fmap {A B} P (g : A → B) (m : M W A) :
  sends_only out P m → sends_only out P (g <$> m).
Proof.
  intros Hm w. unfold fmap, M_fmap.
  destruct (Hm w) as (new & E & H).
  destruct (m w) as [a w1]. by exists new.
Qed.

Lemma sends_only_weaken {A} (P Q : Dispatch → Prop) (m : M W A) :
  (∀ d, P d → Q d) → sends_only out P m → sends_only out Q m.
Proof.
  intros HPQ Hm w. destruct (Hm w) as (new & E & H).
  exists new. split; [done|]. by eapply Forall_impl.
Qed.

(** A computation that leaves the outbox alone. *)
Lemma sends_only_silent {A} P (m : M W A) :
  (∀ w, out (m w).2 = out w) → sends_only out P m.
Proof. intros Hm w. exists []. by rewrite app_nil_r. Qed.

End SendsOnly.

Section TelegramFacts.

Import Telegram.

Variable config : AutopostConfig.
Variable Date_at : nat → Z.
Variable tz : Z.
Variable deliver : string → GraduationCandidate → SendResult.

Lemma newDate_silent P : sends_only outbox P (newDate Date_at).
Proof. by apply sends_only_silent. Qed.

Lemma addCallLog_silent P chatId log :
  sends_only outbox P (addCallLog chatId log).
Proof. by apply sends_only_silent. Qed.

Lemma saveChatConfig_silent P chat :
  sends_only outbox P (saveChatConfig Date_at chat).
Proof. by apply sends_only_silent. Qed.

Lemma sendTelegramMessage_sends (P : Dispatch → Prop) chatId candidate :
  (∀ delivered, P {| recipient := chatId; dispatched := candidate;
                     delivered := delivered |}) →
  sends_only outbox P (sendTelegramMessage deliver chatId candidate).
Proof.
  intros HP w. eexists [_]. split; [reflexivity|].
  constructor; [apply HP|constructor].
Qed.

(** The mints of the logs the service read for a chat. *)
Lemma alreadyPosted_false logs (c : GraduationCandidate) :
  existsb (λ log, String.eqb (token_mint (callCard log))
                             (grad_mint (graduation c))) logs = false →
  grad_mint (graduation c) ∉ (λ log, token_mint (callCard log)) <$> logs.
Proof.
  intros Hposted Hin.
  apply list_elem_of_fmap in Hin as (log & Heq & Hlog).
  assert (existsb (λ log, String.eqb (token_mint (callCard log))
            (grad_mint (graduation c))) logs = true) as Hex.
  { apply existsb_exists. exists log. split.
    - by apply list_elem_of_In.
    - rewrite Heq. apply String.eqb_refl. }
  rewrite Hposted in Hex. discriminate Hex.
Qed.

(** The candidate loop of the Telegram service only sends to its chat,
    only candidates of its list, and never one whose mint is in the logs
    it read for that chat. *)
Lemma sendCalls_skips_logged logs chat chatCandidates sent :
  sends_only outbox
    (λ d, recipient d = chatId chat
          ∧ dispatched d ∈ chatCandidates
          ∧ grad_mint (graduation (dispatched d))
            ∉ (λ log, token_mint (callCard log)) <$> logs)
    (sendCalls Date_at deliver logs chat chatCandidates sent).
Proof.
  revert chat sent.
  induction chatCandidates as [|c rest IH]; intros chat sent.
  - apply sends_only_ret.
  - cbn [sendCalls].
    assert (∀ chat' sent', chatId chat' = chatId chat →
      sends_only outbox
        (λ d, recipient d = chatId chat
              ∧ dispatched d ∈ c :: rest
              ∧ grad_mint (graduation (dispatched d))
                ∉ (λ log, token_mint (callCard log)) <$> logs)
        (sendCalls Date_at deliver logs chat' rest sent')) as IH'.
    { intros chat' sent' Hid.
      eapply sends_only_weaken; [|apply IH].
      intros d (? & ? & ?). rewrite <- Hid.
      repeat split; try done. by apply list_elem_of_further. }
    destruct (existsb _ logs) eqn:Hposted; [by apply IH'|].
    apply sends_only_bind.
    + apply sendTelegramMessage_sends. intros delivered. cbn.
      repeat split; [apply list_elem_of_here|].
      by apply alreadyPosted_false.
    + intros result. destruct (ok result); [|by apply IH'].
      apply sends_only_bind; [apply newDate_silent|]. intros now.
      apply sends_only_bind; [apply newDate_silent|]. intros created.
      apply sends_only_bind; [apply addCallLog_silent|]. intros _.
      apply sends_only_bind; [apply newDate_silent|]. intros lastCall.
      apply sends_only_bind; [apply saveChatConfig_silent|]. intros _.
      by apply IH'.
Qed.

End TelegramFacts.

Section TelegramLimit.

Import Telegram.

Variable Date_at : nat → Z.
Variable tz : Z.
Variable deliver : string → GraduationCandidate → SendResult.

Lemma telegram_isQuietHours_frame chat w :
  callLogs (isQuietHours Date_at chat w).2 = callLogs w
  ∧ outbox (isQuietHours Date_at chat w).2 = outbox w.
Proof.
  unfold isQuietHours.
  destruct (quietHoursStart (policy chat)), (quietHoursEnd (policy chat)); done.
Qed.

(** X5. The daily limit of the Telegram service: a chat whose calls of the
    day, among the 100 latest logs, have reached [maxCallsPerDay] when
    the tick examines it gets no send in that tick. *)
Lemma notifyChat_daily_limit highPotential chat sent w :
  let w1 := (isQuietHours Date_at chat w).2 in
  let today := Calendar.toDateString tz (Date_at (clock w1)) in
  let callsToday :=
    length (filter (λ log, Calendar.toDateString tz (createdAt log) = today)
              (take 100 (default [] (callLogs w !! chatId chat)))) in
  JS.ge (JS.of_nat callsToday) (maxCallsPerDay (policy chat)) = true →
  outbox (notifyChat Date_at tz deliver highPotential chat sent w).2
  = outbox w.
Proof.
  cbv zeta. intros Hcap. unfold notifyChat.
  unfold mbind, M_bind, fmap, M_fmap.
  destruct (telegram_isQuietHours_frame chat w) as (Hlogs & Hout).
  destruct (isQuietHours Date_at chat w) as [quiet w1].
  cbn [snd] in *.
  destruct quiet; [done|].
  unfold newDate, getCallLogs. cbn [callLogs clock with_clock].
  change (default 20%nat (Some 100%nat)) with 100%nat.
  rewrite Hlogs, Hcap. done.
Qed.

(** X7. While the Telegram service processes a chat it sends only to that
    chat, and nothing whose mint is in the logs it read for the chat. *)
Lemma notifyChat_skips_logged highPotential chat sent w :
  ∃ new,
    outbox (notifyChat Date_at tz deliver highPotential chat sent w).2
    = outbox w ++ new
    ∧ Forall (λ d, recipient d = chatId chat
                   ∧ grad_mint (graduation (dispatched d))
                     ∉ (λ log, token_mint (callCard log))
                         <$> take 100 (default [] (callLogs w !! chatId chat)))
             new.
Proof.
  unfold notifyChat. unfold mbind at 1, M_bind at 1.
  destruct (telegram_isQuietHours_frame chat w) as (Hlogs & Hout).
  destruct (isQuietHours Date_at chat w) as [quiet w1]. cbn [snd] in *.
  rewrite <- Hout, <- Hlogs.
  destruct quiet; [exists []; by rewrite app_nil_r|].
  unfold mbind, M_bind, fmap, M_fmap, newDate, getCallLogs.
  cbn [callLogs clock with_clock outbox].
  change (default 20%nat (Some 100%nat)) with 100%nat.
  destruct (JS.ge _ _); [exists []; by rewrite app_nil_r|].
  destruct (Nat.eqb _ 0); [exists []; by rewrite app_nil_r|].
  match goal with
  | |- context [sendCalls _ _ ?logs chat ?cands sent ?w'] =>
      destruct (sendCalls_skips_logged Date_at deliver logs chat cands sent w')
        as (new & Hnew & Hall)
  end.
  exists new. split; [exact Hnew|].
  eapply Forall_impl; [exact Hall|]. intros d (? & _ & ?). done.
Qed.

End TelegramLimit.

Section DiscordFacts.

Import Discord.

Variable config : AutopostConfig.
Variable Date_at : nat → Z.
Variable tz : Z.
Variable deliver : string → GraduationCandidate → bool.

(** The candidate loop of the Discord service sends every high-potential
    candidate to the channel; the call log plays no part. *)
Lemma discord_sendCalls_sends_all guild channel highPotential sent w :
  sends (outbox (sendCalls Date_at deliver guild channel highPotential sent w).2)
  = sends (outbox w)
    ++ ((λ c, (channel, grad_mint (graduation c), deliver channel c))
          <$> highPotential).
Proof.
  revert sent w. induction highPotential as [|c rest IH]; intros sent w.
  - cbn. by rewrite app_nil_r.
  - cbn [sendCalls]. unfold mbind, M_bind, sendDiscordMessage.
    destruct (deliver channel c) eqn:Hsend.
    + unfold newDate, addCallLog. cbn [clock guilds callLogs outbox].
      rewrite IH. cbn [outbox]. unfold sends.
      rewrite fmap_app, <- app_assoc. cbn. by rewrite Hsend.
    + rewrite IH. cbn [outbox]. unfold sends.
      rewrite fmap_app, <- app_assoc. cbn. by rewrite Hsend.
Qed.

Lemma discord_isQuietHours_frame guild w :
  callLogs (isQuietHours Date_at guild w).2 = callLogs w
  ∧ outbox (isQuietHours Date_at guild w).2 = outbox w.
Proof.
  unfold isQuietHours.
  destruct (quietHoursStart (policy guild)), (quietHoursEnd (policy guild)); done.
Qed.

(** X6. The daily limit of the Discord service: a guild whose calls of the
    day have reached [maxCallsPerDay] when the tick examines it gets no
    send in that tick. *)
Lemma notifyGuild_daily_limit highPotential guild sent w :
  let w1 := (isQuietHours Date_at guild w).2 in
  let today := Calendar.toDateString tz (Date_at (clock w1)) in
  let callsToday :=
    length (filter (λ log, Calendar.toDateString tz (createdAt log) = today)
              (default [] (callLogs w !! guildId guild))) in
  JS.ge (JS.of_nat callsToday) (maxCallsPerDay (policy guild)) = true →
  outbox (notifyGuild Date_at tz deliver highPotential guild sent w).2
  = outbox w.
Proof.
  cbv zeta. intros Hcap. unfold notifyGuild.
  destruct (negb _); [done|].
  destruct (channelId guild) as [channel|]; [|done].
  destruct (String.eqb channel ""); [done|].
  unfold mbind, M_bind, fmap, M_fmap.
  destruct (discord_isQuietHours_frame guild w) as (Hlogs & Hout).
  destruct (isQuietHours Date_at guild w) as [quiet w1].
  cbn [snd] in *.
  destruct quiet; [done|].
  unfold newDate, getCallLogs. cbn [callLogs clock].
  rewrite Hlogs, Hcap. done.
Qed.

End DiscordFacts.
(* ===================================================================== *)
(** ** The autopost services *)
(* ===================================================================== *)

Section SchedulerExamples.

(** The healthy pair is a high-potential candidate: it passes the Default
    filter with a score of 9.5. *)
Lemma one_candidate_high_potential :
  (λ c, (grad_mint (graduation c), passesFilter c, score c)) <$> one_candidate
  = [("HealthyMint", true, 9.5%float)].
Proof. vm_compute. reflexivity. Qed.

(** C5. Discord service, two ticks that scan the same candidate: the
    first tick sends it to the guild's channel and logs it, the second
    tick sends it there again although its mint is in the guild's call
    log. *)
Theorem discord_sends_logged_mint_again :
  let w1 := DiscordExample.tick one_candidate
              (DiscordExample.start DiscordExample.guild) in
  let w2 := DiscordExample.tick one_candidate w1 in
  sends (Discord.outbox w1) = [("chan-1", "HealthyMint", true)]
  ∧ DiscordExample.logged w1 = ["HealthyMint"]
  ∧ sends (Discord.outbox w2)
    = [("chan-1", "HealthyMint", true); ("chan-1", "HealthyMint", true)].
Proof. vm_compute. done. Qed.

(** The Telegram service on the same two ticks, restarted in between so
    that only the call log remembers the mint: the second tick sends
    nothing. *)
Lemma telegram_skips_logged_mint :
  let w1 := TelegramExample.tick one_candidate (TelegramExample.start 50) in
  let w2 := TelegramExample.tick one_candidate (TelegramExample.restart w1) in
  sends (Telegram.outbox w1) = [("chat-1", "HealthyMint", true)]
  ∧ TelegramExample.logged w1 = ["HealthyMint"]
  ∧ sends (Telegram.outbox w2) = [("chat-1", "HealthyMint", true)].
Proof. vm_compute. done. Qed.

(** C6. A recipient with [maxCallsPerDay = 1] and an empty call log, one
    tick with two high-potential candidates: both services send both
    candidates, the second after the count for the day has reached the
    cap. *)
Theorem daily_cap_exceeded_within_a_tick :
  let t := TelegramExample.tick two_candidates (TelegramExample.start 1) in
  let d := DiscordExample.tick two_candidates
             (DiscordExample.start DiscordExample.capped_guild) in
  sends (Telegram.outbox t)
  = [("chat-1", "HealthyMint", true); ("chat-1", "SecondMint", true)]
  ∧ length (TelegramExample.logged t) = 2%nat
  ∧ sends (Discord.outbox d)
    = [("chan-1", "HealthyMint", true); ("chan-1", "SecondMint", true)]
  ∧ length (DiscordExample.logged d) = 2%nat.
Proof. vm_compute. done. Qed.

End SchedulerExamples.

(* ===================================================================== *)
(** ** Further properties *)
(* ===================================================================== *)

Section Further.

Local Open Scope float_scope.

(** Quiet hours that wrap past midnight, an example: with [quietHoursStart = 22]
    and [quietHoursEnd = 6] a tick at UTC hour 23 or 2 sends nothing,
    and a tick at UTC hour 12 sends the candidate, in both services. *)
Theorem quiet_hours_wrap :
  QuietExample.telegram_sends_at 23 = []
  ∧ QuietExample.telegram_sends_at 2 = []
  ∧ QuietExample.telegram_sends_at 12 = [("chat-1", "HealthyMint", true)]
  ∧ QuietExample.discord_sends_at 23 = []
  ∧ QuietExample.discord_sends_at 2 = []
  ∧ QuietExample.discord_sends_at 12 = [("chan-1", "HealthyMint", true)].
Proof. vm_compute. done. Qed.

(** The second scoring example: liquidity 60000, buys 10, sells 2,
    5-minute price change 25, market cap 500000 (a ratio of 12%), 250
    holders, concentration 15, no volume.  The blocks add 1, 1, 1, 0.5,
    0.5, 1 and 1 to the base value 5, and the sum 11 is clamped to 10. *)
Theorem calculateScore_strong_inputs (pair : DexScreenerPair)
    (metrics : TokenMetrics) :
  volume_m5 pair = Some 0 → volume_h1 pair = Some 0 →
  liquidity_usd pair = Some 60000 →
  txns_m5_buys pair = Some 10 → txns_m5_sells pair = Some 2 →
  priceChange_m5 pair = Some 25 → marketCap pair = Some 500000 →
  holders metrics = 250 → topHolderConcentration metrics = 15 →
  calculateScore pair metrics = 10
  ∧ scoreHolderConcentration metrics
      (scoreHolderDistribution metrics
        (scoreLiquidityRatio pair
          (scoreMarketCapSanity pair
            (scorePriceMomentum pair
              (scoreBuySellRatio pair
                (scoreLiquidityHealth pair
                  (scoreVolumeMomentum pair 5))))))) = 11.
Proof.
  destruct pair, metrics.
  cbn [volume_m5 volume_h1 liquidity_usd txns_m5_buys txns_m5_sells
       priceChange_m5 marketCap holders topHolderConcentration].
  intros -> -> -> -> -> -> -> -> ->.
  split; vm_compute; reflexivity.
Qed.

Lemma calculateScore_strong_inputs_witness :
  calculateScore strong_pair strong_metrics = 10
  ∧ scoreHolderConcentration strong_metrics
      (scoreHolderDistribution strong_metrics
        (scoreLiquidityRatio strong_pair
          (scoreMarketCapSanity strong_pair
            (scorePriceMomentum strong_pair
              (scoreBuySellRatio strong_pair
                (scoreLiquidityHealth strong_pair
                  (scoreVolumeMomentum strong_pair 5))))))) = 11.
Proof.
  apply (calculateScore_strong_inputs strong_pair strong_metrics);
    reflexivity.
Defined.

(** X3. [scanForGraduations] drops no pair: it returns exactly one
    candidate for every pair of the listing, failing or not. *)
Theorem scanForGraduations_keeps_every_pair (helius : HeliusProvider)
    (Date_now : nat → float) (filter : GraduationFilter)
    (pairs : list DexScreenerPair) (t : nat) (seenMints : gset string) :
  pair <$> (scanForGraduations helius Date_now filter pairs t seenMints).1
  ≡ₚ pairs.
Proof.
  unfold scanForGraduations. cbv zeta. cbn [fst]. rewrite sort_perm.
  revert t. induction pairs as [|p pairs IH]; intros t; [done|].
  cbn [scanForGraduations_loop]. cbv zeta. rewrite fmap_cons.
  cbn [pair]. by rewrite IH.
Qed.

(** X4. The whale-concentration ceiling is not a matter of policy: a
    top-10 concentration above 50 is a failure under every filter. *)
Theorem concentration_above_50_fails (now : float) (pair : DexScreenerPair)
    (metrics : TokenMetrics) (filter : GraduationFilter) :
  JS.gt (topHolderConcentration metrics) 50 = true →
  TopHoldersOwn (topHolderConcentration metrics)
    ∈ failures (applyFilter now pair metrics filter)
  ∧ passes (applyFilter now pair metrics filter) = false.
Proof.
  intros Hgt.
  assert (TopHoldersOwn (topHolderConcentration metrics)
          ∈ failures (applyFilter now pair metrics filter)) as Hin.
  { apply elem_of_applyFilter. do 4 right. left.
    apply elem_of_checkConcentration. right. done. }
  split; [exact Hin|].
  destruct (passes _) eqn:Hpasses; [|done].
  apply applyFilter_passes in Hpasses. rewrite Hpasses in Hin.
  by apply elem_of_nil in Hin.
Qed.

Lemma concentration_above_50_fails_witness :
  TopHoldersOwn 70
    ∈ failures (applyFilter 0 healthy_pair
                  (enrich whale_helius 100 25 healthy_pair
                     (pairToMetrics 0 healthy_pair))
                  AGGRESSIVE_GRADUATION_FILTER)
  ∧ passes (applyFilter 0 healthy_pair
              (enrich whale_helius 100 25 healthy_pair
                 (pairToMetrics 0 healthy_pair))
              AGGRESSIVE_GRADUATION_FILTER) = false.
Proof.
  apply (concentration_above_50_fails 0 healthy_pair
           (enrich whale_helius 100 25 healthy_pair
              (pairToMetrics 0 healthy_pair))
           AGGRESSIVE_GRADUATION_FILTER).
  reflexivity.
Defined.

(** The daily limit at work: the chat of [capped_world] has reached its
    cap of one call, and gets nothing from the next two candidates. *)
Lemma notifyChat_daily_limit_witness :
  Telegram.outbox
    (Telegram.notifyChat ticking_dates 0
       (λ _ _, {| Telegram.ok := true; Telegram.result_messageId := None |})
       two_candidates (TelegramExample.chat 1) 0 capped_world).2
  = Telegram.outbox capped_world.
Proof.
  apply (notifyChat_daily_limit ticking_dates 0
           (λ _ _, {| Telegram.ok := true;
                      Telegram.result_messageId := None |})
           two_candidates (TelegramExample.chat 1) 0 capped_world).
  vm_compute. reflexivity.
Defined.

Lemma notifyGuild_daily_limit_witness :
  Discord.outbox
    (Discord.notifyGuild ticking_dates 0 (λ _ _, true) two_candidates
       DiscordExample.capped_guild 0
       (DiscordExample.tick one_candidate
          (DiscordExample.start DiscordExample.capped_guild))).2
  = Discord.outbox
      (DiscordExample.tick one_candidate
         (DiscordExample.start DiscordExample.capped_guild)).
Proof.
  apply (notifyGuild_daily_limit ticking_dates 0 (λ _ _, true)
           two_candidates DiscordExample.capped_guild 0
           (DiscordExample.tick one_candidate
              (DiscordExample.start DiscordExample.capped_guild))).
  vm_compute. reflexivity.
Defined.

Lemma getLatestPumpFunGraduations_at_most_limit_witness :
  let r := DexScreenerProvider.getLatestPumpFunGraduations ticking_clock
             (Some 2%Z) example_boosts DexScreenerProvider.ListingNotOk
             (λ _, DexScreenerProvider.Ok (Some example_listing))
             DexScreenerProvider.empty 0 in
  (Z.of_nat (length r.1.1) ≤ default 50 (Some 2))%Z
  ∧ graduations_cache_bounded r.1.2.
Proof.
  apply (getLatestPumpFunGraduations_at_most_limit ticking_clock (Some 2%Z)
           example_boosts DexScreenerProvider.ListingNotOk
           (λ _, DexScreenerProvider.Ok (Some example_listing))
           DexScreenerProvider.empty 0).
  - intros limit entry H. vm_compute in H. discriminate H.
  - simpl. lia.
Defined.

End Further.
(* ===================================================================== *)
(** ** The order of the numbers, and subtraction *)
(* ===================================================================== *)

Section FloatOrder.
Local Open Scope float_scope.

Ltac compare_cases :=
  repeat match goal with
  | |- context [(?x ?= ?y)%Z] => destruct (Z.compare_spec x y)
  | |- context [Pos.compare_cont Eq ?x ?y] =>
      change (Pos.compare_cont Eq x y) with (Pos.compare x y);
      destruct (Pos.compare_spec x y)
  end.

(** [SFcompare] is a total preorder on the numbers that are not NaN. *)
Lemma SFcompare_trans a b c :
  SFleb a b = true → SFleb b c = true →
  SFleb a c = true
  ∧ (SFltb a b = true ∨ SFltb b c = true → SFltb a c = true).
Proof.
  unfold SFleb, SFltb.
  destruct a as [sa|sa| |sa ma ea], b as [sb|sb| |sb mb eb],
    c as [sc|sc| |sc mc ec]; simpl;
    try destruct sa; try destruct sb; try destruct sc; simpl;
    compare_cases; simpl; intuition (try congruence; try lia).
Qed.

Lemma SFltb_SFleb a b : SFltb a b = true → SFleb a b = true.
Proof. unfold SFltb, SFleb. by destruct (SFcompare a b) as [[]|]. Qed.

Lemma SFcompare_total a b :
  SFcompare a a = Some Eq → SFcompare b b = Some Eq →
  SFltb a b = negb (SFleb b a).
Proof.
  unfold SFleb, SFltb.
  destruct a as [sa|sa| |sa ma ea], b as [sb|sb| |sb mb eb]; simpl;
    try destruct sa; try destruct sb; simpl; try done;
    compare_cases; simpl; try done; try lia; subst;
    intros _ _;
    repeat match goal with
    | H : (?x < ?x)%Z |- _ => lia
    | H : (?x < ?x)%positive |- _ => lia
    end.
Qed.

(** The order of the numbers, as [<] and [<=] compute it. *)
Lemma ltb_leb (x y : float) : (x <? y) = true → (x <=? y) = true.
Proof. rewrite ltb_spec, leb_spec. apply SFltb_SFleb. Qed.

Lemma leb_trans (x y z : float) :
  (x <=? y) = true → (y <=? z) = true → (x <=? z) = true.
Proof.
  rewrite !leb_spec. intros H1 H2.
  by destruct (SFcompare_trans _ _ _ H1 H2).
Qed.

Lemma ltb_leb_trans (x y z : float) :
  (x <? y) = true → (y <=? z) = true → (x <? z) = true.
Proof.
  rewrite !ltb_spec, !leb_spec. intros H1 H2.
  destruct (SFcompare_trans _ _ _ (SFltb_SFleb _ _ H1) H2) as [_ H].
  apply H. by left.
Qed.

Lemma leb_ltb_trans (x y z : float) :
  (x <=? y) = true → (y <? z) = true → (x <? z) = true.
Proof.
  rewrite !ltb_spec, !leb_spec. intros H1 H2.
  destruct (SFcompare_trans _ _ _ H1 (SFltb_SFleb _ _ H2)) as [_ H].
  apply H. by right.
Qed.

Lemma ltb_trans (x y z : float) :
  (x <? y) = true → (y <? z) = true → (x <? z) = true.
Proof. intros H1 H2. eapply ltb_leb_trans; [done|]. by apply ltb_leb. Qed.

(** Two numbers that are not NaN are comparable. *)
Lemma ltb_negb_leb (x y : float) :
  (x =? x) = true → (y =? y) = true → (x <? y) = negb (y <=? x).
Proof.
  rewrite !FloatAxioms.eqb_spec, ltb_spec, leb_spec. unfold SFeqb.
  intros Hx Hy. apply SFcompare_total.
  - by destruct (SFcompare (Prim2SF x) (Prim2SF x)) as [[]|].
  - by destruct (SFcompare (Prim2SF y) (Prim2SF y)) as [[]|].
Qed.

(** A comparison that holds has no NaN on either side. *)
Lemma leb_not_nan (x y : float) :
  (x <=? y) = true → (x =? x) = true ∧ (y =? y) = true.
Proof.
  rewrite !FloatAxioms.eqb_spec, leb_spec. unfold SFleb, SFeqb.
  destruct (Prim2SF x) as [sa|sa| |sa ma ea], (Prim2SF y) as [sb|sb| |sb mb eb];
    simpl; try done; try destruct sa; try destruct sb; simpl; try done;
    rewrite ?Z.compare_refl, ?Pos.compare_cont_refl; done.
Qed.

Lemma leb_not_nan_refl (x : float) : (x =? x) = true → (x <=? x) = true.
Proof.
  rewrite FloatAxioms.eqb_spec, leb_spec. unfold SFeqb, SFleb.
  by destruct (SFcompare (Prim2SF x) (Prim2SF x)) as [[]|].
Qed.

Lemma eqb_leb (x y : float) : (x =? y) = true → (x <=? y) = true.
Proof.
  rewrite FloatAxioms.eqb_spec, leb_spec. unfold SFeqb, SFleb.
  by destruct (SFcompare (Prim2SF x) (Prim2SF y)) as [[]|].
Qed.

Lemma ltb_not_nan (x y : float) :
  (x <? y) = true → (x =? x) = true ∧ (y =? y) = true.
Proof. intros H. by apply leb_not_nan, ltb_leb. Qed.

End FloatOrder.

Section Subtraction.

Local Open Scope Z_scope.

Lemma digits2_pos_bounds (m : positive) :
  2 ^ (Zpos (digits2_pos m) - 1) ≤ Zpos m < 2 ^ Zpos (digits2_pos m).
Proof.
  induction m as [m IH|m IH|]; cbn [digits2_pos].
  - rewrite Pos2Z.inj_succ, Pos2Z.inj_xI.
    replace (Z.succ (Z.pos (digits2_pos m)) - 1)
      with (Z.succ (Z.pos (digits2_pos m) - 1)) by lia.
    do 2 (rewrite Z.pow_succ_r by lia).
    revert IH. generalize (2 ^ (Z.pos (digits2_pos m) - 1)).
    generalize (2 ^ Z.pos (digits2_pos m)). lia.
  - rewrite Pos2Z.inj_succ.
    replace (Z.succ (Z.pos (digits2_pos m)) - 1)
      with (Z.succ (Z.pos (digits2_pos m) - 1)) by lia.
    do 2 (rewrite Z.pow_succ_r by lia).
    change (Z.pos m~0) with (2 * Z.pos m).
    revert IH. generalize (2 ^ (Z.pos (digits2_pos m) - 1)).
    generalize (2 ^ Z.pos (digits2_pos m)). lia.
  - simpl. lia.
Qed.

Lemma shr_1_m (mrs : shr_record) :
  0 ≤ shr_m mrs → shr_m (shr_1 mrs) = shr_m mrs / 2.
Proof.
  destruct mrs as [m r s]. cbn [shr_m]. intros Hm.
  rewrite <- Z.div2_div.
  destruct m as [|[p|p|]|p]; try reflexivity. lia.
Qed.

Lemma iter_shr_1_m (p : positive) (mrs : shr_record) :
  0 ≤ shr_m mrs →
  shr_m (SpecFloat.iter_pos shr_1 p mrs) = shr_m mrs / 2 ^ Zpos p.
Proof.
  revert mrs. induction p as [p IH|p IH|]; intros mrs Hm; cbn [SpecFloat.iter_pos].
  - assert (0 ≤ shr_m (shr_1 mrs)) as H1
      by (rewrite shr_1_m by done; apply Z.div_pos; lia).
    assert (0 ≤ shr_m (SpecFloat.iter_pos shr_1 p (shr_1 mrs))) as H2
      by (rewrite IH by done; apply Z.div_pos; [done|]; apply Z.pow_pos_nonneg; lia).
    rewrite IH, IH, shr_1_m by done.
    rewrite !Z.div_div by (try apply Z.pow_pos_nonneg; lia).
    f_equal. replace (Z.pos p~1) with (1 + Z.pos p + Z.pos p) by lia.
    rewrite !Z.pow_add_r by lia. change (2 ^ 1) with 2. lia.
  - assert (0 ≤ shr_m (SpecFloat.iter_pos shr_1 p mrs)) as H2
      by (rewrite IH by done; apply Z.div_pos; [done|]; apply Z.pow_pos_nonneg; lia).
    rewrite IH, IH by done.
    rewrite !Z.div_div by (try apply Z.pow_pos_nonneg; lia).
    f_equal. replace (Z.pos p~0) with (Z.pos p + Z.pos p) by lia.
    by rewrite Z.pow_add_r by lia.
  - by apply shr_1_m.
Qed.

Lemma shr_fexp_pos (m e : Z) (l : location) :
  1 ≤ m → emin ≤ e →
  1 ≤ shr_m (shr_fexp prec emax m e l).1
  ∧ emin ≤ (shr_fexp prec emax m e l).2.
Proof.
  intros Hm He. unfold shr_fexp, shr.
  assert (shr_m (shr_record_of_loc m l) = m) as Hrec
    by (by destruct l as [|[]]).
  destruct m as [|p|p]; [lia| |lia]. cbn [Zdigits2].
  destruct (fexp prec emax (Z.pos (digits2_pos p) + e) - e) as [|n|n] eqn:Hn;
    cbn [fst snd]; [rewrite Hrec; lia| |rewrite Hrec; lia].
  rewrite iter_shr_1_m, Hrec by (rewrite Hrec; lia).
  split; [|lia].
  apply Z.div_le_lower_bound; [apply Z.pow_pos_nonneg; lia|].
  rewrite Z.mul_1_r.
  pose proof (digits2_pos_bounds p) as [Hlow _].
  etransitivity; [|exact Hlow].
  apply Z.pow_le_mono_r; [lia|].
  unfold fexp, emin, prec, emax in *. lia.
Qed.

Lemma round_nearest_even_pos (m : Z) (l : location) :
  1 ≤ m → 1 ≤ round_nearest_even m l.
Proof.
  intros Hm. destruct l as [|[]]; simpl; try destruct (Z.even m); lia.
Qed.

(** Rounding a non-zero number keeps its sign: the result is finite or
    infinite, never zero or NaN. *)
Lemma binary_round_aux_signed (s : bool) (m e : Z) (l : location) :
  1 ≤ m → emin ≤ e →
  signed s (binary_round_aux prec emax s m e l).
Proof.
  intros Hm He. unfold binary_round_aux.
  destruct (shr_fexp_pos m e l Hm He) as (H1 & H2).
  destruct (shr_fexp prec emax m e l) as [mrs' e']. cbn [fst snd] in *.
  pose proof (round_nearest_even_pos _ (loc_of_shr_record mrs') H1) as H3.
  destruct (shr_fexp_pos _ e' loc_Exact H3 H2) as (H4 & H5).
  destruct (shr_fexp prec emax _ e' loc_Exact) as [mrs'' e''].
  cbn [fst snd] in *.
  destruct (shr_m mrs'') as [|p|p]; [lia| |lia].
  by destruct (e'' <=? emax - prec).
Qed.

Lemma binary_round_signed (s : bool) (m : positive) (e : Z) :
  emin ≤ e → signed s (binary_round prec emax s m e).
Proof.
  intros He. unfold binary_round.
  destruct (shl_align m e _) as [mz ez] eqn:Halign.
  apply binary_round_aux_signed; [lia|].
  unfold shl_align in Halign.
  destruct (_ - e) eqn:Hd; injection Halign as <- <-; try done.
  unfold fexp. lia.
Qed.

Lemma iter_xO (m d : positive) :
  Zpos (Pos.iter xO m d) = Zpos m * 2 ^ Zpos d.
Proof.
  induction d as [|d IH] using Pos.peano_ind.
  - simpl. lia.
  - rewrite Pos.iter_succ, Pos2Z.inj_succ, Z.pow_succ_r by lia.
    change (Z.pos (Pos.iter xO m d)~0) with (2 * Z.pos (Pos.iter xO m d)).
    rewrite IH. lia.
Qed.

Lemma shl_align_fst (m : positive) (e ez : Z) :
  ez ≤ e → Zpos (shl_align m e ez).1 = Zpos m * 2 ^ (e - ez).
Proof.
  intros He. unfold shl_align.
  destruct (ez - e) as [|d|d] eqn:Hd; cbn [fst].
  - replace (e - ez) with 0 by lia. simpl. lia.
  - lia.
  - rewrite iter_xO. f_equal. f_equal. lia.
Qed.

Lemma canonical_bounds (m : positive) (e : Z) :
  canonical_mantissa prec emax m e = true →
  emin ≤ e ∧ Zpos (digits2_pos m) ≤ prec
  ∧ (emin < e → Zpos (digits2_pos m) = prec).
Proof.
  unfold canonical_mantissa, fexp. rewrite Z.eqb_eq.
  generalize emin. intros emin. lia.
Qed.

(** A canonical number with the smaller exponent is the smaller
    number. *)
Lemma canonical_lt (mx my : positive) (ex ey : Z) :
  canonical_mantissa prec emax mx ex = true →
  canonical_mantissa prec emax my ey = true →
  ex < ey → Zpos mx < Zpos my * 2 ^ (ey - ex).
Proof.
  intros Hx Hy Hlt.
  destruct (canonical_bounds _ _ Hx) as (Hex & Hdx & _).
  destruct (canonical_bounds _ _ Hy) as (_ & _ & Hdy).
  specialize (Hdy ltac:(lia)).
  pose proof (digits2_pos_bounds mx) as [_ Hmx].
  pose proof (digits2_pos_bounds my) as [Hmy _].
  rewrite Hdy in Hmy.
  assert (2 ^ Zpos (digits2_pos mx) ≤ 2 ^ prec) as H1
    by (apply Z.pow_le_mono_r; lia).
  assert (2 ^ 1 ≤ 2 ^ (ey - ex)) as H2 by (apply Z.pow_le_mono_r; lia).
  assert (2 ^ prec = 2 * 2 ^ (prec - 1)) as H3 by reflexivity.
  change (2 ^ 1) with 2 in H2.
  revert Hmx Hmy H1 H2 H3.
  generalize (2 ^ Zpos (digits2_pos mx)) (2 ^ (ey - ex)) (2 ^ prec)
    (2 ^ (prec - 1)).
  intros. nia.
Qed.

Lemma compare_aligned (mx my : positive) (ex ey : Z) :
  canonical_mantissa prec emax mx ex = true →
  canonical_mantissa prec emax my ey = true →
  match ex ?= ey with
  | Lt => Lt
  | Gt => Gt
  | Eq => Pos.compare_cont Eq mx my
  end
  = (Zpos mx * 2 ^ (ex - Z.min ex ey) ?= Zpos my * 2 ^ (ey - Z.min ex ey)).
Proof.
  intros Hx Hy. destruct (Z.compare_spec ex ey) as [Heq|Hlt|Hgt].
  - subst. rewrite Z.min_id, Z.sub_diag. simpl (2 ^ 0).
    rewrite !Z.mul_1_r. reflexivity.
  - rewrite Z.min_l, Z.sub_diag by lia. simpl (2 ^ 0). rewrite Z.mul_1_r.
    symmetry. apply Z.compare_lt_iff. by apply canonical_lt.
  - rewrite Z.min_r, Z.sub_diag by lia. simpl (2 ^ 0). rewrite Z.mul_1_r.
    symmetry. apply Z.compare_gt_iff. by apply canonical_lt.
Qed.

Lemma SFltb_zero_signed (s : bool) (x : spec_float) :
  signed s x → SFltb (S754_zero false) x = negb s.
Proof.
  destruct x as [s'|s'| |s' m e]; simpl; try done; intros ->; by destruct s.
Qed.

(** The difference of two numbers is positive exactly when the first is
    the greater one. *)
Lemma SFsub_positive (a b : spec_float) :
  valid_binary a = true → valid_binary b = true →
  SFltb (S754_zero false) (SFsub prec emax a b) = SFltb b a.
Proof.
  intros Ha Hb.
  destruct a as [sa|sa| |sa ma ea], b as [sb|sb| |sb mb eb];
    try reflexivity;
    try (destruct sa; try destruct sb; reflexivity);
    try (destruct sb; reflexivity).
  cbn [SpecFloat.valid_binary] in Ha, Hb.
  unfold bounded in Ha, Hb.
  apply andb_prop in Ha as (Ha & _), Hb as (Hb & _).
  destruct (canonical_bounds _ _ Ha) as (Hea & _).
  destruct (canonical_bounds _ _ Hb) as (Heb & _).
  cbn [SFsub]. cbv zeta.
  rewrite !shl_align_fst by lia.
  pose proof (compare_aligned mb ma eb ea Hb Ha) as Hcmp.
  rewrite (Z.min_comm eb ea) in Hcmp.
  assert (0 < Zpos ma * 2 ^ (ea - Z.min ea eb)) as Hva
    by (apply Z.mul_pos_pos; [lia|apply Z.pow_pos_nonneg; lia]).
  assert (0 < Zpos mb * 2 ^ (eb - Z.min ea eb)) as Hvb
    by (apply Z.mul_pos_pos; [lia|apply Z.pow_pos_nonneg; lia]).
  revert Hcmp Hva Hvb.
  generalize (Zpos ma * 2 ^ (ea - Z.min ea eb))
    (Zpos mb * 2 ^ (eb - Z.min ea eb)).
  intros va vb Hcmp Hva Hvb.
  assert (emin ≤ Z.min ea eb) as Hez by lia.
  pose proof (Z.compare_spec vb va) as Hspec. rewrite <- Hcmp in Hspec.
  clear Hcmp. unfold SFltb at 2. unfold binary_normalize.
  destruct sa, sb; cbn [cond_Zopp SFcompare];
    (destruct (eb ?= ea); [destruct (Pos.compare_cont Eq mb ma)| |]);
    inversion Hspec; cbn [CompOpp];
    match goal with
    | |- context [match ?d with Z0 => _ | Zpos _ => _ | Zneg _ => _ end] =>
        destruct d as [|p|p] eqn:Hd
    end;
    try rewrite (SFltb_zero_signed _ _ (binary_round_signed _ _ _ Hez));
    cbn [negb]; try reflexivity; lia.
Qed.

End Subtraction.

Section SubtractionFloat.

Local Open Scope float_scope.

(** [x - y > 0] exactly when [x > y]: the comparator [(a, b) => key(b) -
    key(a)] orders by [key], NaN keys apart. *)
Lemma sub_gt_0 (x y : float) : (0 <? x - y) = (y <? x).
Proof.
  rewrite !ltb_spec, sub_spec.
  apply SFsub_positive; apply Prim2SF_valid.
Qed.

(** [x || d] is not NaN when [d] is not. *)
Lemma or_else_not_nan (x : option float) (d : float) :
  (d =? d) = true → (x ||? d =? x ||? d) = true.
Proof.
  intros Hd. destruct x as [v|]; simpl; [|done].
  destruct (JS.truthy v) eqn:Hv; [|done].
  unfold JS.truthy in Hv. by apply andb_prop in Hv as (_ & Hv).
Qed.

End SubtractionFloat.
Section FilterOrder.

Local Open Scope float_scope.

Ltac failure_cases H :=
  apply elem_of_applyFilter in H;
  rewrite elem_of_checkWashTrading, elem_of_checkBuySellRatio,
    elem_of_checkLiquidityRatio, elem_of_checkConcentration,
    elem_of_checkHolders, elem_of_checkAge, elem_of_checkVolume5m,
    elem_of_checkLiquidity, elem_of_nil in H;
  repeat destruct H as [H|H]; try (exfalso; exact H).

(** A filter that passes has recorded no message. *)
Lemma applyFilter_passes_no_failure now pair metrics filter x :
  passes (applyFilter now pair metrics filter) = true →
  x ∈ failures (applyFilter now pair metrics filter) → False.
Proof.
  intros Hp Hx. apply applyFilter_passes in Hp. rewrite Hp in Hx.
  by apply elem_of_nil in Hx.
Qed.

(** X9. Tightening a filter never lets more through. *)
Theorem applyFilter_monotone (now : float) (pair : DexScreenerPair)
    (metrics : TokenMetrics) (strict lax : GraduationFilter) :
  stricter strict lax = true →
  passes (applyFilter now pair metrics strict) = true →
  passes (applyFilter now pair metrics lax) = true.
Proof.
  unfold stricter. intros Hs Hp.
  repeat (apply andb_prop in Hs as [Hs ?]).
  apply applyFilter_passes.
  destruct (failures (applyFilter now pair metrics lax)) as [|x l] eqn:E;
    [done|exfalso].
  assert (x ∈ failures (applyFilter now pair metrics lax)) as Hx
    by (rewrite E; apply list_elem_of_here).
  clear E. failure_cases Hx.
  - destruct Hx as (Hc & _).
    eapply (applyFilter_passes_no_failure _ _ _ _ _ Hp), elem_of_applyFilter.
    left. apply elem_of_checkLiquidity. right. split; [|done].
    by eapply ltb_leb_trans.
  - destruct Hx as (Hc & _).
    eapply (applyFilter_passes_no_failure _ _ _ _ _ Hp), elem_of_applyFilter.
    right; left. apply elem_of_checkVolume5m. right. split; [|done].
    by eapply ltb_leb_trans.
  - destruct Hx as (Hc & _).
    eapply (applyFilter_passes_no_failure _ _ _ _ _ Hp), elem_of_applyFilter.
    do 2 right; left. apply elem_of_checkAge. right. split; [|done].
    unfold JS.gt in *. by eapply leb_ltb_trans.
  - destruct Hx as (Hc & _). apply andb_prop in Hc as (Hpos & Hlt).
    eapply (applyFilter_passes_no_failure _ _ _ _ _ Hp), elem_of_applyFilter.
    do 3 right; left. apply elem_of_checkHolders. right. split; [|done].
    rewrite Hpos. cbn [andb]. by eapply ltb_leb_trans.
  - destruct Hx as (Hc & _).
    eapply (applyFilter_passes_no_failure _ _ _ _ _ Hp), elem_of_applyFilter.
    do 4 right; left. apply elem_of_checkConcentration. right. done.
  - destruct Hx as (Hc & Hlt & _).
    eapply (applyFilter_passes_no_failure _ _ _ _ _ Hp), elem_of_applyFilter.
    do 5 right; left. apply elem_of_checkLiquidityRatio. right.
    split; [done|]. split; [|done]. by eapply ltb_leb_trans.
  - destruct Hx as (Hc & Hlt & _).
    eapply (applyFilter_passes_no_failure _ _ _ _ _ Hp), elem_of_applyFilter.
    do 6 right; left. apply elem_of_checkBuySellRatio. right.
    split; [done|]. split; [|done]. by eapply ltb_leb_trans.
  - destruct Hx as (Hc & Hlt & _).
    eapply (applyFilter_passes_no_failure _ _ _ _ _ Hp), elem_of_applyFilter.
    do 7 right. apply elem_of_checkWashTrading. right. done.
Qed.

Lemma applyFilter_monotone_witness :
  passes (applyFilter 1700000000000 healthy_pair
            (enrich example_helius 100 25 healthy_pair
               (pairToMetrics 1700000000000 healthy_pair))
            DEFAULT_GRADUATION_FILTER) = true.
Proof.
  apply (applyFilter_monotone 1700000000000 healthy_pair
           (enrich example_helius 100 25 healthy_pair
              (pairToMetrics 1700000000000 healthy_pair))
           AGGRESSIVE_GRADUATION_FILTER DEFAULT_GRADUATION_FILTER);
    vm_compute; reflexivity.
Defined.

End FilterOrder.

Section HardReject.

Local Open Scope float_scope.

(** X12. A pair that passes a filter is no hard reject of the unfiltered
    scan, as long as the filter asks for some liquidity and for a
    liquidity ratio of 3% or more. *)
Theorem applyFilter_passes_not_scam (now : float) (pair : DexScreenerPair)
    (metrics : TokenMetrics) (filter : GraduationFilter) :
  (0 <? minLiquidity filter) = true →
  (3 <=? minLiquidityRatio filter ||? 8) = true →
  passes (applyFilter now pair metrics filter) = true →
  isAbsoluteScam pair metrics = false.
Proof.
  intros Hliq Hratio Hp. unfold isAbsoluteScam. cbv zeta.
  apply Bool.orb_false_iff. split.
  - destruct (JS.gt (marketCap pair ||? 0) 0) eqn:Hmcap;
      [|vm_compute; reflexivity].
    destruct (JS.gt (_ / _ * 100) 0) eqn:Hpos; [|done]. cbn [andb].
    destruct (_ / _ * 100 <? 3) eqn:Hlow; [exfalso|done].
    eapply (applyFilter_passes_no_failure _ _ _ _ _ Hp), elem_of_applyFilter.
    do 5 right; left. apply elem_of_checkLiquidityRatio. right.
    split; [|split; [by eapply ltb_leb_trans|done]].
    rewrite Hmcap. cbn [andb]. unfold JS.gt.
    eapply ltb_leb_trans; [exact Hliq|].
    destruct (minLiquidity filter <=? liquidity_usd pair ||? 0) eqn:Hle;
      [done|exfalso].
    eapply (applyFilter_passes_no_failure _ _ _ _ _ Hp), elem_of_applyFilter.
    left. apply elem_of_checkLiquidity. right. split; [|done].
    rewrite ltb_negb_leb, Hle; [done|by apply or_else_not_nan|].
    by apply ltb_not_nan in Hliq as (_ & ?).
  - destruct (JS.gt (topHolderConcentration metrics) 80) eqn:Hc; [exfalso|done].
    eapply (applyFilter_passes_no_failure _ _ _ _ _ Hp), elem_of_applyFilter.
    do 4 right; left. apply elem_of_checkConcentration. right.
    split; [|done]. unfold JS.gt in *.
    eapply ltb_trans; [|exact Hc]. vm_compute. reflexivity.
Qed.

Lemma applyFilter_passes_not_scam_witness :
  isAbsoluteScam healthy_pair
    (enrich example_helius 100 25 healthy_pair
       (pairToMetrics 1700000000000 healthy_pair)) = false.
Proof.
  apply (applyFilter_passes_not_scam 1700000000000 healthy_pair
           (enrich example_helius 100 25 healthy_pair
              (pairToMetrics 1700000000000 healthy_pair))
           DEFAULT_GRADUATION_FILTER);
    vm_compute; reflexivity.
Defined.

Lemma elem_of_if_push_mono {A} (c : bool) (x y : A) (l : list A) :
  x ∈ l → x ∈ (if c then push l y else l).
Proof. intros H. apply elem_of_if_push. by left. Qed.

(** What [generateWarnings] says about the liquidity ratio and about the
    concentration. *)
Lemma generateWarnings_liq_drained pair metrics :
  JS.gt (marketCap pair ||? 0) 0 = true →
  JS.gt ((liquidity_usd pair ||? 0) / (marketCap pair ||? 0) * 100) 0 = true →
  ((liquidity_usd pair ||? 0) / (marketCap pair ||? 0) * 100 <? 5) = true →
  WarnLiqDrained ∈ generateWarnings pair metrics.
Proof.
  intros Hmcap Hpos Hlow. unfold generateWarnings. cbv zeta.
  rewrite Hmcap, Hpos, Hlow. cbn [andb].
  do 4 apply elem_of_if_push_mono.
  destruct (JS.gt (topHolderConcentration metrics) 60);
    [|destruct (JS.gt (topHolderConcentration metrics) 40)];
    unfold push; simpl; apply list_elem_of_here.
Qed.

Lemma generateWarnings_top10 pair metrics :
  JS.gt (topHolderConcentration metrics) 60 = true →
  WarnTop10Above60 ∈ generateWarnings pair metrics.
Proof.
  intros Hc. unfold generateWarnings. cbv zeta. rewrite Hc.
  do 4 apply elem_of_if_push_mono. apply elem_of_push. by right.
Qed.

(** X13. In the unfiltered scan a candidate flagged as a hard reject always
    carries one of the two red badges. *)
Theorem scanAllGraduations_reject_has_badge (helius : HeliusProvider)
    (Date_now : nat → float) (maxAge : option float)
    (pairs : list DexScreenerPair) (t : nat) :
  Forall (λ c, passesFilter c = true
               ∨ WarnLiqDrained ∈ filterFailures c
               ∨ WarnTop10Above60 ∈ filterFailures c)
    (scanAllGraduations helius Date_now maxAge pairs t).
Proof.
  unfold scanAllGraduations. cbv zeta. rewrite sort_perm.
  eapply Forall_impl; [apply scanAllGraduations_loop_spec|].
  intros c (_ & -> & -> & _).
  destruct (isAbsoluteScam (pair c) (metrics c)) eqn:Hscam; [right|by left].
  unfold isAbsoluteScam in Hscam. cbv zeta in Hscam.
  apply Bool.orb_true_iff in Hscam as [Hratio|Hc].
  - left. destruct (JS.gt (marketCap (pair c) ||? 0) 0) eqn:Hmcap;
      [|vm_compute in Hratio; discriminate Hratio].
    apply andb_prop in Hratio as (Hpos & Hlow).
    apply generateWarnings_liq_drained; [done..|].
    eapply ltb_trans; [exact Hlow|]. vm_compute. reflexivity.
  - right. apply generateWarnings_top10. unfold JS.gt in *.
    eapply ltb_trans; [|exact Hc]. vm_compute. reflexivity.
Qed.

End HardReject.

Section Fallbacks.

Local Open Scope float_scope.

Lemma or_else_falsy (x : option float) (d : float) : falsy x → x ||? d = d.
Proof.
  intros Hx. destruct x as [v|]; [|done]. simpl. by rewrite (Hx v eq_refl).
Qed.

(** X14. The two ratio rules cannot be switched off: a filter that leaves
    [minLiquidityRatio] or [minBuySellRatio] out, or sets it to zero,
    is applied with 8 and 0.3 in its place. *)
Theorem applyFilter_ratio_fallbacks (now : float) (pair : DexScreenerPair)
    (metrics : TokenMetrics) (filter : GraduationFilter)
    (liqRatio buySell : option float) :
  falsy liqRatio → falsy buySell →
  applyFilter now pair metrics (with_ratios liqRatio buySell filter)
  = applyFilter now pair metrics (with_ratios (Some 8) (Some 0.3) filter).
Proof.
  intros Hl Hb. unfold applyFilter. cbv zeta.
  unfold checkLiquidityRatio, checkBuySellRatio. cbv zeta.
  cbn [with_ratios minLiquidityRatio minBuySellRatio].
  rewrite (or_else_falsy _ 8 Hl), (or_else_falsy _ 0.3 Hb).
  reflexivity.
Qed.

Lemma applyFilter_ratio_fallbacks_witness :
  applyFilter 1700000000000 drained_pair
    (pairToMetrics 1700000000000 drained_pair)
    (with_ratios None (Some 0) freshFilter)
  = applyFilter 1700000000000 drained_pair
      (pairToMetrics 1700000000000 drained_pair)
      (with_ratios (Some 8) (Some 0.3) freshFilter).
Proof.
  apply (applyFilter_ratio_fallbacks 1700000000000 drained_pair
           (pairToMetrics 1700000000000 drained_pair) freshFilter
           None (Some 0)).
  - intros v H. discriminate H.
  - intros v H. injection H as <-. reflexivity.
Defined.

End Fallbacks.
(* ===================================================================== *)
(** ** Scores and rankings *)
(* ===================================================================== *)

Section Ranking.

Local Open Scope float_scope.

Lemma reachable_scores_on_grid :
  forallb (λ s, on_score_grid (JS.Math_max 0 (JS.Math_min 10 s)))
          reachable_scores = true.
Proof. vm_compute. reflexivity. Qed.

Lemma on_score_grid_elem_of s : on_score_grid s = true → s ∈ score_grid.
Proof.
  unfold on_score_grid. rewrite existsb_exists.
  intros (x & Hx & Heq). apply FloatAxioms.Leibniz.eqb_spec in Heq.
  subst. by apply list_elem_of_In.
Qed.

(** X10. The score is one of the 21 multiples of one half from 0 to 10. *)
Theorem calculateScore_on_grid (pair : DexScreenerPair)
    (metrics : TokenMetrics) :
  calculateScore pair metrics ∈ score_grid.
Proof.
  pose proof reachable_scores_on_grid as Hall.
  rewrite forallb_forall in Hall.
  apply on_score_grid_elem_of.
  apply (Hall _ (proj1 (list_elem_of_In _ _)
                   (unclamped_reachable pair metrics))).
Qed.

(** A score is never NaN. *)
Lemma calculateScore_not_nan pair metrics :
  (calculateScore pair metrics =? calculateScore pair metrics) = true.
Proof.
  pose proof reachable_scores_clamped as Hall.
  rewrite forallb_forall in Hall.
  specialize (Hall _ (proj1 (list_elem_of_In _ _)
                        (unclamped_reachable pair metrics))).
  unfold in_0_10 in Hall. apply andb_prop in Hall as (Hall & _).
  by apply leb_not_nan in Hall as (_ & ?).
Qed.

End Ranking.

Section SortSorted.

Context {A : Type} (compareFn : A → A → float).
Context (R : A → A → Prop) (S : A → Prop).

Hypothesis R_trans : ∀ a b c, R a b → R b c → R a c.
Hypothesis keeps : ∀ a b, S a → S b → JS.gt (compareFn a b) 0 = false → R a b.
Hypothesis moves : ∀ a b, S a → S b → JS.gt (compareFn a b) 0 = true → R b a.

Lemma sort_insert_sorted (x : A) (l : list A) :
  S x → Forall S l → StronglySorted R l →
  StronglySorted R (sort_insert compareFn x l).
Proof.
  intros Hx Hl Hsorted. induction Hsorted as [|y l Hsorted IH Hy]; simpl.
  - repeat constructor.
  - apply Forall_cons in Hl as (HSy & Hl).
    destruct (JS.gt (compareFn x y) 0) eqn:Hgt.
    + constructor; [by apply IH|].
      rewrite sort_insert_perm. constructor; [|done]. by apply moves.
    + specialize (keeps _ _ Hx HSy Hgt).
      constructor; [by constructor|]. constructor; [done|].
      eapply Forall_impl; [exact Hy|]. intros z Hz. by eapply R_trans.
Qed.

Lemma sort_sorted (l : list A) :
  Forall S l → StronglySorted R (sort compareFn l).
Proof.
  unfold sort. induction l as [|x l IH]; intros Hl; simpl.
  - constructor.
  - apply Forall_cons in Hl as (Hx & Hl).
    apply sort_insert_sorted; [done| |by apply IH].
    fold (sort compareFn l). by rewrite sort_perm.
Qed.

End SortSorted.

Section SortByKey.

Local Open Scope float_scope.

Context {A : Type} (key : A → float).

(** Sorting with the comparator [(a, b) => key(b) - key(a)] puts the
    highest key first, as long as no key is NaN. *)
Lemma sort_descending (l : list A) :
  Forall (λ a, (key a =? key a) = true) l →
  StronglySorted (descending key) (sort (λ a b, key b - key a) l).
Proof.
  apply (sort_sorted _ (descending key) (λ a, (key a =? key a) = true)).
  - intros a b c Hab Hbc. unfold descending in *. by eapply leb_trans.
  - intros a b Ha Hb Hgt. unfold descending, JS.gt in *.
    rewrite sub_gt_0, ltb_negb_leb in Hgt by done.
    by apply Bool.negb_false_iff in Hgt.
  - intros a b Ha Hb Hgt. unfold descending, JS.gt in *.
    rewrite sub_gt_0 in Hgt. by apply ltb_leb.
Qed.

End SortByKey.

Section RankingScan.

Local Open Scope float_scope.

(** X11. [scanForGraduations] returns its candidates ordered by score,
    highest first. *)
Theorem scanForGraduations_sorted (helius : HeliusProvider)
    (Date_now : nat → float) (filter : GraduationFilter)
    (pairs : list DexScreenerPair) (t : nat) (seenMints : gset string) :
  StronglySorted (descending score)
    (scanForGraduations helius Date_now filter pairs t seenMints).1.
Proof.
  unfold scanForGraduations. cbv zeta. cbn [fst].
  apply (sort_descending score).
  eapply Forall_impl; [apply scanForGraduations_loop_spec|].
  intros c (n & n' & _ & _ & _ & ->). apply calculateScore_not_nan.
Qed.

(** The key of the creation-time sorts is never NaN. *)
Lemma createdAt_not_nan (p : DexScreenerPair) :
  (pairCreatedAt p ||? 0 =? pairCreatedAt p ||? 0) = true.
Proof. by apply or_else_not_nan. Qed.

(** X16. [scanFreshGraduations] and [scanAllGraduations] return their
    candidates newest first, a pair without creation time counting as
    created at time 0. *)
Theorem scans_newest_first (helius : HeliusProvider)
    (Date_now : nat → float) (filter : GraduationFilter)
    (maxAge : option float) (pairs : list DexScreenerPair) (t : nat) :
  StronglySorted (descending (λ c, pairCreatedAt (pair c) ||? 0))
    (scanFreshGraduations helius Date_now filter pairs t)
  ∧ StronglySorted (descending (λ c, pairCreatedAt (pair c) ||? 0))
      (scanAllGraduations helius Date_now maxAge pairs t).
Proof.
  unfold scanFreshGraduations, scanAllGraduations, byCreationTime.
  cbv zeta. split.
  - apply (sort_descending (λ c, pairCreatedAt (pair c) ||? 0)).
    apply Forall_forall. intros c _. apply createdAt_not_nan.
  - apply (sort_descending (λ c, pairCreatedAt (pair c) ||? 0)).
    apply Forall_forall. intros c _. apply createdAt_not_nan.
Qed.

End RankingScan.
Section ProviderListings.

Import DexScreenerProvider.

Lemma raydiumFilter_sublist seen pairs :
  raydiumFilter seen pairs `sublist_of` pairs.
Proof.
  revert seen. induction pairs as [|p pairs IH]; intros seen; simpl; [done|].
  destruct (_ || _); [by apply sublist_cons|].
  destruct (bool_decide _); [by apply sublist_cons|].
  by apply sublist_skip.
Qed.

Lemma raydiumFilter_ok seen pairs :
  listing_ok (raydiumFilter seen pairs)
  ∧ Forall (λ p, baseToken_address p ∉ seen) (raydiumFilter seen pairs).
Proof.
  revert seen. induction pairs as [|p pairs IH]; intros seen; simpl.
  - repeat split; constructor.
  - destruct (negb (String.eqb (dexId p) "raydium")
              || negb (String.eqb (chainId p) "solana")) eqn:Hdex;
      [apply IH|].
    destruct (bool_decide (baseToken_address p ∈ seen)) eqn:Hseen;
      [apply IH|].
    apply Bool.orb_false_iff in Hdex as (Hd & Hc).
    apply Bool.negb_false_iff, String.eqb_eq in Hd, Hc.
    apply bool_decide_eq_false in Hseen.
    destruct (IH ({[baseToken_address p]} ∪ seen)) as ((Hall & Hnodup) & Hnew).
    repeat split.
    + constructor; [by split|done].
    + rewrite fmap_cons. constructor; [|done].
      intros Hin. apply list_elem_of_fmap in Hin as (q & Heq & Hq).
      rewrite Forall_forall in Hnew. apply (Hnew q Hq).
      rewrite <- Heq. apply elem_of_union. left. by apply elem_of_singleton.
    + constructor; [done|].
      eapply Forall_impl; [exact Hnew|]. intros q Hq Hin. apply Hq.
      apply elem_of_union. by right.
Qed.

Lemma listing_ok_sublist l1 l2 :
  l1 `sublist_of` l2 → listing_ok l2 → listing_ok l1.
Proof.
  intros Hsub (Hall & Hnodup). split.
  - rewrite Forall_forall in *. intros x Hx. apply Hall.
    by eapply elem_of_sublist.
  - eapply sublist_NoDup; [exact Hnodup|]. by apply fmap_sublist.
Qed.

Lemma listing_ok_perm l1 l2 : l1 ≡ₚ l2 → listing_ok l2 → listing_ok l1.
Proof.
  intros Hperm (Hall & Hnodup). split.
  - by rewrite Hperm.
  - by rewrite Hperm.
Qed.

Lemma listing_ok_slice0 l e : listing_ok l → listing_ok (slice0 l e).
Proof. apply listing_ok_sublist. unfold slice0. apply sublist_take. Qed.

Lemma listing_ok_nil : listing_ok [].
Proof. split; constructor. Qed.

Lemma cache_ok_insert self key entry :
  cache_ok self → listing_ok (data entry) →
  cache_ok {| cache := <[key := entry]> (cache self) |}.
Proof.
  intros Hself Hentry k e. cbn [cache].
  destruct (decide (k = key)) as [->|Hne].
  - rewrite lookup_insert_eq. by intros [= <-].
  - rewrite lookup_insert_ne by done. apply Hself.
Qed.

Lemma fetchLatest_ok Date_now limit resp self n :
  cache_ok self →
  listing_ok (fetchLatest Date_now limit resp self n).1.1
  ∧ cache_ok (fetchLatest Date_now limit resp self n).1.2.
Proof.
  intros Hself. unfold fetchLatest.
  destruct resp as [| |pairs]; cbn [fst snd];
    [split; [apply listing_ok_nil|done]..|].
  assert (listing_ok (slice0 (raydiumFilter ∅ (default [] pairs)) limit)) as H
    by apply listing_ok_slice0, raydiumFilter_ok.
  split; [done|]. by apply cache_ok_insert.
Qed.

Lemma fetchGraduations_ok Date_now limit boosts profiles fetchPairs self n :
  cache_ok self →
  let r := fetchGraduations Date_now limit boosts profiles fetchPairs self n in
  listing_ok r.1.1 ∧ cache_ok r.1.2.
Proof.
  intros Hself. cbv zeta. unfold fetchGraduations. cbv zeta.
  destruct (match boosts with
            | ListingThrows => None
            | ListingNotOk => Some []
            | ListingOk _ => _
            end) as [allPairs|];
    [|split; [apply listing_ok_nil|done]].
  destruct (if (_ <? _)%Z then _ else _) as [allPairs0|];
    [|split; [apply listing_ok_nil|done]].
  cbn [fst snd].
  assert (listing_ok
            (slice0 (sort newestFirst (raydiumFilter ∅ allPairs0)) limit)) as H.
  { apply listing_ok_slice0.
    eapply listing_ok_perm; [apply sort_perm|]. apply raydiumFilter_ok. }
  split; [done|]. by apply cache_ok_insert.
Qed.

(** X15. Whatever the upstream answers, the two listing calls return
    Raydium pairs on Solana only and no base token twice, and every
    entry they put in the cache is such a list. *)
Theorem provider_listings_ok (Date_now : nat → float) (limit : option Z)
    (resp : response) (boosts profiles : listing)
    (fetchPairs : list string → response) (self : t) (n : nat) :
  cache_ok self →
  let latest := getLatestSolanaPairs Date_now limit resp self n in
  let graduations :=
    getLatestPumpFunGraduations Date_now limit boosts profiles fetchPairs
      self n in
  (listing_ok latest.1.1 ∧ cache_ok latest.1.2)
  ∧ (listing_ok graduations.1.1 ∧ cache_ok graduations.1.2).
Proof.
  intros Hself. cbv zeta. split.
  - unfold getLatestSolanaPairs. cbv zeta.
    destruct (cache self !! latestCacheKey) as [entry|] eqn:Hcached;
      [|by apply fetchLatest_ok].
    destruct (_ <? cacheTTL)%float; [|by apply fetchLatest_ok].
    cbn [fst snd]. split; [|done]. by apply (Hself _ _ Hcached).
  - unfold getLatestPumpFunGraduations. cbv zeta.
    destruct (cache self !! graduationsCacheKey (default 50%Z limit))
      as [entry|] eqn:Hcached; [|by apply fetchGraduations_ok].
    destruct (_ <? cacheTTL)%float; [|by apply fetchGraduations_ok].
    cbn [fst snd]. split; [|done]. by apply (Hself _ _ Hcached).
Qed.

Lemma provider_listings_ok_witness :
  let latest :=
    getLatestSolanaPairs ticking_clock (Some 2%Z) (Ok (Some example_listing))
      empty 0 in
  let graduations :=
    getLatestPumpFunGraduations ticking_clock (Some 2%Z) example_boosts
      ListingNotOk (λ _, Ok (Some example_listing)) empty 0 in
  (listing_ok latest.1.1 ∧ cache_ok latest.1.2)
  ∧ (listing_ok graduations.1.1 ∧ cache_ok graduations.1.2).
Proof.
  apply (provider_listings_ok ticking_clock (Some 2%Z)
           (Ok (Some example_listing)) example_boosts ListingNotOk
           (λ _, Ok (Some example_listing)) empty 0).
  intros key entry H. cbn in H. rewrite lookup_empty in H. discriminate H.
Defined.

End ProviderListings.

Section ProviderLookup.

Import DexScreenerProvider DexScreenerLookup.

Local Open Scope float_scope.

Lemma raydium_filter_spec (p : DexScreenerPair) :
  String.eqb (dexId p) "raydium" && String.eqb (chainId p) "solana" = true
  ↔ raydiumOnSolana p.
Proof.
  unfold raydiumOnSolana.
  rewrite andb_true_iff, !String.eqb_eq. done.
Qed.

(** X17. [getPairByMint] answers [null] exactly when the tokens endpoint
    names no Raydium pair on Solana; otherwise it answers such a pair of
    the endpoint's list, and none of the others has more liquidity. *)
Theorem getPairByMint_most_liquid (resp : response) :
  match getPairByMint resp with
  | Some p =>
      p ∈ pairs_of resp ∧ raydiumOnSolana p
      ∧ Forall (λ q, raydiumOnSolana q →
                     (liquidity_usd q ||? 0 <=? liquidity_usd p ||? 0) = true)
               (pairs_of resp)
  | None => Forall (λ q, ¬ raydiumOnSolana q) (pairs_of resp)
  end.
Proof.
  unfold getPairByMint.
  destruct resp as [| |[pairs|]]; cbn [pairs_of default]; try constructor.
  cbv zeta.
  match goal with
  | |- context [sort _ ?l] => set (raydium := l)
  end.
  assert (∀ q, q ∈ raydium ↔ q ∈ pairs ∧ raydiumOnSolana q) as Hraydium.
  { intros q. unfold raydium. rewrite list_elem_of_filter.
    rewrite raydium_filter_spec. tauto. }
  pose proof (sort_perm byLiquidity raydium) as Hperm.
  assert (StronglySorted (descending (λ p, liquidity_usd p ||? 0))
            (sort byLiquidity raydium)) as Hsorted.
  { apply (sort_descending (λ p, liquidity_usd p ||? 0)).
    apply Forall_forall. intros q _. by apply or_else_not_nan. }
  destruct (sort byLiquidity raydium) as [|p rest] eqn:Hsort; cbn [head].
  - apply Forall_forall. intros q Hq Hray.
    assert (q ∈ raydium) as Hin by (by apply Hraydium).
    rewrite <- Hperm in Hin. by apply elem_of_nil in Hin.
  - assert (p ∈ raydium) as Hp by (rewrite <- Hperm; apply list_elem_of_here).
    apply Hraydium in Hp as (Hp & Hray). split; [done|]. split; [done|].
    apply Forall_forall. intros q Hq Hqray.
    assert (q ∈ p :: rest) as Hin by (rewrite Hperm; by apply Hraydium).
    apply StronglySorted_inv in Hsorted as (_ & Hrest).
    apply elem_of_cons in Hin as [->|Hin].
    + apply leb_not_nan_refl. by apply or_else_not_nan.
    + rewrite Forall_forall in Hrest. by apply Hrest.
Qed.

End ProviderLookup.
(* ===================================================================== *)
(** ** What a tick sends *)
(* ===================================================================== *)

Section TelegramTick.

Import Telegram.

Variable config : AutopostConfig.
Variable Date_at : nat → Z.
Variable tz : Z.
Variable deliver : string → GraduationCandidate → SendResult.

Lemma isQuietHours_silent P chat :
  sends_only outbox P (isQuietHours Date_at chat).
Proof.
  apply sends_only_silent. intros w.
  apply (telegram_isQuietHours_frame Date_at chat w).
Qed.

(** What [notifyChat] sends goes to its chat and reaches the score the
    chat asks for. *)
Lemma notifyChat_sends highPotential chat sent :
  sends_only outbox
    (λ d, recipient d = chatId chat
          ∧ dispatched d ∈ highPotential
          ∧ JS.ge (score (dispatched d)) (chatMinScore chat) = true)
    (notifyChat Date_at tz deliver highPotential chat sent).
Proof.
  unfold notifyChat.
  apply sends_only_bind; [apply isQuietHours_silent|]. intros quiet.
  destruct quiet; [apply sends_only_ret|].
  apply sends_only_bind;
    [apply sends_only_fmap, newDate_silent|]. intros today.
  apply sends_only_bind; [by apply sends_only_silent|]. intros logs.
  destruct (JS.ge _ _); [apply sends_only_ret|].
  destruct (Nat.eqb _ 0); [apply sends_only_ret|].
  eapply sends_only_weaken; [|apply sendCalls_skips_logged].
  intros d (Hto & Hin & _). split; [done|].
  apply list_elem_of_filter in Hin as (Hscore & Hin). done.
Qed.

Lemma notifyChats_sends highPotential chats sent :
  sends_only outbox
    (λ d, dispatched d ∈ highPotential
          ∧ ∃ chat, chat ∈ chats ∧ recipient d = chatId chat
                    ∧ JS.ge (score (dispatched d)) (chatMinScore chat) = true)
    (notifyChats Date_at tz deliver highPotential chats sent).
Proof.
  revert sent. induction chats as [|chat rest IH]; intros sent;
    cbn [notifyChats]; [apply sends_only_ret|].
  apply sends_only_bind.
  - eapply sends_only_weaken; [|apply notifyChat_sends].
    intros d (Hto & Hin & Hscore). split; [done|].
    exists chat. split; [apply list_elem_of_here|done].
  - intros sent'. eapply sends_only_weaken; [|apply IH].
    intros d (Hin & chat' & Hchat & H). split; [done|].
    exists chat'. split; [by apply list_elem_of_further|done].
Qed.

Lemma markSeen_silent P highPotential :
  sends_only outbox P (markSeen highPotential).
Proof.
  apply sends_only_silent. intros w. unfold markSeen.
  by destruct (Nat.ltb 0 _).
Qed.

Lemma telegram_scanAndNotify_sends candidates w :
  ∃ new,
    outbox (scanAndNotify config Date_at tz deliver candidates w).2
    = outbox w ++ new
    ∧ Forall (telegram_qualified config candidates w) new.
Proof.
  unfold scanAndNotify.
  unfold mbind at 1, M_bind at 1, newDate at 1.
  unfold mbind at 1, M_bind at 1, getActiveChats at 1.
  cbn [chats with_clock].
  destruct (Nat.eqb _ 0); [exists []; cbn; by rewrite app_nil_r|].
  unfold mbind at 1, M_bind at 1, getSeenTokens at 1.
  cbn [seenTokens with_clock].
  match goal with
  | |- context [markSeen ?hp] => set (highPotential := hp)
  end.
  match goal with
  | |- context [notifyChats _ _ _ _ ?cs 0%nat] => set (active := cs)
  end.
  assert (sends_only outbox
            (telegram_qualified config candidates w)
            (markSeen highPotential;;
             sent ← notifyChats Date_at tz deliver highPotential active 0;
             mret (sent, length highPotential))) as Hsends.
  { apply sends_only_bind; [apply markSeen_silent|]. intros _.
    apply sends_only_bind; [|intros sent; apply sends_only_ret].
    eapply sends_only_weaken; [|apply notifyChats_sends].
    intros d (Hin & chat & Hchat & Hto & Hscore).
    apply list_elem_of_filter in Hin as (Hhp & Hin).
    apply list_elem_of_filter in Hchat as (Hactive & Hchat).
    apply andb_prop in Hhp as (Hnew & Hpasses).
    apply andb_prop in Hpasses as (Hpasses & Hmin).
    apply Bool.negb_true_iff, bool_decide_eq_false in Hnew.
    repeat split; try done. by exists chat. }
  destruct (Hsends (with_clock S w)) as (new & Hout & Hall).
  exists new. split; [exact Hout|exact Hall].
Qed.

(** X18. A tick of the Telegram service sends nothing but candidates of
    the scan that pass the filter, reach the service's minimum score and
    the chat's, and were not seen before the tick; and it sends them to
    stored chats with autopost enabled only. *)
Theorem telegram_tick_sends_qualified
    (candidates : list GraduationCandidate) (w : World) :
  ∃ new,
    outbox (scanAndNotify config Date_at tz deliver candidates w).2
    = outbox w ++ new
    ∧ Forall (telegram_qualified config candidates w) new.
Proof. apply telegram_scanAndNotify_sends. Qed.

End TelegramTick.

Section DiscordTick.

Import Discord.

Variable config : AutopostConfig.
Variable Date_at : nat → Z.
Variable tz : Z.
Variable deliver : string → GraduationCandidate → bool.

Lemma discord_sendCalls_sends guild channel highPotential sent :
  sends_only outbox
    (λ d, recipient d = channel ∧ dispatched d ∈ highPotential)
    (sendCalls Date_at deliver guild channel highPotential sent).
Proof.
  revert sent. induction highPotential as [|c rest IH]; intros sent;
    cbn [sendCalls]; [apply sends_only_ret|].
  assert (∀ sent',
    sends_only outbox (λ d, recipient d = channel ∧ dispatched d ∈ c :: rest)
      (sendCalls Date_at deliver guild channel rest sent')) as IH'.
  { intros sent'. eapply sends_only_weaken; [|apply IH].
    intros d (? & ?). split; [done|]. by apply list_elem_of_further. }
  apply sends_only_bind.
  - intros w. eexists [_]. split; [reflexivity|].
    constructor; [|constructor]. cbn. split; [done|apply list_elem_of_here].
  - intros success. destruct success; [|apply IH'].
    apply sends_only_bind; [by apply sends_only_silent|]. intros now.
    apply sends_only_bind; [by apply sends_only_silent|]. intros created.
    apply sends_only_bind; [by apply sends_only_silent|]. intros _.
    apply IH'.
Qed.

Lemma notifyGuild_sends highPotential guild sent :
  sends_only outbox
    (λ d, dispatched d ∈ highPotential
          ∧ autopostEnabled (policy guild) = true
          ∧ channelId guild = Some (recipient d)
          ∧ recipient d ≠ "")
    (notifyGuild Date_at tz deliver highPotential guild sent).
Proof.
  unfold notifyGuild.
  destruct (autopostEnabled (policy guild)) eqn:Henabled;
    cbn [negb]; [|apply sends_only_ret].
  destruct (channelId guild) as [channel|] eqn:Hchannel;
    [|apply sends_only_ret].
  destruct (String.eqb channel "") eqn:Hempty; [apply sends_only_ret|].
  apply String.eqb_neq in Hempty.
  apply sends_only_bind.
  { apply sends_only_silent. intros w.
    apply (discord_isQuietHours_frame Date_at guild w). }
  intros quiet. destruct quiet; [apply sends_only_ret|].
  apply sends_only_bind;
    [by apply sends_only_fmap, sends_only_silent|]. intros today.
  apply sends_only_bind; [by apply sends_only_silent|]. intros logs.
  destruct (JS.ge _ _); [apply sends_only_ret|].
  destruct (Nat.eqb _ 0); [apply sends_only_ret|].
  eapply sends_only_weaken; [|apply discord_sendCalls_sends].
  intros d (-> & Hin). done.
Qed.

Lemma notifyGuilds_sends highPotential guilds sent :
  sends_only outbox
    (λ d, dispatched d ∈ highPotential
          ∧ ∃ guild, guild ∈ guilds
                     ∧ autopostEnabled (policy guild) = true
                     ∧ channelId guild = Some (recipient d)
                     ∧ recipient d ≠ "")
    (notifyGuilds Date_at tz deliver highPotential guilds sent).
Proof.
  revert sent. induction guilds as [|guild rest IH]; intros sent;
    cbn [notifyGuilds]; [apply sends_only_ret|].
  apply sends_only_bind.
  - eapply sends_only_weaken; [|apply notifyGuild_sends].
    intros d (Hin & H). split; [done|].
    exists guild. split; [apply list_elem_of_here|done].
  - intros sent'. eapply sends_only_weaken; [|apply IH].
    intros d (Hin & guild' & Hguild & H). split; [done|].
    exists guild'. split; [by apply list_elem_of_further|done].
Qed.

(** X19. A tick of the Discord service sends nothing but candidates of the
    scan that pass the filter and reach the service's minimum score, and
    it sends them to the channels of guilds with autopost enabled
    only. *)
Theorem discord_tick_sends_qualified
    (candidates : list GraduationCandidate) (w : World) :
  ∃ new,
    outbox (scanAndNotify config Date_at tz deliver candidates w).2
    = outbox w ++ new
    ∧ Forall (discord_qualified config candidates w) new.
Proof.
  unfold scanAndNotify.
  unfold mbind at 1, M_bind at 1, newDate at 1.
  unfold mbind at 1, M_bind at 1, getAllGuilds at 1.
  cbn [guilds].
  match goal with
  | |- context [notifyGuilds _ _ _ ?hp ?gs 0%nat] =>
      set (highPotential := hp)
  end.
  assert (sends_only outbox (discord_qualified config candidates w)
            (sent ← notifyGuilds Date_at tz deliver highPotential
                      (guilds w) 0;
             mret (sent, length highPotential))) as Hsends.
  { apply sends_only_bind; [|intros sent; apply sends_only_ret].
    eapply sends_only_weaken; [|apply notifyGuilds_sends].
    intros d (Hin & guild & Hguild & H).
    apply list_elem_of_filter in Hin as (Hhp & Hin).
    apply Is_true_true, andb_prop in Hhp as (Hpasses & Hmin).
    repeat split; try done. by exists guild. }
  match goal with
  | |- context [(_ ≫= _) ?w'] => destruct (Hsends w') as (new & Hout & Hall)
  end.
  exists new. split; [exact Hout|exact Hall].
Qed.

End DiscordTick.
(* ===================================================================== *)
(** ** The [sent] counter *)
(* ===================================================================== *)

Section SendsPost.

Context {W : Type} (out : W → list Dispatch).

Lemma sends_post_ret {A} (Q : A → list Dispatch → Prop) (a : A) :
  Q a [] → sends_post out Q (mret a).
Proof. intros HQ w. exists []. by rewrite app_nil_r. Qed.

Lemma sends_post_bind {A B} (Q1 : A → list Dispatch → Prop)
    (Q2 : A → B → list Dispatch → Prop) (Q : B → list Dispatch → Prop)
    (m : M W A) (f : A → M W B) :
  sends_post out Q1 m →
  (∀ a, sends_post out (Q2 a) (f a)) →
  (∀ a b new1 new2, Q1 a new1 → Q2 a b new2 → Q b (new1 ++ new2)) →
  sends_post out Q (m ≫= f).
Proof.
  intros Hm Hf HQ w. unfold mbind, M_bind.
  destruct (Hm w) as (new1 & E1 & H1).
  destruct (m w) as [a w1]. cbn [fst snd] in *.
  destruct (Hf a w1) as (new2 & E2 & H2).
  exists (new1 ++ new2). split.
  - by rewrite E2, E1, app_assoc.
  - by eapply HQ.
Qed.

(** A step that leaves the outbox alone. *)
Lemma sends_post_silent {A B} (Q : B → list Dispatch → Prop)
    (m : M W A) (f : A → M W B) :
  (∀ w, out (m w).2 = out w) →
  (∀ a, sends_post out Q (f a)) →
  sends_post out Q (m ≫= f).
Proof.
  intros Hm Hf w. unfold mbind, M_bind.
  specialize (Hm w). destruct (m w) as [a w1]. cbn [snd] in Hm.
  destruct (Hf a w1) as (new & E & H).
  exists new. by rewrite E, Hm.
Qed.

Lemma count_delivered_app new1 new2 :
  count_delivered (new1 ++ new2)
  = (count_delivered new1 + count_delivered new2)%nat.
Proof. unfold count_delivered. by rewrite filter_app, length_app. Qed.

End SendsPost.

Section TelegramCounter.

Import Telegram.

Variable config : AutopostConfig.
Variable Date_at : nat → Z.
Variable tz : Z.
Variable deliver : string → GraduationCandidate → SendResult.

Lemma telegram_sendCalls_count logs chat chatCandidates sent :
  sends_post outbox (λ sent' new, sent' = (sent + count_delivered new)%nat)
    (sendCalls Date_at deliver logs chat chatCandidates sent).
Proof.
  revert chat sent.
  induction chatCandidates as [|c rest IH]; intros chat sent;
    cbn [sendCalls]; [by apply sends_post_ret|].
  destruct (existsb _ logs); [apply IH|].
  eapply (sends_post_bind _
            (λ result new,
               count_delivered new = if ok result then 1%nat else 0%nat)
            (λ result sent' new,
               sent' = ((if ok result then S sent else sent)
                        + count_delivered new)%nat)).
  - intros w. eexists [_]. split; [reflexivity|].
    unfold sendTelegramMessage, count_delivered. cbv beta zeta. cbn [fst].
    destruct (ok (deliver (chatId chat) c)) eqn:Hok.
    + by rewrite filter_cons_True.
    + by rewrite filter_cons_False.
  - intros result. destruct (ok result); [|apply IH].
    apply sends_post_silent; [done|]. intros now.
    apply sends_post_silent; [done|]. intros created.
    apply sends_post_silent; [done|]. intros _.
    apply sends_post_silent; [done|]. intros lastCall.
    apply sends_post_silent; [done|]. intros _.
    apply IH.
  - intros result sent' new1 new2 H1 ->. rewrite count_delivered_app, H1.
    destruct (ok result); lia.
Qed.

Lemma telegram_notifyChat_count highPotential chat sent :
  sends_post outbox (λ sent' new, sent' = (sent + count_delivered new)%nat)
    (notifyChat Date_at tz deliver highPotential chat sent).
Proof.
  unfold notifyChat.
  apply sends_post_silent.
  { intros w. apply (telegram_isQuietHours_frame Date_at chat w). }
  intros quiet. destruct quiet; [apply sends_post_ret; cbn; lia|].
  apply sends_post_silent; [done|]. intros today.
  apply sends_post_silent; [done|]. intros logs.
  destruct (JS.ge _ _); [apply sends_post_ret; cbn; lia|].
  destruct (Nat.eqb _ 0); [apply sends_post_ret; cbn; lia|].
  apply telegram_sendCalls_count.
Qed.

Lemma telegram_notifyChats_count highPotential chats sent :
  sends_post outbox (λ sent' new, sent' = (sent + count_delivered new)%nat)
    (notifyChats Date_at tz deliver highPotential chats sent).
Proof.
  revert sent. induction chats as [|chat rest IH]; intros sent;
    cbn [notifyChats]; [apply sends_post_ret; cbn; lia|].
  eapply sends_post_bind.
  - apply telegram_notifyChat_count.
  - intros sent'. apply IH.
  - intros a b new1 new2 -> ->. rewrite count_delivered_app. lia.
Qed.

Lemma telegram_scanAndNotify_count candidates :
  sends_post outbox (λ r new, r.1 = count_delivered new)
    (scanAndNotify config Date_at tz deliver candidates).
Proof.
  unfold scanAndNotify.
  apply sends_post_silent; [done|]. intros _.
  apply sends_post_silent; [done|]. intros chats.
  destruct (Nat.eqb _ 0); [by apply sends_post_ret|].
  apply sends_post_silent; [done|]. intros seen.
  apply sends_post_silent.
  { intros w'. unfold markSeen. by destruct (Nat.ltb 0 _). }
  intros _. eapply sends_post_bind.
  - apply telegram_notifyChats_count.
  - intros sent. apply (sends_post_ret _ (λ r new, r.1 = sent ∧ new = [])).
    done.
  - intros a b new1 new2 -> (-> & ->). by rewrite app_nil_r.
Qed.

End TelegramCounter.

Section DiscordCounter.

Import Discord.

Variable config : AutopostConfig.
Variable Date_at : nat → Z.
Variable tz : Z.
Variable deliver : string → GraduationCandidate → bool.

(** The candidate loop of the Discord service counts the delivered sends
    and appends one log per delivered send to the guild's call log. *)
Lemma discord_sendCalls_count guild channel highPotential sent :
  sends_post outbox (λ sent' new, sent' = (sent + count_delivered new)%nat)
    (sendCalls Date_at deliver guild channel highPotential sent).
Proof.
  revert sent. induction highPotential as [|c rest IH]; intros sent;
    cbn [sendCalls]; [apply sends_post_ret; cbn; lia|].
  eapply (sends_post_bind _
            (λ success new,
               count_delivered new = if success : bool then 1%nat else 0%nat)
            (λ success sent' new,
               sent' = ((if success : bool then S sent else sent)
                        + count_delivered new)%nat)).
  - intros w. eexists [_]. split; [reflexivity|].
    unfold sendDiscordMessage, count_delivered. cbv beta zeta. cbn [fst].
    destruct (deliver channel c) eqn:Hok.
    + by rewrite filter_cons_True.
    + by rewrite filter_cons_False.
  - intros success. destruct success; [|apply IH].
    apply sends_post_silent; [done|]. intros now.
    apply sends_post_silent; [done|]. intros created.
    apply sends_post_silent; [done|]. intros _.
    apply IH.
  - intros success sent' new1 new2 H1 ->. rewrite count_delivered_app, H1.
    destruct success; lia.
Qed.

Lemma discord_notifyGuild_count highPotential guild sent :
  sends_post outbox (λ sent' new, sent' = (sent + count_delivered new)%nat)
    (notifyGuild Date_at tz deliver highPotential guild sent).
Proof.
  unfold notifyGuild.
  destruct (negb _); [apply sends_post_ret; cbn; lia|].
  destruct (channelId guild) as [channel|]; [|apply sends_post_ret; cbn; lia].
  destruct (String.eqb channel ""); [apply sends_post_ret; cbn; lia|].
  apply sends_post_silent.
  { intros w. apply (discord_isQuietHours_frame Date_at guild w). }
  intros quiet. destruct quiet; [apply sends_post_ret; cbn; lia|].
  apply sends_post_silent; [done|]. intros today.
  apply sends_post_silent; [done|]. intros logs.
  destruct (JS.ge _ _); [apply sends_post_ret; cbn; lia|].
  destruct (Nat.eqb _ 0); [apply sends_post_ret; cbn; lia|].
  apply discord_sendCalls_count.
Qed.

Lemma discord_notifyGuilds_count highPotential guilds sent :
  sends_post outbox (λ sent' new, sent' = (sent + count_delivered new)%nat)
    (notifyGuilds Date_at tz deliver highPotential guilds sent).
Proof.
  revert sent. induction guilds as [|guild rest IH]; intros sent;
    cbn [notifyGuilds]; [apply sends_post_ret; cbn; lia|].
  eapply sends_post_bind.
  - apply discord_notifyGuild_count.
  - intros sent'. apply IH.
  - intros a b new1 new2 -> ->. rewrite count_delivered_app. lia.
Qed.

Lemma discord_scanAndNotify_count candidates :
  sends_post outbox (λ r new, r.1 = count_delivered new)
    (scanAndNotify config Date_at tz deliver candidates).
Proof.
  unfold scanAndNotify.
  apply sends_post_silent; [done|]. intros _.
  apply sends_post_silent; [done|]. intros guilds.
  eapply sends_post_bind.
  - apply discord_notifyGuilds_count.
  - intros sent. apply (sends_post_ret _ (λ r new, r.1 = sent ∧ new = [])).
    done.
  - intros a b new1 new2 -> (-> & ->). by rewrite app_nil_r.
Qed.

End DiscordCounter.

(** X20. The [sent] a tick reports is the number of messages the
    messenger's API accepted during the tick, in the Telegram service
    and in the Discord service. *)
Theorem tick_sent_count (config : AutopostConfig) (Date_at : nat → Z)
    (tz : Z) (tdeliver : string → GraduationCandidate → Telegram.SendResult)
    (ddeliver : string → GraduationCandidate → bool)
    (candidates : list GraduationCandidate)
    (tw : Telegram.World) (dw : Discord.World) :
  (∃ new,
     Telegram.outbox
       (Telegram.scanAndNotify config Date_at tz tdeliver candidates tw).2
     = Telegram.outbox tw ++ new
     ∧ (Telegram.scanAndNotify config Date_at tz tdeliver candidates tw).1.1
       = count_delivered new)
  ∧ (∃ new,
       Discord.outbox
         (Discord.scanAndNotify config Date_at tz ddeliver candidates dw).2
       = Discord.outbox dw ++ new
       ∧ (Discord.scanAndNotify config Date_at tz ddeliver candidates dw).1.1
         = count_delivered new).
Proof.
  split.
  - apply telegram_scanAndNotify_count.
  - apply discord_scanAndNotify_count.
Qed.
(* ===================================================================== *)
(** ** Quiet hours and the daily limit *)
(* ===================================================================== *)

Section QuietHours.

Local Open Scope float_scope.

(** On whole hours the comparisons of [isQuietHours] are those of the
    integers. *)
Lemma inQuietHours_hours :
  forallb (λ s, forallb (λ e, forallb (λ h,
    Bool.eqb (inQuietHours (JS.of_Z s) (JS.of_Z e) (JS.of_Z h))
             (in_window s e h)) hours) hours) hours = true.
Proof. vm_compute. reflexivity. Qed.

Lemma elem_of_hours (h : Z) : (0 ≤ h < 24)%Z → In h hours.
Proof.
  intros Hh. apply list_elem_of_In. unfold hours. apply elem_of_seqZ. lia.
Qed.

Lemma inQuietHours_in_window (s e h : Z) :
  (0 ≤ s < 24)%Z → (0 ≤ e < 24)%Z → (0 ≤ h < 24)%Z →
  inQuietHours (JS.of_Z s) (JS.of_Z e) (JS.of_Z h) = in_window s e h.
Proof.
  intros Hs He Hh. pose proof inQuietHours_hours as H.
  rewrite forallb_forall in H. specialize (H s (elem_of_hours s Hs)).
  rewrite forallb_forall in H. specialize (H e (elem_of_hours e He)).
  rewrite forallb_forall in H. specialize (H h (elem_of_hours h Hh)).
  by apply Bool.eqb_prop in H.
Qed.

Lemma getUTCHours_range (d : Z) : (0 ≤ Calendar.getUTCHours d < 24)%Z.
Proof. unfold Calendar.getUTCHours. apply Z.mod_pos_bound. lia. Qed.

(** A chat inside its quiet hours gets nothing. *)
Lemma telegram_notifyChat_quiet Date_at tz deliver highPotential chat sent w
    start stop :
  quietHoursStart (Telegram.policy chat) = Some start →
  quietHoursEnd (Telegram.policy chat) = Some stop →
  inQuietHours start stop
    (JS.of_Z (Calendar.getUTCHours (Date_at (Telegram.clock w)))) = true →
  Telegram.outbox
    (Telegram.notifyChat Date_at tz deliver highPotential chat sent w).2
  = Telegram.outbox w.
Proof.
  intros Hstart Hstop Hquiet. unfold Telegram.notifyChat.
  unfold mbind at 1, M_bind at 1. unfold Telegram.isQuietHours.
  rewrite Hstart, Hstop. unfold mbind, M_bind, Telegram.newDate, mret, M_ret.
  by rewrite Hquiet.
Qed.

(** A guild inside its quiet hours gets nothing. *)
Lemma discord_notifyGuild_quiet Date_at tz deliver highPotential guild sent w
    start stop :
  quietHoursStart (Discord.policy guild) = Some start →
  quietHoursEnd (Discord.policy guild) = Some stop →
  inQuietHours start stop
    (JS.of_Z (Calendar.getUTCHours (Date_at (Discord.clock w)))) = true →
  Discord.outbox
    (Discord.notifyGuild Date_at tz deliver highPotential guild sent w).2
  = Discord.outbox w.
Proof.
  intros Hstart Hstop Hquiet. unfold Discord.notifyGuild.
  destruct (negb _); [done|].
  destruct (Discord.channelId guild) as [channel|]; [|done].
  destruct (String.eqb channel ""); [done|].
  unfold mbind at 1, M_bind at 1. unfold Discord.isQuietHours.
  rewrite Hstart, Hstop. unfold mbind, M_bind, Discord.newDate, mret, M_ret.
  by rewrite Hquiet.
Qed.

(** X1. Quiet hours given in whole hours: a chat or guild examined at a
    UTC hour inside the window from [start] up to [stop], which runs
    past midnight when [start] is not before [stop], gets no send. *)
Theorem quiet_hours_window (start stop : Z) (Date_at : nat → Z) (tz : Z)
    (tdeliver : string → GraduationCandidate → Telegram.SendResult)
    (ddeliver : string → GraduationCandidate → bool)
    (highPotential : list GraduationCandidate) (sent : nat)
    (chat : Telegram.TelegramChatConfig) (tw : Telegram.World)
    (guild : Discord.GuildConfig) (dw : Discord.World) :
  (0 ≤ start < 24)%Z → (0 ≤ stop < 24)%Z →
  quietHoursStart (Telegram.policy chat) = Some (JS.of_Z start) →
  quietHoursEnd (Telegram.policy chat) = Some (JS.of_Z stop) →
  quietHoursStart (Discord.policy guild) = Some (JS.of_Z start) →
  quietHoursEnd (Discord.policy guild) = Some (JS.of_Z stop) →
  in_window start stop
    (Calendar.getUTCHours (Date_at (Telegram.clock tw))) = true →
  in_window start stop
    (Calendar.getUTCHours (Date_at (Discord.clock dw))) = true →
  Telegram.outbox
    (Telegram.notifyChat Date_at tz tdeliver highPotential chat sent tw).2
  = Telegram.outbox tw
  ∧ Discord.outbox
      (Discord.notifyGuild Date_at tz ddeliver highPotential guild sent dw).2
    = Discord.outbox dw.
Proof.
  intros Hs He Hts Hte Hds Hde Htw Hdw. split.
  - eapply telegram_notifyChat_quiet; [done..|].
    rewrite inQuietHours_in_window; [done..|apply getUTCHours_range].
  - eapply discord_notifyGuild_quiet; [done..|].
    rewrite inQuietHours_in_window; [done..|apply getUTCHours_range].
Qed.

Lemma in_window_same (s h : Z) : in_window s s h = true.
Proof.
  unfold in_window. rewrite Z.ltb_irrefl.
  destruct (Z.leb_spec s h), (Z.ltb_spec h s); try done. lia.
Qed.

(** X2. Quiet hours that start and end at the same hour are not an
    empty window: the chat or guild gets no send at any time. *)
Theorem quiet_hours_same_bounds (hour : Z) (Date_at : nat → Z) (tz : Z)
    (tdeliver : string → GraduationCandidate → Telegram.SendResult)
    (ddeliver : string → GraduationCandidate → bool)
    (highPotential : list GraduationCandidate) (sent : nat)
    (chat : Telegram.TelegramChatConfig) (tw : Telegram.World)
    (guild : Discord.GuildConfig) (dw : Discord.World) :
  (0 ≤ hour < 24)%Z →
  quietHoursStart (Telegram.policy chat) = Some (JS.of_Z hour) →
  quietHoursEnd (Telegram.policy chat) = Some (JS.of_Z hour) →
  quietHoursStart (Discord.policy guild) = Some (JS.of_Z hour) →
  quietHoursEnd (Discord.policy guild) = Some (JS.of_Z hour) →
  Telegram.outbox
    (Telegram.notifyChat Date_at tz tdeliver highPotential chat sent tw).2
  = Telegram.outbox tw
  ∧ Discord.outbox
      (Discord.notifyGuild Date_at tz ddeliver highPotential guild sent dw).2
    = Discord.outbox dw.
Proof.
  intros Hh Hts Hte Hds Hde. split.
  - eapply telegram_notifyChat_quiet; [done..|].
    rewrite inQuietHours_in_window; [|done..|apply getUTCHours_range].
    apply in_window_same.
  - eapply discord_notifyGuild_quiet; [done..|].
    rewrite inQuietHours_in_window; [|done..|apply getUTCHours_range].
    apply in_window_same.
Qed.

End QuietHours.
(* ===================================================================== *)
(** ** The call log and the seen-tokens cache *)
(* ===================================================================== *)

Section Preserves.

Context {W : Type} (I : W → Prop).

Lemma preserves_ret {A} (a : A) : preserves I (mret a).
Proof. by intros w. Qed.

Lemma preserves_bind {A B} (m : M W A) (f : A → M W B) :
  preserves I m → (∀ a, preserves I (f a)) → preserves I (m ≫= f).
Proof.
  intros Hm Hf w Hw. unfold mbind, M_bind.
  specialize (Hm w Hw). destruct (m w) as [a w1]. by apply Hf.
Qed.

Lemma preserves_fmap {A B} (g : A → B) (m : M W A) :
  preserves I m → preserves I (g <$> m).
Proof.
  intros Hm w Hw. unfold fmap, M_fmap.
  specialize (Hm w Hw). by destruct (m w) as [a w1].
Qed.

End Preserves.

Section CallLog.

Import Telegram.

Local Open Scope float_scope.

Variable Date_at : nat → Z.
Variable tz : Z.
Variable deliver : string → GraduationCandidate → SendResult.

Lemma length_removelast {A} (l : list A) :
  length (removelast l) = pred (length l).
Proof.
  induction l as [|x [|y l] IH]; [done..|].
  change (removelast (x :: y :: l)) with (x :: removelast (y :: l)).
  cbn [length] in *. by rewrite IH.
Qed.

Lemma removelast_take {A} (l : list A) :
  removelast l = take (pred (length l)) l.
Proof.
  induction l as [|x [|y l] IH]; [done..|].
  change (removelast (x :: y :: l)) with (x :: removelast (y :: l)).
  rewrite IH. done.
Qed.

Lemma addCallLog_new_logs (log : TelegramCallLog)
    (old : list TelegramCallLog) :
  (length old ≤ 100)%nat →
  (if Nat.ltb 100 (length (log :: old))
   then removelast (log :: old) else log :: old)
  = take 100 (log :: old).
Proof.
  intros Hold.
  destruct (Nat.ltb_spec 100 (length (log :: old))) as [Hlt|Hge].
  - rewrite removelast_take. f_equal. cbn [length] in *. lia.
  - by rewrite take_ge.
Qed.

Lemma logs_bounded_default w chatId :
  logs_bounded w → (length (default [] (callLogs w !! chatId)) ≤ 100)%nat.
Proof.
  intros Hw. destruct (callLogs w !! chatId) as [logs|] eqn:Hlogs.
  - apply (Hw _ _ Hlogs).
  - simpl. lia.
Qed.

Lemma addCallLog_logs_bounded chatId log :
  preserves logs_bounded (addCallLog chatId log).
Proof.
  intros w Hw c logs. unfold addCallLog. cbv zeta.
  cbn [snd callLogs with_callLogs].
  rewrite addCallLog_new_logs by by apply logs_bounded_default.
  destruct (decide (c = chatId)) as [->|Hne].
  - rewrite lookup_insert_eq. intros [= <-]. cbn [length].
    rewrite length_take. lia.
  - rewrite lookup_insert_ne by done. apply Hw.
Qed.

(** X22. [addCallLog] puts the log in front and keeps the 100 latest:
    afterwards [getCallLogs] on the chat gives the first [limit]
    (default 20) of them, the logs of the other chats are as before, and
    no chat has more than 100 logs. *)
Theorem addCallLog_getCallLogs (chatId : string) (log : TelegramCallLog)
    (limit : option nat) (w : World) :
  logs_bounded w →
  let w' := (addCallLog chatId log w).2 in
  (getCallLogs chatId limit w').1
  = take (default 20%nat limit)
      (take 100 (log :: default [] (callLogs w !! chatId)))
  ∧ (∀ other, other ≠ chatId →
       (getCallLogs other limit w').1 = (getCallLogs other limit w).1)
  ∧ logs_bounded w'.
Proof.
  intros Hw. cbv zeta. split; [|split].
  - unfold addCallLog, getCallLogs. cbv zeta.
    cbn [fst snd callLogs with_callLogs].
    rewrite addCallLog_new_logs by by apply logs_bounded_default.
    by rewrite lookup_insert_eq.
  - intros other Hne. unfold addCallLog, getCallLogs. cbv zeta.
    cbn [fst snd callLogs with_callLogs]. by rewrite lookup_insert_ne.
  - by apply addCallLog_logs_bounded.
Qed.

Lemma of_nat_le_100 :
  forallb (λ n, (JS.of_nat n <=? 100)) (seq 0 101) = true.
Proof. vm_compute. reflexivity. Qed.

(** X23. The Telegram service counts the calls of the day among the 100
    latest logs only, so a [maxCallsPerDay] above 100 is never
    reached: the daily-limit test fails whatever the call log holds. *)
Theorem telegram_cap_above_100_never_reached (chat : TelegramChatConfig)
    (today : Z) (w : World) :
  JS.gt (maxCallsPerDay (policy chat)) 100 = true →
  let logs := (getCallLogs (chatId chat) (Some 100%nat) w).1 in
  let callsToday :=
    length (filter (λ log, Calendar.toDateString tz (createdAt log) = today)
              logs) in
  JS.ge (JS.of_nat callsToday) (maxCallsPerDay (policy chat)) = false.
Proof.
  intros Hcap. cbv zeta. unfold getCallLogs. cbn [fst].
  change (default 20%nat (Some 100%nat)) with 100%nat.
  match goal with
  | |- JS.ge (JS.of_nat ?n) _ = false =>
      assert (n ≤ 100)%nat as Hn
        by (etransitivity; [apply length_filter|];
            rewrite length_take; lia);
      generalize dependent n
  end.
  intros n Hn. unfold JS.ge, JS.gt in *.
  pose proof of_nat_le_100 as Hall. rewrite forallb_forall in Hall.
  specialize (Hall n ltac:(apply in_seq; lia)).
  pose proof (leb_ltb_trans _ _ _ Hall Hcap) as Hlt.
  apply ltb_not_nan in Hlt as Hnan. destruct Hnan as (Hn1 & Hn2).
  rewrite (ltb_negb_leb _ _ Hn1 Hn2) in Hlt.
  by apply Bool.negb_true_iff in Hlt.
Qed.

Lemma elem_of_set_add x y s : x ∈ set_add y s ↔ x ∈ s ∨ x = y.
Proof.
  unfold set_add. destruct (bool_decide (y ∈ s)) eqn:Hy.
  - apply bool_decide_eq_true in Hy. split; [by left|].
    intros [?| ->]; done.
  - rewrite elem_of_app, list_elem_of_singleton. done.
Qed.

Lemma NoDup_set_add y s : NoDup s → NoDup (set_add y s).
Proof.
  intros Hs. unfold set_add. destruct (bool_decide (y ∈ s)) eqn:Hy; [done|].
  apply bool_decide_eq_false in Hy. apply NoDup_app. split; [done|].
  split; [|apply NoDup_singleton].
  intros x Hx Hxy. apply list_elem_of_singleton in Hxy. by subst.
Qed.

Lemma length_set_add y s : (length (set_add y s) ≤ S (length s))%nat.
Proof.
  unfold set_add. destruct (bool_decide (y ∈ s)); [lia|].
  rewrite length_app. simpl. lia.
Qed.

(** Marking the candidates [hp] in the set [s]. *)
Lemma mark_spec (hp : list GraduationCandidate) (s : list string) :
  let s' := foldl (λ s c, set_add (grad_mint (graduation c)) s) s hp in
  (NoDup s → NoDup s')
  ∧ (length s' ≤ length s + length hp)%nat
  ∧ ∀ x, x ∈ s' ↔ x ∈ s ∨ x ∈ (λ c, grad_mint (graduation c)) <$> hp.
Proof.
  cbv zeta. revert s. induction hp as [|c hp IH]; intros s; cbn [foldl].
  - split; [done|]. split; [simpl; lia|]. intros x. rewrite fmap_nil.
    rewrite elem_of_nil. tauto.
  - destruct (IH (set_add (grad_mint (graduation c)) s)) as (H1 & H2 & H3).
    split; [intros Hs; by apply H1, NoDup_set_add|]. split.
    + pose proof (length_set_add (grad_mint (graduation c)) s).
      cbn [length]. lia.
    + intros x. rewrite H3, elem_of_set_add, fmap_cons, elem_of_cons. tauto.
Qed.

Lemma evict_sublist k s : evict k s `sublist_of` s.
Proof.
  unfold evict. rewrite <- (take_drop k s) at 3.
  apply sublist_app; [apply sublist_filter|done].
Qed.

Lemma evict_nonempty k s :
  (length (filter (λ mint, mint ≠ "") (evict k s)) ≤ length s - k)%nat.
Proof.
  unfold evict. rewrite filter_app, length_app.
  assert (filter (λ mint, mint ≠ "") (filter (λ val, val = "") (take k s))
          = []) as ->.
  { induction (take k s) as [|x l IH]; [done|].
    destruct (decide (x = "")) as [->|Hx].
    - rewrite (filter_cons_True (λ val, val = "")) by done.
      by rewrite filter_cons_False by (intros H; by apply H).
    - by rewrite (filter_cons_False (λ val, val = "")) by done. }
  cbn [length]. etransitivity; [apply length_filter|].
  rewrite length_drop. lia.
Qed.

Lemma markSeen_seen_bounded highPotential w :
  seen_bounded w → seen_bounded (markSeen highPotential w).2.
Proof.
  intros (Hnodup & Hbound). unfold markSeen.
  destruct (Nat.ltb 0 (length highPotential)); [|done].
  cbv zeta. cbn [snd]. unfold seen_bounded. cbn [seenTokens with_seenTokens].
  destruct (mark_spec highPotential (seenTokens w)) as (H1 & _ & _).
  specialize (H1 Hnodup).
  set (seen := foldl _ (seenTokens w) highPotential) in *.
  destruct (Nat.ltb_spec 500 (length seen)) as [Hlt|Hge].
  - split.
    + eapply sublist_NoDup; [exact H1|apply evict_sublist].
    + etransitivity; [apply evict_nonempty|]. lia.
  - split; [done|]. etransitivity; [apply length_filter|]. done.
Qed.

Lemma NoDup_empty_once (s : list string) :
  NoDup s → (length (filter (λ mint, mint = "") s) ≤ 1)%nat.
Proof.
  induction 1 as [|x s Hx Hs IH]; [simpl; lia|].
  destruct (decide (x = "")) as [->|Hne].
  - rewrite filter_cons_True by done. cbn [length].
    assert (filter (λ mint, mint = "") s = []) as ->; [|simpl; lia].
    clear IH Hs. induction s as [|y s IH]; [done|].
    apply not_elem_of_cons in Hx as (Hy & Hx).
    rewrite filter_cons_False by done. by apply IH.
  - by rewrite filter_cons_False.
Qed.

Lemma length_empty_nonempty (s : list string) :
  length s = (length (filter (λ mint, mint = "") s)
              + length (filter (λ mint, mint ≠ "") s))%nat.
Proof.
  induction s as [|x s IH]; [done|].
  destruct (decide (x = "")) as [->|Hne].
  - rewrite filter_cons_True by done.
    rewrite filter_cons_False by (intros H; by apply H).
    cbn [length]. lia.
  - rewrite filter_cons_False by done. rewrite filter_cons_True by done.
    cbn [length]. lia.
Qed.

Lemma seen_bounded_length w :
  seen_bounded w → (length (seenTokens w) ≤ 501)%nat.
Proof.
  intros (Hnodup & Hbound).
  pose proof (NoDup_empty_once _ Hnodup) as Hempty.
  rewrite (length_empty_nonempty (seenTokens w)). lia.
Qed.

Section TickInvariant.

(** An invariant of the call logs and the seen tokens that [addCallLog]
    keeps. *)
Variable I : World → Prop.

Hypothesis I_frame :
  ∀ w w', callLogs w' = callLogs w → seenTokens w' = seenTokens w →
          I w → I w'.
Hypothesis I_addCallLog : ∀ chatId log, preserves I (addCallLog chatId log).

Lemma preserves_frame {A} (m : M World A) :
  (∀ w, callLogs (m w).2 = callLogs w ∧ seenTokens (m w).2 = seenTokens w) →
  preserves I m.
Proof.
  intros Hm w Hw. destruct (Hm w) as (H1 & H2). by eapply I_frame.
Qed.

Lemma sendCalls_preserves logs chat chatCandidates sent :
  preserves I (sendCalls Date_at deliver logs chat chatCandidates sent).
Proof.
  revert chat sent.
  induction chatCandidates as [|c rest IH]; intros chat sent;
    cbn [sendCalls]; [apply preserves_ret|].
  destruct (existsb _ logs); [apply IH|].
  apply preserves_bind; [by apply preserves_frame|]. intros result.
  destruct (ok result); [|apply IH].
  apply preserves_bind; [by apply preserves_frame|]. intros now.
  apply preserves_bind; [by apply preserves_frame|]. intros created.
  apply preserves_bind; [apply I_addCallLog|]. intros _.
  apply preserves_bind; [by apply preserves_frame|]. intros lastCall.
  apply preserves_bind; [by apply preserves_frame|]. intros _.
  apply IH.
Qed.

Lemma telegram_isQuietHours_frame_seen chat w :
  seenTokens (isQuietHours Date_at chat w).2 = seenTokens w.
Proof.
  unfold isQuietHours.
  destruct (quietHoursStart (policy chat)), (quietHoursEnd (policy chat)); done.
Qed.

Lemma notifyChat_preserves highPotential chat sent :
  preserves I (notifyChat Date_at tz deliver highPotential chat sent).
Proof.
  unfold notifyChat.
  apply preserves_bind.
  { apply preserves_frame. intros w. split.
    - apply (telegram_isQuietHours_frame Date_at chat w).
    - apply telegram_isQuietHours_frame_seen. }
  intros quiet. destruct quiet; [apply preserves_ret|].
  apply preserves_bind; [by apply preserves_fmap, preserves_frame|].
  intros today.
  apply preserves_bind; [by apply preserves_frame|]. intros logs.
  destruct (JS.ge _ _); [apply preserves_ret|].
  destruct (Nat.eqb _ 0); [apply preserves_ret|].
  apply sendCalls_preserves.
Qed.

Lemma notifyChats_preserves highPotential chats sent :
  preserves I (notifyChats Date_at tz deliver highPotential chats sent).
Proof.
  revert sent. induction chats as [|chat rest IH]; intros sent;
    cbn [notifyChats]; [apply preserves_ret|].
  apply preserves_bind; [apply notifyChat_preserves|]. intros sent'. apply IH.
Qed.

End TickInvariant.

Lemma bounds_frame w w' :
  callLogs w' = callLogs w → seenTokens w' = seenTokens w →
  logs_bounded w ∧ seen_bounded w → logs_bounded w' ∧ seen_bounded w'.
Proof.
  intros H1 H2. unfold logs_bounded, seen_bounded. by rewrite H1, H2.
Qed.

Lemma bounds_addCallLog chatId log :
  preserves (λ w, logs_bounded w ∧ seen_bounded w) (addCallLog chatId log).
Proof.
  intros w (Hlogs & Hseen). split; [by apply addCallLog_logs_bounded|done].
Qed.

(** X24. The bounds of the Telegram service's memory: a tick leaves no
    chat with more than 100 logs, and leaves the seen-tokens cache a
    set of at most 500 mints, the empty string apart, which the
    eviction loop never removes; so the cache holds at most 501
    entries. *)
Theorem telegram_tick_keeps_bounds (config : AutopostConfig)
    (candidates : list GraduationCandidate) (w : World) :
  logs_bounded w → seen_bounded w →
  let w' := (scanAndNotify config Date_at tz deliver candidates w).2 in
  logs_bounded w' ∧ seen_bounded w' ∧ (length (seenTokens w') ≤ 501)%nat.
Proof.
  intros Hlogs Hseen. cbv zeta.
  assert (preserves (λ w, logs_bounded w ∧ seen_bounded w)
            (scanAndNotify config Date_at tz deliver candidates)) as H.
  { unfold scanAndNotify.
    apply preserves_bind; [by apply (preserves_frame _ bounds_frame)|].
    intros _.
    apply preserves_bind; [by apply (preserves_frame _ bounds_frame)|].
    intros chats.
    destruct (Nat.eqb _ 0); [apply preserves_ret|].
    apply preserves_bind; [by apply (preserves_frame _ bounds_frame)|].
    intros seen.
    apply preserves_bind.
    { intros w0 (H1 & H2). split; [|by apply markSeen_seen_bounded].
      unfold markSeen. by destruct (Nat.ltb 0 _). }
    intros _.
    apply preserves_bind;
      [apply (notifyChats_preserves _ bounds_frame bounds_addCallLog)|].
    intros sent. apply preserves_ret. }
  destruct (H w (conj Hlogs Hseen)) as (H1 & H2).
  split; [done|]. split; [done|]. by apply seen_bounded_length.
Qed.

(** X25. The Telegram service posts a token in the tick that first finds
    it high-potential, or never: the tick marks it as seen even if
    quiet hours, the daily limit or a failed send keep it from being
    posted, and the next tick sends nothing with that mint.  (The
    seen-tokens cache is assumed to have room, so that nothing is
    evicted.) *)
Theorem telegram_posted_at_first_sight_or_never (config : AutopostConfig)
    (first next : list GraduationCandidate) (w : World)
    (c : GraduationCandidate) :
  Exists (λ chat, autopostEnabled (policy chat) = true) (snd <$> chats w) →
  c ∈ first → passesFilter c = true →
  JS.ge (score c) (minScore config) = true →
  (length (seenTokens w) + length first ≤ 500)%nat →
  let w1 := (scanAndNotify config Date_at tz deliver first w).2 in
  ∃ new,
    outbox (scanAndNotify config Date_at tz deliver next w1).2
    = outbox w1 ++ new
    ∧ Forall (λ d, grad_mint (graduation (dispatched d))
                   ≠ grad_mint (graduation c)) new.
Proof.
  intros Hactive Hc Hpasses Hscore Hroom. cbv zeta.
  set (mint := grad_mint (graduation c)).
  assert (mint ∈ seenTokens
                   (scanAndNotify config Date_at tz deliver first w).2)
    as Hseen.
  { unfold scanAndNotify.
    unfold mbind at 1, M_bind at 1, newDate at 1.
    unfold mbind at 1, M_bind at 1, getActiveChats at 1.
    cbn [chats with_clock].
    destruct (Nat.eqb_spec
                (length (filter (λ c0, autopostEnabled (policy c0) = true)
                           (snd <$> chats w))) 0) as [Hnone|_].
    { exfalso. apply Exists_exists in Hactive as (chat & Hchat & Henabled).
      apply length_zero_iff_nil in Hnone.
      assert (chat ∈ filter (λ c0, autopostEnabled (policy c0) = true)
                       (snd <$> chats w)) as Hin
        by (by apply list_elem_of_filter).
      rewrite Hnone in Hin. by apply elem_of_nil in Hin. }
    unfold mbind at 1, M_bind at 1, getSeenTokens at 1.
    cbn [seenTokens with_clock].
    match goal with
    | |- context [markSeen ?hp] => set (highPotential := hp)
    end.
    unfold mbind at 1, M_bind at 1.
    assert (mint ∈ seenTokens (markSeen highPotential (with_clock S w)).2)
      as Hmarked.
    { unfold markSeen. cbn [seenTokens with_clock].
      destruct (mark_spec highPotential (seenTokens w)) as (_ & Hlen & Hin).
      assert (length highPotential ≤ length first)%nat as Hhp
        by apply length_filter.
      assert (mint ∈ seenTokens w
              ∨ mint ∈ (λ c, grad_mint (graduation c)) <$> highPotential)
        as Hmint.
      { destruct (decide (mint ∈ seenTokens w)) as [?|Hnew]; [by left|].
        right. apply list_elem_of_fmap. exists c. split; [done|].
        apply list_elem_of_filter. split; [|done].
        rewrite Hpasses, Hscore. cbn [andb].
        by rewrite bool_decide_eq_false_2. }
      destruct (Nat.ltb 0 (length highPotential)) eqn:Hempty.
      - cbv zeta. cbn [snd seenTokens with_seenTokens].
        destruct (Nat.ltb_spec 500
                    (length (foldl (λ s c0, set_add (grad_mint (graduation c0)) s)
                               (seenTokens w) highPotential)))
          as [Hfull|_]; [lia|].
        by apply Hin.
      - cbn [snd seenTokens with_clock].
        destruct Hmint as [?|Hmint]; [done|].
        apply Nat.ltb_ge in Hempty.
        destruct highPotential; [|cbn [length] in Hempty; lia].
        rewrite fmap_nil in Hmint. by apply elem_of_nil in Hmint. }
    destruct (markSeen highPotential (with_clock S w)) as [[] w0].
    cbn [snd] in Hmarked.
    assert (preserves (λ w, mint ∈ seenTokens w)
              (sent ← notifyChats Date_at tz deliver highPotential
                        (filter (λ c0, autopostEnabled (policy c0) = true)
                           (snd <$> chats w)) 0;
               mret (sent, length highPotential))) as Hrest.
    { apply preserves_bind; [|intros sent; apply preserves_ret].
      apply notifyChats_preserves.
      - intros w1 w2 _ Heq. by rewrite Heq.
      - by intros chatId log w1. }
    by apply Hrest. }
  destruct (telegram_scanAndNotify_sends config Date_at tz deliver next
              (scanAndNotify config Date_at tz deliver first w).2)
    as (new & Hout & Hall).
  exists new. split; [exact Hout|].
  eapply Forall_impl; [exact Hall|].
  intros d (_ & _ & _ & Hunseen & _) Heq. apply Hunseen.
  by rewrite Heq.
Qed.

End CallLog.
(* ===================================================================== *)
(** ** The admin commands of the Telegram bot *)
(* ===================================================================== *)

Section BotStorage.

Import Telegram TelegramBot.

Lemma map_get_map_set_eq {V} key (v : V) m :
  map_get key (map_set key v m) = Some v.
Proof.
  induction m as [|[k v'] m IH]; simpl.
  - by rewrite String.eqb_refl.
  - destruct (String.eqb k key) eqn:Hk; simpl; by rewrite Hk.
Qed.

Lemma fst_map_set {V} key (v : V) m :
  fst <$> map_set key v m
  = if bool_decide (key ∈ fst <$> m) then fst <$> m
    else (fst <$> m) ++ [key].
Proof.
  induction m as [|[k v'] m IH]; [done|]. cbn [map_set].
  destruct (String.eqb_spec k key) as [->|Hne]; rewrite !fmap_cons; cbn [fst].
  - rewrite bool_decide_eq_true_2; [done|apply list_elem_of_here].
  - rewrite IH. destruct (bool_decide (key ∈ fst <$> m)) eqn:Hin.
    + apply bool_decide_eq_true in Hin.
      rewrite bool_decide_eq_true_2; [done|by apply list_elem_of_further].
    + apply bool_decide_eq_false in Hin.
      rewrite bool_decide_eq_false_2; [done|].
      intros H. apply elem_of_cons in H as [?|?]; congruence.
Qed.

Lemma elem_of_map_set {V} key (v : V) m kv :
  kv ∈ map_set key v m → kv = (key, v) ∨ kv ∈ m.
Proof.
  induction m as [|[k v'] m IH]; simpl.
  - intros H. apply list_elem_of_singleton in H. by left.
  - destruct (String.eqb_spec k key) as [->|Hne].
    + intros H. apply elem_of_cons in H as [->|H]; [by left|].
      right. by apply list_elem_of_further.
    + intros H. apply elem_of_cons in H as [->|H].
      * right. apply list_elem_of_here.
      * destruct (IH H) as [?|?]; [by left|].
        right. by apply list_elem_of_further.
Qed.

Lemma map_get_elem_of {V} key (v : V) m :
  NoDup (fst <$> m) → (key, v) ∈ m → map_get key m = Some v.
Proof.
  induction m as [|[k v'] m IH]; simpl; intros Hnodup Hin.
  - by apply elem_of_nil in Hin.
  - apply NoDup_cons in Hnodup as (Hk & Hnodup).
    apply elem_of_cons in Hin as [[= <- <-]|Hin].
    + by rewrite String.eqb_refl.
    + destruct (String.eqb_spec k key) as [->|Hne]; [|by apply IH].
      exfalso. apply Hk. apply list_elem_of_fmap. by exists (key, v).
Qed.

Lemma map_get_Some {V} key (v : V) m : map_get key m = Some v → (key, v) ∈ m.
Proof.
  induction m as [|[k v'] m IH]; simpl; [done|].
  destruct (String.eqb_spec k key) as [->|Hne].
  - intros [= ->]. apply list_elem_of_here.
  - intros H. by apply list_elem_of_further, IH.
Qed.

Lemma map_get_map_set_ne {V} key other (v : V) m :
  other ≠ key → map_get other (map_set key v m) = map_get other m.
Proof.
  intros Hne. induction m as [|[k v'] m IH]; cbn [map_set map_get].
  - destruct (String.eqb_spec key other); [congruence|done].
  - destruct (String.eqb_spec k key) as [->|Hk]; cbn [map_get].
    + destruct (String.eqb_spec key other); [congruence|done].
    + by rewrite IH.
Qed.

Lemma map_get_map_delete {V} key (m : list (string * V)) :
  NoDup (fst <$> m) → map_get key (map_delete key m) = None.
Proof.
  induction m as [|[k v] m IH]; [done|]. rewrite fmap_cons.
  intros Hnodup. apply NoDup_cons in Hnodup as (Hk & Hnodup).
  cbn [map_delete fst].
  destruct (String.eqb_spec k key) as [->|Hne].
  - destruct (map_get key m) as [v'|] eqn:Hget; [exfalso|done].
    apply Hk. apply list_elem_of_fmap. exists (key, v').
    split; [done|]. by apply map_get_Some.
  - cbn [map_get]. destruct (String.eqb_spec k key); [done|]. by apply IH.
Qed.

Variable Date_at : nat → Z.
Variable createPolicy : string → Policy.

Lemma chats_set_wf (cfg : TelegramChatConfig) w :
  storage_wf w →
  storage_wf (with_chats (map_set (chatId cfg) cfg) w).
Proof.
  intros (Hnodup & Hkeys). split; cbn [chats with_chats].
  - rewrite fst_map_set.
    destruct (bool_decide (chatId cfg ∈ fst <$> chats w)) eqn:Hin; [done|].
    apply bool_decide_eq_false in Hin. apply NoDup_app. split; [done|].
    split; [|apply NoDup_singleton].
    intros k Hk Hk'. apply list_elem_of_singleton in Hk'. by subst.
  - apply Forall_forall. intros kv Hkv.
    apply elem_of_map_set in Hkv as [->|Hkv]; [done|].
    rewrite Forall_forall in Hkeys. by apply Hkeys.
Qed.

Lemma saveChatConfig_spec (cfg : TelegramChatConfig) w :
  storage_wf w →
  let w' := (saveChatConfig Date_at cfg w).2 in
  storage_wf w'
  ∧ map_get (chatId cfg) (chats w') = Some (saved cfg (Date_at (clock w)))
  ∧ outbox w' = outbox w ∧ seenTokens w' = seenTokens w
  ∧ callLogs w' = callLogs w.
Proof.
  intros Hwf. cbv zeta. unfold saveChatConfig, mbind, M_bind, newDate,
    chats_set. cbn [snd chats with_chats with_clock chatId].
  split; [|split; [|by repeat split]].
  - apply (chats_set_wf (saved cfg (Date_at (clock w))) (with_clock S w)).
    done.
  - apply map_get_map_set_eq.
Qed.

(** X21. The chat configurations of the in-memory storage: what
    [saveChatConfig] stores, stamped with the time of the save, is what
    [getChatConfig] finds under the chat's id; the other chats are as
    before; and after [deleteChatConfig] neither the configuration nor
    a call log of the chat is left. *)
Theorem chat_config_round_trip (cfg : TelegramChatConfig) (limit : option nat)
    (w : World) :
  storage_wf w →
  let w1 := (saveChatConfig Date_at cfg w).2 in
  let w2 := (deleteChatConfig (chatId cfg) w1).2 in
  (getChatConfig (chatId cfg) w1).1 = Some (saved cfg (Date_at (clock w)))
  ∧ (∀ other, other ≠ chatId cfg →
       (getChatConfig other w1).1 = (getChatConfig other w).1)
  ∧ storage_wf w1
  ∧ (getChatConfig (chatId cfg) w2).1 = None
  ∧ (getCallLogs (chatId cfg) limit w2).1 = [].
Proof.
  intros Hwf. cbv zeta.
  destruct (saveChatConfig_spec cfg w Hwf) as (Hwf1 & Hget & _).
  split; [exact Hget|]. split; [|split; [exact Hwf1|]].
  - intros other Hne. unfold getChatConfig, saveChatConfig, mbind, M_bind,
      newDate, chats_set.
    cbn [fst snd chats with_chats with_clock chatId].
    by apply map_get_map_set_ne.
  - unfold getChatConfig, getCallLogs, deleteChatConfig.
    cbn [fst snd chats callLogs with_chats with_callLogs].
    split.
    + apply map_get_map_delete. apply Hwf1.
    + rewrite lookup_delete_eq. apply take_nil.
Qed.

(** In a well-formed storage a chat is found under its [chatId]. *)
Lemma stored_chat_unique w key cfg chat :
  storage_wf w → map_get key (chats w) = Some cfg →
  chat ∈ (snd <$> chats w) → chatId chat = key → chat = cfg.
Proof.
  intros (Hnodup & Hkeys) Hget Hin Hid.
  apply list_elem_of_fmap in Hin as ([k v] & -> & Hkv).
  rewrite Forall_forall in Hkeys. pose proof (Hkeys _ Hkv) as Hk.
  cbn [fst snd] in *. rewrite Hid in Hk. subst k.
  pose proof (map_get_elem_of _ _ _ Hnodup Hkv) as Hget'.
  congruence.
Qed.

(** [getOrCreateChatConfig] returns the configuration of the chat and
    leaves the storage well formed, the outbox alone. *)
Lemma getOrCreateChatConfig_spec key title w :
  storage_wf w →
  let r := getOrCreateChatConfig Date_at createPolicy key title w in
  storage_wf r.2 ∧ chatId r.1 = key ∧ outbox r.2 = outbox w
  ∧ seenTokens r.2 = seenTokens w.
Proof.
  intros Hwf. cbv zeta.
  unfold getOrCreateChatConfig, mbind, M_bind, getChatConfig. cbv beta.
  destruct (map_get key (chats w)) as [existing|] eqn:Hget.
  - unfold mret, M_ret. cbn [fst snd]. split; [done|]. split; [|by split].
    apply map_get_Some in Hget. destruct Hwf as (_ & Hkeys).
    rewrite Forall_forall in Hkeys. apply (Hkeys _ Hget).
  - unfold newDate. cbv beta iota zeta.
    match goal with
    | |- context [saveChatConfig Date_at ?cfg ?w0] =>
        destruct (saveChatConfig_spec cfg w0) as (H1 & _ & H2 & H3 & _);
          [done|];
        destruct (saveChatConfig Date_at cfg w0) as [[] w1]
    end.
    unfold mret, M_ret. cbn [fst snd chatId] in *.
    rewrite H2, H3. split; [exact H1|]. split; [done|]. by split.
Qed.

(** After a command of an admin has saved [f config] for the chat, the
    storage is well formed and holds that configuration. *)
Lemma update_config_spec key (f : TelegramChatConfig → TelegramChatConfig) w :
  (∀ c, chatId (f c) = chatId c) →
  storage_wf w →
  let r := getOrCreateChatConfig Date_at createPolicy key None w in
  let w1 := (saveChatConfig Date_at (f r.1) r.2).2 in
  storage_wf w1
  ∧ map_get key (chats w1) = Some (saved (f r.1) (Date_at (clock r.2)))
  ∧ outbox w1 = outbox w.
Proof.
  intros Hf Hwf. cbv zeta.
  destruct (getOrCreateChatConfig_spec key None w Hwf) as (H1 & H2 & H3 & _).
  destruct (getOrCreateChatConfig Date_at createPolicy key None w)
    as [cfg w0]. cbn [fst snd] in *.
  destruct (saveChatConfig_spec (f cfg) w0 H1) as (H4 & H5 & H6 & _).
  rewrite Hf, H2 in H5. rewrite H6, H3. done.
Qed.

(** What [getOrCreateChatConfig] gives for a chat the storage has, and
    for one it has not. *)
Lemma getOrCreateChatConfig_existing key title w old :
  map_get key (chats w) = Some old →
  getOrCreateChatConfig Date_at createPolicy key title w = (old, w).
Proof.
  intros Hget. unfold getOrCreateChatConfig, mbind, M_bind, getChatConfig.
  cbv beta. by rewrite Hget.
Qed.

Lemma getOrCreateChatConfig_missing key w :
  map_get key (chats w) = None →
  let r := getOrCreateChatConfig Date_at createPolicy key None w in
  policy r.1 = createPolicy key
  ∧ display r.1 = Some {| display_minScore := 6.5 |}
  ∧ chatTitle r.1 = "Telegram Chat"
  ∧ callCount r.1 = 0%float
  ∧ lastCallAt r.1 = None
  ∧ clock r.2 = S (S (S (clock w)))
  ∧ ∀ other, other ≠ key →
      map_get other (chats r.2) = map_get other (chats w).
Proof.
  intros Hget. cbv zeta.
  unfold getOrCreateChatConfig, mbind, M_bind, getChatConfig. cbv beta.
  rewrite Hget. unfold newDate, saveChatConfig, mbind, M_bind, newDate,
    chats_set, mret, M_ret.
  cbn [fst snd policy display chatTitle callCount lastCallAt clock chats
       with_clock with_chats chatId].
  repeat split. intros other Hne. by apply map_get_map_set_ne.
Qed.

Lemma update_config_others key (f : TelegramChatConfig → TelegramChatConfig)
    w other :
  (∀ c, chatId (f c) = chatId c) →
  storage_wf w → other ≠ key →
  let r := getOrCreateChatConfig Date_at createPolicy key None w in
  let w1 := (saveChatConfig Date_at (f r.1) r.2).2 in
  map_get other (chats w1) = map_get other (chats w).
Proof.
  intros Hf Hwf Hne. cbv zeta.
  destruct (getOrCreateChatConfig_spec key None w Hwf)
    as (_ & Hid & _).
  assert (map_get other
            (chats (getOrCreateChatConfig Date_at createPolicy key None w).2)
          = map_get other (chats w)) as Hsame.
  { destruct (map_get key (chats w)) as [old|] eqn:Hget.
    - by rewrite (getOrCreateChatConfig_existing _ _ _ _ Hget).
    - by apply getOrCreateChatConfig_missing. }
  destruct (getOrCreateChatConfig Date_at createPolicy key None w)
    as [cfg w0]. cbn [fst snd] in *.
  unfold saveChatConfig, mbind, M_bind, newDate, chats_set.
  cbn [snd chats with_chats with_clock chatId].
  rewrite Hf, Hid. rewrite map_get_map_set_ne by done. exact Hsame.
Qed.


(** The storage after a command of an admin has fetched (or created) the
    configuration of the chat, changed it by [f] and saved it. *)
Lemma update_config_stored key (f : TelegramChatConfig → TelegramChatConfig)
    w :
  (∀ c, chatId (f c) = chatId c) →
  storage_wf w →
  let r := getOrCreateChatConfig Date_at createPolicy key None w in
  let w1 := (saveChatConfig Date_at (f r.1) r.2).2 in
  ∃ stored,
    map_get key (chats w1) = Some stored
    ∧ (∀ old, map_get key (chats w) = Some old →
         stored = saved (f old) (Date_at (clock w)))
    ∧ (map_get key (chats w) = None →
         ∃ fresh,
           stored = saved (f fresh) (Date_at (S (S (S (clock w)))))
           ∧ chatId fresh = key
           ∧ policy fresh = createPolicy key
           ∧ display fresh = Some {| display_minScore := 6.5 |}
           ∧ chatTitle fresh = "Telegram Chat").
Proof.
  intros Hf Hwf. cbv zeta.
  destruct (update_config_spec key f w Hf Hwf)
    as (_ & Hget & _).
  eexists. split; [exact Hget|]. split.
  - intros old Hold.
    by rewrite (getOrCreateChatConfig_existing _ _ _ _ Hold).
  - intros Hnone.
    destruct (getOrCreateChatConfig_spec key None w Hwf)
      as (_ & Hid & _).
    destruct (getOrCreateChatConfig_missing key w Hnone)
      as (Hp & Hd & Ht & _ & _ & Hclock & _).
    eexists. split; [by rewrite Hclock|]. done.
Qed.

Section Commands.

Variable config : AutopostConfig.
Variable tz : Z.
Variable deliver : string → GraduationCandidate → SendResult.

(** X26. [/mute] and [/unmute]: sent by someone who is no admin the
    command changes nothing; sent by an admin it stores the chat's
    configuration, the one the storage had or a new one, with autopost
    switched off by [/mute] and on by [/unmute] and nothing else changed,
    and leaves the other chats alone; and after [/mute] a tick of the
    autopost service sends nothing to that chat. *)
Theorem handleMute_silences (key command : string)
    (candidates : list GraduationCandidate) (w : World) :
  storage_wf w →
  (handleMute Date_at createPolicy false key command w).2 = w
  ∧ (let w1 := (handleMute Date_at createPolicy true key command w).2 in
     let enabled := String.eqb command "unmute" in
     ∃ stored,
       (getChatConfig key w1).1 = Some stored
       ∧ chatId stored = key
       ∧ autopostEnabled (policy stored) = enabled
       ∧ (∀ old, (getChatConfig key w).1 = Some old →
            stored = saved (with_policy (set_autopostEnabled enabled) old)
                       (Date_at (clock w)))
       ∧ ((getChatConfig key w).1 = None →
            policy stored = set_autopostEnabled enabled (createPolicy key)
            ∧ display stored = Some {| display_minScore := 6.5 |}
            ∧ chatTitle stored = "Telegram Chat")
       ∧ (∀ other, other ≠ key →
            (getChatConfig other w1).1 = (getChatConfig other w).1))
  ∧ let w1 := (handleMute Date_at createPolicy true key "mute" w).2 in
    ∃ new,
      outbox (scanAndNotify config Date_at tz deliver candidates w1).2
      = outbox w1 ++ new
      ∧ Forall (λ d, recipient d ≠ key) new.
Proof.
  intros Hwf. split; [done|].
  assert (∀ command,
    (handleMute Date_at createPolicy true key command w).2
    = (saveChatConfig Date_at
         (with_policy (set_autopostEnabled (String.eqb command "unmute"))
            (getOrCreateChatConfig Date_at createPolicy key None w).1)
         (getOrCreateChatConfig Date_at createPolicy key None w).2).2)
    as Hrun.
  { intros cmd. unfold handleMute. cbn [negb]. unfold mbind, M_bind.
    destruct (getOrCreateChatConfig Date_at createPolicy key None w)
      as [cfg w0].
    cbn [fst snd]. by destruct (saveChatConfig Date_at _ w0). }
  split.
  - cbv zeta. rewrite Hrun. unfold getChatConfig. cbn [fst].
    set (f := with_policy (set_autopostEnabled (String.eqb command "unmute"))).
    pose proof (update_config_stored key f w ltac:(done) Hwf) as Hstored.
    pose proof (λ other, update_config_others key f w
                           other ltac:(done) Hwf) as Hothers.
    cbv zeta in Hstored, Hothers.
    destruct Hstored as (stored & Hget & Hold & Hnew).
    exists stored. split; [exact Hget|].
    destruct (map_get key (chats w)) as [old|] eqn:Hw.
    + rewrite (Hold old eq_refl). split.
      { destruct Hwf as (_ & Hkeys). rewrite Forall_forall in Hkeys.
        apply (Hkeys _ (map_get_Some _ _ _ Hw)). }
      split; [done|]. split; [by intros ? [= <-]|]. split; [done|].
      exact Hothers.
    + destruct (Hnew eq_refl) as (fresh & -> & Hid & Hp & Hd & Ht).
      split; [exact Hid|]. unfold f, saved.
      cbn [policy display chatTitle with_policy autopostEnabled
           set_autopostEnabled].
      split; [done|]. split; [done|]. rewrite Hp, Hd, Ht.
      split; [done|]. exact Hothers.
  - cbv zeta. rewrite Hrun. cbn [String.eqb Ascii.eqb Bool.eqb].
    pose proof (update_config_spec key
                  (with_policy (set_autopostEnabled false)) w
                  ltac:(done) Hwf) as Hspec.
    cbv zeta in Hspec. destruct Hspec as (Hwf1 & Hget & _).
    match goal with
    | |- context [scanAndNotify _ _ _ _ _ ?w1] =>
        destruct (telegram_scanAndNotify_sends config Date_at tz deliver
                    candidates w1) as (new & Hout & Hall)
    end.
    exists new. split; [exact Hout|].
    eapply Forall_impl; [exact Hall|].
    intros d (_ & _ & _ & _ & chat & Hchat & Henabled & Hto & _) Heq.
    rewrite Hto in Heq.
    rewrite (stored_chat_unique _ _ _ _ Hwf1 Hget Hchat Heq) in Henabled.
    discriminate Henabled.
Qed.

(** X27. [/setrisk]: sent by someone who is no admin, or with a score
    that is not a number from 1 to 10, it changes nothing; sent by an
    admin with such a score it stores the chat's configuration, the one
    the storage had or a new one, with the score as [display.minScore]
    and as [minConfidenceScore] and nothing else changed, and leaves the
    other chats alone; a tick of the autopost service then sends the
    chat no candidate that scores less. *)
Theorem handleSetRisk_threshold (key : string) (risk : float)
    (candidates : list GraduationCandidate) (w : World) :
  storage_wf w →
  (handleSetRisk Date_at createPolicy false key risk w).2 = w
  ∧ ((1 <=? risk)%float && (risk <=? 10)%float = false →
     (handleSetRisk Date_at createPolicy true key risk w).2 = w)
  ∧ ((1 <=? risk)%float && (risk <=? 10)%float = true →
     let w1 := (handleSetRisk Date_at createPolicy true key risk w).2 in
     (∃ stored,
        (getChatConfig key w1).1 = Some stored
        ∧ chatId stored = key
        ∧ display stored = Some {| display_minScore := risk |}
        ∧ minConfidenceScore (policy stored) = risk
        ∧ (∀ old, (getChatConfig key w).1 = Some old →
             stored
             = saved (with_policy (set_minConfidenceScore risk)
                        (with_display (Some {| display_minScore := risk |})
                           old))
                     (Date_at (clock w)))
        ∧ ((getChatConfig key w).1 = None →
             policy stored = set_minConfidenceScore risk (createPolicy key)
             ∧ chatTitle stored = "Telegram Chat")
        ∧ (∀ other, other ≠ key →
             (getChatConfig other w1).1 = (getChatConfig other w).1))
     ∧ ∃ new,
         outbox (scanAndNotify config Date_at tz deliver candidates w1).2
         = outbox w1 ++ new
         ∧ Forall (λ d, recipient d = key →
                        JS.ge (score (dispatched d)) risk = true) new).
Proof.
  intros Hwf. split; [done|]. split.
  - intros Hbad. unfold handleSetRisk. cbn [negb].
    destruct (negb (risk =? risk)%float || (risk <? 1)%float || JS.gt risk 10)
      eqn:Hcheck; [done|exfalso].
    apply Bool.orb_false_iff in Hcheck as (Hcheck & Hhigh).
    apply Bool.orb_false_iff in Hcheck as (Hnan & Hlow).
    apply Bool.negb_false_iff in Hnan.
    unfold JS.gt in Hhigh.
    rewrite ltb_negb_leb in Hlow, Hhigh by done.
    apply Bool.negb_false_iff in Hlow, Hhigh.
    by rewrite Hlow, Hhigh in Hbad.
  - intros Hgood. apply andb_prop in Hgood as (Hlow & Hhigh). cbv zeta.
    destruct (leb_not_nan _ _ Hlow) as (_ & Hnan).
    assert ((risk <? 1)%float = false) as Hlow'
      by (rewrite ltb_negb_leb, Hlow; done).
    assert (JS.gt risk 10 = false) as Hhigh'
      by (unfold JS.gt; rewrite ltb_negb_leb, Hhigh; done).
    assert (JS.truthy risk = true) as Htruthy.
    { unfold JS.truthy. rewrite Hnan, andb_true_r.
      apply Bool.negb_true_iff.
      destruct (risk =? 0)%float eqn:Hzero; [exfalso|done].
      apply eqb_leb in Hzero.
      assert ((risk <? 1)%float = true) as Hlt
        by (eapply leb_ltb_trans; [exact Hzero|]; vm_compute; reflexivity).
      by rewrite Hlt in Hlow'. }
    set (f := λ cfg : TelegramChatConfig,
           with_policy (set_minConfidenceScore risk)
             (with_display (Some {| display_minScore := risk |}) cfg)).
    assert ((handleSetRisk Date_at createPolicy true key risk w).2
            = (saveChatConfig Date_at
                 (f (getOrCreateChatConfig Date_at createPolicy key None w).1)
                 (getOrCreateChatConfig Date_at createPolicy key None w).2).2)
      as ->.
    { unfold handleSetRisk. cbn [negb]. rewrite Hnan, Hlow', Hhigh'.
      cbn [negb orb]. unfold mbind, M_bind.
      destruct (getOrCreateChatConfig Date_at createPolicy key None w)
        as [cfg w0].
      cbn [fst snd]. unfold f.
      destruct (display cfg); by destruct (saveChatConfig Date_at _ w0). }
    split.
    + unfold getChatConfig. cbn [fst].
      pose proof (update_config_stored key f w ltac:(done) Hwf) as Hstored.
      pose proof (λ other, update_config_others key f w
                             other ltac:(done) Hwf) as Hothers.
      cbv zeta in Hstored, Hothers.
      destruct Hstored as (stored & Hget & Hold & Hnew).
      exists stored. split; [exact Hget|].
      destruct (map_get key (chats w)) as [old|] eqn:Hw.
      * rewrite (Hold old eq_refl). split.
        { destruct Hwf as (_ & Hkeys). rewrite Forall_forall in Hkeys.
          apply (Hkeys _ (map_get_Some _ _ _ Hw)). }
        split; [done|]. split; [done|]. split; [by intros ? [= <-]|].
        split; [done|]. exact Hothers.
      * destruct (Hnew eq_refl) as (fresh & -> & Hid & Hp & Hd & Ht).
        split; [exact Hid|]. unfold f, saved.
        cbn [policy display chatTitle with_policy with_display
             minConfidenceScore set_minConfidenceScore].
        split; [done|]. split; [done|]. split; [done|]. rewrite Hp, Ht.
        split; [done|]. exact Hothers.
    + pose proof (update_config_spec key f w
                    ltac:(done) Hwf) as Hspec.
      cbv zeta in Hspec. destruct Hspec as (Hwf1 & Hget & _).
      match goal with
      | |- context [scanAndNotify _ _ _ _ _ ?w1] =>
          destruct (telegram_scanAndNotify_sends config Date_at tz deliver
                      candidates w1) as (new & Hout & Hall)
      end.
      exists new. split; [exact Hout|].
      eapply Forall_impl; [exact Hall|].
      intros d (_ & _ & _ & _ & chat & Hchat & _ & Hto & Hscore) Heq.
      rewrite Hto in Heq.
      rewrite (stored_chat_unique _ _ _ _ Hwf1 Hget Hchat Heq) in Hscore.
      unfold chatMinScore, saved, f in Hscore.
      cbn [display policy with_policy with_display fmap option_fmap option_map
           display_minScore JS.or_else] in Hscore.
      by rewrite Htruthy in Hscore.
Qed.

End Commands.

End BotStorage.
(* ===================================================================== *)
(** ** The commands' selections, the formatter and the callback data *)
(* ===================================================================== *)

Section Selection.

Import Telegram TelegramBot.

Local Open Scope float_scope.

Lemma slice0_take {A} (arr : list A) (e : Z) :
  (0 ≤ e)%Z → DexScreenerProvider.slice0 arr e = take (Z.to_nat e) arr.
Proof.
  intros He. unfold DexScreenerProvider.slice0. cbv zeta.
  destruct (Z.ltb_spec e 0) as [?|_]; [lia|].
  destruct (Z.min_spec e (Z.of_nat (length arr))) as [(? & ->)|(? & ->)];
    [done|].
  rewrite Nat2Z.id. rewrite !take_ge by lia. done.
Qed.

(** X28. The [/alpha] command shows at most five candidates, best score
    first; they are candidates that pass the filter and reach the
    chat's minimum score, and no such candidate it leaves out scores
    higher than one it shows. *)
Theorem alphaSelection_best (config : TelegramChatConfig)
    (candidates : list GraduationCandidate) :
  let shown := alphaSelection config candidates in
  let minScore := (display_minScore <$> display config) ||? 7 in
  (length shown ≤ 5)%nat
  ∧ StronglySorted (descending score) shown
  ∧ ∃ rest,
      shown ++ rest
      ≡ₚ filter (λ c, passesFilter c && JS.ge (score c) minScore = true)
                candidates
      ∧ Forall (λ a, Forall (descending score a) rest) shown.
Proof.
  cbv zeta. unfold alphaSelection. cbv zeta.
  rewrite slice0_take by lia. change (Z.to_nat 5) with 5%nat.
  match goal with
  | |- context [sort ?f ?l] => set (qualified := l); set (sorted := sort f l)
  end.
  assert (StronglySorted (descending score) sorted) as Hsorted.
  { apply (sort_descending score). apply Forall_forall. intros c Hc.
    apply list_elem_of_filter in Hc as (Hc & _).
    apply andb_prop in Hc as (_ & Hc). unfold JS.ge in Hc.
    by apply leb_not_nan in Hc as (_ & ?). }
  rewrite <- (take_drop 5 sorted) in Hsorted.
  apply StronglySorted_app in Hsorted as (Hcross & Hshown & _).
  split; [rewrite length_take; lia|]. split; [done|].
  exists (drop 5 sorted). split.
  - rewrite take_drop. apply sort_perm.
  - apply Forall_forall. intros a Ha. apply Forall_forall. intros b Hb.
    by apply Hcross.
Qed.

End Selection.

Section Formatter.

Import TelegramFormatter.

Lemma append_cons (a : ascii) (s t : string) :
  String a s +:+ t = String a (s +:+ t).
Proof. reflexivity. Qed.

Lemma append_nil (t : string) : "" +:+ t = t.
Proof. reflexivity. Qed.

Lemma append_assoc (s t u : string) : (s +:+ t) +:+ u = s +:+ (t +:+ u).
Proof.
  induction s as [|a s IH]; [done|]. by rewrite !append_cons, IH.
Qed.

Lemma replaceAll_app c by_ s t :
  replaceAll c by_ (s +:+ t) = replaceAll c by_ s +:+ replaceAll c by_ t.
Proof.
  induction s as [|a s IH]; [done|].
  rewrite append_cons. cbn [replaceAll]. rewrite IH.
  destruct (Ascii.eqb a c); [|done]. by rewrite append_assoc.
Qed.

Lemma escapeHtml_cons (c : ascii) (rest : string) :
  escapeHtml (String c rest) = escapeChar c +:+ escapeHtml rest.
Proof.
  unfold escapeHtml, escapeChar. cbn [replaceAll].
  destruct (Ascii.eqb_spec c "&") as [->|Hamp].
  - rewrite !replaceAll_app. reflexivity.
  - cbn [replaceAll]. destruct (Ascii.eqb_spec c "<") as [->|Hlt].
    + rewrite !replaceAll_app. reflexivity.
    + cbn [replaceAll]. destruct (Ascii.eqb_spec c ">") as [->|Hgt]; done.
Qed.

Lemma escapeHtml_escapeChars (text : string) :
  escapeHtml text = escapeChars text.
Proof.
  induction text as [|c rest IH]; [done|].
  by rewrite escapeHtml_cons, IH.
Qed.

Lemma chars_app s t : chars (s +:+ t) = chars s ++ chars t.
Proof.
  induction s as [|c s IH]; [done|]. rewrite append_cons. cbn [chars].
  by rewrite IH.
Qed.

Lemma escapeChar_safe (c : ascii) :
  Forall (λ a, a ≠ "<"%char ∧ a ≠ ">"%char) (chars (escapeChar c)).
Proof.
  unfold escapeChar.
  destruct (Ascii.eqb_spec c "&");
    [|destruct (Ascii.eqb_spec c "<"); [|destruct (Ascii.eqb_spec c ">")]];
    cbn [chars]; repeat constructor; done.
Qed.

Lemma escapeChars_inj (s t : string) :
  escapeChars s = escapeChars t → s = t.
Proof.
  revert t. induction s as [|c s IH]; intros [|d t]; cbn [escapeChars].
  - done.
  - unfold escapeChar.
    destruct (Ascii.eqb d "&"), (Ascii.eqb d "<"), (Ascii.eqb d ">");
      discriminate.
  - unfold escapeChar.
    destruct (Ascii.eqb c "&"), (Ascii.eqb c "<"), (Ascii.eqb c ">");
      discriminate.
  - unfold escapeChar.
    destruct (Ascii.eqb_spec c "&") as [->|?];
      [|destruct (Ascii.eqb_spec c "<") as [->|?];
        [|destruct (Ascii.eqb_spec c ">") as [->|?]]];
      (destruct (Ascii.eqb_spec d "&") as [->|?];
       [|destruct (Ascii.eqb_spec d "<") as [->|?];
         [|destruct (Ascii.eqb_spec d ">") as [->|?]]]);
      rewrite ?append_cons, ?append_nil; intros H; injection H as H;
      try congruence; try discriminate;
      repeat match goal with
      | H : String _ _ = String _ _ |- _ => injection H as H'; subst
      end;
      try congruence; f_equal; try congruence; by apply IH.
Qed.

(** X29. [escapeHtml] leaves no [<] and no [>] in the text, escapes every
    character once (the three passes together are one pass over the
    characters: an [&] written by a later pass is not escaped again),
    and loses nothing: different texts stay different. *)
Theorem escapeHtml_safe (text : string) :
  escapeHtml text = escapeChars text
  ∧ Forall (λ a, a ≠ "<"%char ∧ a ≠ ">"%char) (chars (escapeHtml text))
  ∧ ∀ other, escapeHtml other = escapeHtml text → other = text.
Proof.
  split; [apply escapeHtml_escapeChars|]. split.
  - rewrite escapeHtml_escapeChars.
    induction text as [|c rest IH]; [constructor|].
    cbn [escapeChars]. rewrite chars_app. apply Forall_app.
    split; [apply escapeChar_safe|done].
  - intros other. rewrite !escapeHtml_escapeChars. apply escapeChars_inj.
Qed.

Lemma split_not_nil sep s : split sep s ≠ [].
Proof.
  destruct s as [|c s]; cbn [split]; [done|].
  destruct (Ascii.eqb c sep); [done|]. by destruct (split sep s).
Qed.

Lemma split_app sep action payload :
  sep ∉ chars action →
  split sep (action +:+ String sep payload) = action :: split sep payload.
Proof.
  induction action as [|c action IH]; intros Hsep;
    rewrite ?append_cons, ?append_nil; cbn [split].
  - by rewrite Ascii.eqb_refl.
  - cbn [chars] in Hsep. apply not_elem_of_cons in Hsep as (Hc & Hsep).
    destruct (Ascii.eqb_spec c sep) as [->|_]; [done|].
    by rewrite IH.
Qed.

Lemma join_cons_char sep c seg segs :
  join sep (String c seg :: segs) = String c (join sep (seg :: segs)).
Proof. by destruct segs. Qed.

Lemma join_split sep s :
  join (String sep EmptyString) (split sep s) = s.
Proof.
  induction s as [|c s IH]; [done|]. cbn [split].
  pose proof (split_not_nil sep s) as Hnil.
  destruct (Ascii.eqb_spec c sep) as [->|_].
  - destruct (split sep s) as [|seg segs]; [done|].
    change (join (String sep "") ("" :: seg :: segs))
      with (String sep (join (String sep "") (seg :: segs))).
    by rewrite IH.
  - destruct (split sep s) as [|seg segs]; [done|].
    by rewrite join_cons_char, IH.
Qed.

(** The action and the payload of callback data come back as they went
    in, whatever the payload holds. *)
Lemma parseCallbackData_spec action payload :
  ":"%char ∉ chars action →
  parseCallbackData (action +:+ ":" +:+ payload) = (action, payload).
Proof.
  intros Haction. unfold parseCallbackData.
  change (action +:+ ":" +:+ payload)
    with (action +:+ String ":" payload).
  rewrite split_app by done. by rewrite (join_split ":").
Qed.

Lemma tickerKeyboard_buttons (candidates : list GraduationCandidate) :
  concat (generateTickerKeyboard candidates)
  = imap tickerButton (take 5 candidates)
  ∧ Forall (λ row, 1 ≤ length row ≤ 2)%nat (generateTickerKeyboard candidates).
Proof.
  unfold generateTickerKeyboard. cbv zeta. rewrite slice0_take by lia.
  change (Z.to_nat 5) with 5%nat.
  destruct candidates as [|c1 [|c2 [|c3 [|c4 [|c5 rest]]]]];
    cbn; (split; [reflexivity|repeat constructor; cbn; lia]).
Qed.

(** X30. [generateTickerKeyboard] makes one numbered button for each of the
    first five candidates, in rows of one or two, and the callback data
    of a button is read back by [handleCallbackQuery] as the action
    [ticker] with the candidate's mint as payload, whatever the mint
    holds. *)
Theorem tickerKeyboard_round_trip (candidates : list GraduationCandidate) :
  let keyboard := generateTickerKeyboard candidates in
  concat keyboard = imap tickerButton (take 5 candidates)
  ∧ Forall (λ row, 1 ≤ length row ≤ 2)%nat keyboard
  ∧ (λ b, parseCallbackData <$> callbackData b) <$> concat keyboard
    = (λ c, Some ("ticker", grad_mint (graduation c))) <$> take 5 candidates.
Proof.
  cbv zeta. destruct (tickerKeyboard_buttons candidates) as (Hbuttons & Hrows).
  split; [done|]. split; [done|]. rewrite Hbuttons.
  assert (∀ (f : nat → GraduationCandidate → InlineButton) tokens,
            (∀ j c, parseCallbackData <$> callbackData (f j c)
                    = Some ("ticker", grad_mint (graduation c))) →
            (λ b, parseCallbackData <$> callbackData b) <$> imap f tokens
            = (λ c, Some ("ticker", grad_mint (graduation c))) <$> tokens)
    as Himap.
  { intros f tokens. revert f.
    induction tokens as [|c tokens IH]; intros f Hf; [done|].
    cbn [imap]. rewrite !fmap_cons. f_equal; [apply Hf|].
    apply IH. intros j c'. apply Hf. }
  apply Himap. intros j c.
  cbn [tickerButton callbackData fmap option_fmap option_map].
  f_equal. apply (parseCallbackData_spec "ticker").
  cbn [chars]. intros H.
  repeat (apply elem_of_cons in H as [H|H]; [discriminate H|]).
  by apply elem_of_nil in H.
Qed.

End Formatter.
(* ===================================================================== *)
(** ** The further properties at work *)
(* ===================================================================== *)

Section FurtherExamples.

Local Open Scope float_scope.

(** Quiet hours from 22 to 6, examined at 23 h UTC. *)
Lemma quiet_hours_window_witness :
  Telegram.outbox
    (Telegram.notifyChat (at_hour 23) 0 accepted one_candidate
       QuietExample.chat 0 QuietExample.start).2
  = Telegram.outbox QuietExample.start
  ∧ Discord.outbox
      (Discord.notifyGuild (at_hour 23) 0 (λ _ _, true) one_candidate
         QuietExample.guild 0 (DiscordExample.start QuietExample.guild)).2
    = Discord.outbox (DiscordExample.start QuietExample.guild).
Proof.
  apply (quiet_hours_window 22 6 (at_hour 23) 0 accepted (λ _ _, true)
           one_candidate 0 QuietExample.chat QuietExample.start
           QuietExample.guild (DiscordExample.start QuietExample.guild));
    first [lia | vm_compute; reflexivity].
Defined.

(** Quiet hours from 9 to 9, examined at 15 h UTC. *)
Lemma quiet_hours_same_bounds_witness :
  Telegram.outbox
    (Telegram.notifyChat (at_hour 15) 0 accepted one_candidate
       same_bounds_chat 0 (TelegramExample.start 50)).2
  = Telegram.outbox (TelegramExample.start 50)
  ∧ Discord.outbox
      (Discord.notifyGuild (at_hour 15) 0 (λ _ _, true) one_candidate
         same_bounds_guild 0 (DiscordExample.start same_bounds_guild)).2
    = Discord.outbox (DiscordExample.start same_bounds_guild).
Proof.
  apply (quiet_hours_same_bounds 9 (at_hour 15) 0 accepted (λ _ _, true)
           one_candidate 0 same_bounds_chat (TelegramExample.start 50)
           same_bounds_guild (DiscordExample.start same_bounds_guild));
    first [lia | vm_compute; reflexivity].
Defined.

Lemma logs_bounded_start maxCalls : logs_bounded (TelegramExample.start maxCalls).
Proof. intros chatId logs H. cbn in H. by rewrite lookup_empty in H. Qed.

Lemma seen_bounded_start maxCalls : seen_bounded (TelegramExample.start maxCalls).
Proof. split; [apply NoDup_nil_2|cbn; lia]. Qed.

Lemma storage_wf_start maxCalls : storage_wf (TelegramExample.start maxCalls).
Proof.
  split; cbn.
  - apply NoDup_singleton.
  - by repeat constructor.
Qed.

Lemma addCallLog_getCallLogs_witness :
  let w' := (Telegram.addCallLog "chat-1" example_log
               (TelegramExample.start 50)).2 in
  (Telegram.getCallLogs "chat-1" None w').1
  = take (default 20%nat None)
      (take 100 (example_log
                 :: default [] (Telegram.callLogs (TelegramExample.start 50)
                                  !! "chat-1")))
  ∧ (∀ other, other ≠ "chat-1" →
       (Telegram.getCallLogs other None w').1
       = (Telegram.getCallLogs other None (TelegramExample.start 50)).1)
  ∧ logs_bounded w'.
Proof.
  apply (addCallLog_getCallLogs "chat-1" example_log None
           (TelegramExample.start 50)).
  apply logs_bounded_start.
Defined.

(** A cap of 150 calls per day. *)
Lemma telegram_cap_above_100_never_reached_witness :
  let logs :=
    (Telegram.getCallLogs "chat-1" (Some 100%nat)
       (TelegramExample.tick one_candidate (TelegramExample.start 150))).1 in
  let callsToday :=
    length (filter (λ log, Calendar.toDateString 0 (Telegram.createdAt log)
                           = 19675%Z) logs) in
  JS.ge (JS.of_nat callsToday) 150 = false.
Proof.
  apply (telegram_cap_above_100_never_reached 0 (TelegramExample.chat 150)
           19675%Z
           (TelegramExample.tick one_candidate (TelegramExample.start 150))).
  vm_compute. reflexivity.
Defined.

Lemma telegram_tick_keeps_bounds_witness :
  let w' := (Telegram.scanAndNotify DEFAULT_AUTOPOST_CONFIG ticking_dates 0
               accepted two_candidates (TelegramExample.start 50)).2 in
  logs_bounded w' ∧ seen_bounded w'
  ∧ (length (Telegram.seenTokens w') ≤ 501)%nat.
Proof.
  apply (telegram_tick_keeps_bounds ticking_dates 0 accepted
           DEFAULT_AUTOPOST_CONFIG two_candidates (TelegramExample.start 50)).
  - apply logs_bounded_start.
  - apply seen_bounded_start.
Defined.

(** The healthy candidate found at 23 h, inside the quiet hours of the
    only chat: nothing is sent then, and nothing in the next tick. *)
Lemma telegram_posted_at_first_sight_or_never_witness :
  let w1 := (Telegram.scanAndNotify DEFAULT_AUTOPOST_CONFIG (at_hour 23) 0
               accepted one_candidate QuietExample.start).2 in
  ∃ new,
    Telegram.outbox
      (Telegram.scanAndNotify DEFAULT_AUTOPOST_CONFIG (at_hour 23) 0
         accepted one_candidate w1).2
    = Telegram.outbox w1 ++ new
    ∧ Forall (λ d, grad_mint (graduation (dispatched d))
                   ≠ grad_mint (graduation healthy_candidate)) new.
Proof.
  apply (telegram_posted_at_first_sight_or_never (at_hour 23) 0 accepted
           DEFAULT_AUTOPOST_CONFIG one_candidate one_candidate
           QuietExample.start healthy_candidate).
  - apply Exists_cons_hd. reflexivity.
  - vm_compute. apply list_elem_of_here.
  - vm_compute. reflexivity.
  - vm_compute. reflexivity.
  - vm_compute. lia.
Defined.

Lemma handleMute_silences_witness :
  let createPolicy := λ _ : string, example_policy 50 in
  let w := TelegramExample.start 50 in
  (TelegramBot.handleMute ticking_dates createPolicy false "chat-1" "mute"
     w).2 = w
  ∧ (let w1 := (TelegramBot.handleMute ticking_dates createPolicy true
                  "chat-1" "mute" w).2 in
     let enabled := String.eqb "mute" "unmute" in
     ∃ stored,
       (TelegramBot.getChatConfig "chat-1" w1).1 = Some stored
       ∧ Telegram.chatId stored = "chat-1"
       ∧ autopostEnabled (Telegram.policy stored) = enabled
       ∧ (∀ old, (TelegramBot.getChatConfig "chat-1" w).1 = Some old →
            stored
            = saved (TelegramBot.with_policy
                       (TelegramBot.set_autopostEnabled enabled) old)
                    (ticking_dates (Telegram.clock w)))
       ∧ ((TelegramBot.getChatConfig "chat-1" w).1 = None →
            Telegram.policy stored
            = TelegramBot.set_autopostEnabled enabled (createPolicy "chat-1")
            ∧ Telegram.display stored
              = Some {| Telegram.display_minScore := 6.5 |}
            ∧ Telegram.chatTitle stored = "Telegram Chat")
       ∧ (∀ other, other ≠ "chat-1" →
            (TelegramBot.getChatConfig other w1).1
            = (TelegramBot.getChatConfig other w).1))
  ∧ let w1 := (TelegramBot.handleMute ticking_dates createPolicy true
                 "chat-1" "mute" w).2 in
    ∃ new,
      Telegram.outbox
        (Telegram.scanAndNotify DEFAULT_AUTOPOST_CONFIG ticking_dates 0
           accepted one_candidate w1).2
      = Telegram.outbox w1 ++ new
      ∧ Forall (λ d, recipient d ≠ "chat-1") new.
Proof.
  apply (handleMute_silences ticking_dates (λ _, example_policy 50)
           DEFAULT_AUTOPOST_CONFIG 0 accepted "chat-1" "mute" one_candidate
           (TelegramExample.start 50)).
  apply storage_wf_start.
Defined.

Lemma handleSetRisk_threshold_witness :
  let createPolicy := λ _ : string, example_policy 50 in
  let w := TelegramExample.start 50 in
  (TelegramBot.handleSetRisk ticking_dates createPolicy false "chat-1" 10
     w).2 = w
  ∧ ((1 <=? 10) && (10 <=? 10) = false →
     (TelegramBot.handleSetRisk ticking_dates createPolicy true "chat-1" 10
        w).2 = w)
  ∧ ((1 <=? 10) && (10 <=? 10) = true →
     let w1 := (TelegramBot.handleSetRisk ticking_dates createPolicy true
                  "chat-1" 10 w).2 in
     (∃ stored,
        (TelegramBot.getChatConfig "chat-1" w1).1 = Some stored
        ∧ Telegram.chatId stored = "chat-1"
        ∧ Telegram.display stored
          = Some {| Telegram.display_minScore := 10 |}
        ∧ minConfidenceScore (Telegram.policy stored) = 10
        ∧ (∀ old, (TelegramBot.getChatConfig "chat-1" w).1 = Some old →
             stored
             = saved (TelegramBot.with_policy
                        (TelegramBot.set_minConfidenceScore 10)
                        (TelegramBot.with_display
                           (Some {| Telegram.display_minScore := 10 |}) old))
                     (ticking_dates (Telegram.clock w)))
        ∧ ((TelegramBot.getChatConfig "chat-1" w).1 = None →
             Telegram.policy stored
             = TelegramBot.set_minConfidenceScore 10 (createPolicy "chat-1")
             ∧ Telegram.chatTitle stored = "Telegram Chat")
        ∧ (∀ other, other ≠ "chat-1" →
             (TelegramBot.getChatConfig other w1).1
             = (TelegramBot.getChatConfig other w).1))
     ∧ ∃ new,
         Telegram.outbox
           (Telegram.scanAndNotify DEFAULT_AUTOPOST_CONFIG ticking_dates 0
              accepted one_candidate w1).2
         = Telegram.outbox w1 ++ new
         ∧ Forall (λ d, recipient d = "chat-1" →
                        JS.ge (score (dispatched d)) 10 = true) new).
Proof.
  apply (handleSetRisk_threshold ticking_dates (λ _, example_policy 50)
           DEFAULT_AUTOPOST_CONFIG 0 accepted "chat-1" 10 one_candidate
           (TelegramExample.start 50)).
  apply storage_wf_start.
Defined.

Lemma chat_config_round_trip_witness :
  let cfg := TelegramExample.chat 10 in
  let w := TelegramExample.start 50 in
  let w1 := (Telegram.saveChatConfig ticking_dates cfg w).2 in
  let w2 := (TelegramBot.deleteChatConfig "chat-1" w1).2 in
  (TelegramBot.getChatConfig "chat-1" w1).1
  = Some (saved cfg (ticking_dates 0))
  ∧ (∀ other, other ≠ "chat-1" →
       (TelegramBot.getChatConfig other w1).1
       = (TelegramBot.getChatConfig other w).1)
  ∧ storage_wf w1
  ∧ (TelegramBot.getChatConfig "chat-1" w2).1 = None
  ∧ (Telegram.getCallLogs "chat-1" None w2).1 = [].
Proof.
  apply (chat_config_round_trip ticking_dates (TelegramExample.chat 10) None
           (TelegramExample.start 50)).
  apply storage_wf_start.
Defined.

End FurtherExamples.
